(** * The video production pipeline, modelled from its TypeScript sources

    A shallow embedding of the parts of the repository that sequence the
    per-topic work: the error classes and the retry helper of
    [utils/errors.ts], the timeline allocator and the visual stage of
    [services/VisualContentService.ts], the script stage
    ([AIContentGenerationService.generateScript]), the text chunker of
    [services/TextToSpeechService.ts] and the in-memory task queue
    ([TaskQueueService]).

    Conventions.
    - A JavaScript number that holds a count of seconds, of retries or of
      milliseconds is a [Z]; where the source computes with fractions
      ([duration / 60], [n * 0.7]) the model evaluates the expression in
      IEEE binary64 with [SpecFloat], as the JavaScript engine does.
    - A JavaScript string is a [string]: a sequence of code units below 256.
    - A function that can throw returns an [outcome]; a collaborator (an
      HTTP API, the language model, the awaited operation) is a parameter.
    - A [while] loop carries fuel; that the fuel given is enough is proved. *)

From Stdlib Require Import ZArith List String Ascii Bool Lia SpecFloat Sorted.
From stdpp Require Import gmap strings list fin_maps pretty.
Import ListNotations.

Open Scope Z_scope.

(** ** utils/errors.ts *)

Module Errors.

Inductive category : Type := user | external | system.

(** The class a thrown object was constructed from: what [instanceof] sees. *)
Inductive error_class : Type :=
| ClsAppError
| ClsValidationError
| ClsAuthenticationError
| ClsAuthorizationError
| ClsNotFoundError
| ClsExternalServiceError
| ClsVideoProcessingError
| ClsFileStorageError
| ClsDatabaseError
| ClsQueueError.

Record AppError : Type := mkAppError {
  cls : error_class;
  message : string;
  code : string;
  category_of : category;
  retryable : bool;
  statusCode : Z
}.

Definition ValidationError (msg : string) : AppError :=
  mkAppError ClsValidationError msg "VALIDATION_ERROR" user false 400.

(** [new ExternalServiceError(service, message, retryable)]. *)
Definition ExternalServiceError (service msg : string) (retry : bool) : AppError :=
  mkAppError ClsExternalServiceError (service ++ " error: " ++ msg)
             "EXTERNAL_SERVICE_ERROR" external retry 502.

(** [new ExternalServiceError(service, message)]: [retryable] defaults to [true]. *)
Definition ExternalServiceError_default (service msg : string) : AppError :=
  ExternalServiceError service msg true.

Definition QueueError (msg : string) (retry : bool) : AppError :=
  mkAppError ClsQueueError ("Queue error: " ++ msg) "QUEUE_ERROR" system retry 500.

(** What a [throw] can carry: an [AppError], any other [Error], or
    [undefined] (the value of a [let] that was never assigned). *)
Inductive thrown : Type :=
| ThrownApp (e : AppError)
| ThrownError (msg : string)
| ThrownUndefined.

Inductive outcome (A : Type) : Type :=
| Returned (a : A)
| Threw (e : thrown).

Arguments Returned {A} a.
Arguments Threw {A} e.

(** [(error as Error).message] *)
Definition message_of (e : thrown) : string :=
  match e with
  | ThrownApp a => message a
  | ThrownError m => m
  | ThrownUndefined => ""
  end.

(** [error instanceof ValidationError] *)
Definition instanceof_ValidationError (e : thrown) : bool :=
  match e with
  | ThrownApp a => match cls a with ClsValidationError => true | _ => false end
  | _ => false
  end.

(** [error instanceof AppError && !error.retryable] *)
Definition non_retryable (e : thrown) : bool :=
  match e with
  | ThrownApp a => negb (retryable a)
  | _ => false
  end.

(** *** ErrorHandler.retryOperation

    The awaited [operation] is a transition of the world it acts on: each
    invocation returns or throws, and leaves a new world behind.  The log
    records what the helper did, in order: each invocation with its result,
    each warning, each sleep with its length in milliseconds. *)

Inductive event (T : Type) : Type :=
| EvCall (attempt : Z) (r : outcome T)
| EvWarn (attempt maxRetries : Z)
| EvSleep (ms : Z).

Arguments EvCall {T} attempt r.
Arguments EvWarn {T} attempt maxRetries.
Arguments EvSleep {T} ms.

Section Retry.

Context {T W : Type}.
Variable operation : W -> outcome T * W.

(** [throw lastError!] *)
Definition throw_last (lastError : option thrown) : outcome T :=
  match lastError with
  | Some e => Threw e
  | None => Threw ThrownUndefined
  end.

(** The [for] loop from [attempt] on; [None] when the fuel runs out. *)
Fixpoint retry_loop (fuel : nat) (maxRetries delay : Z) (attempt : Z)
    (lastError : option thrown) (w : W) (log : list (event T))
    : option (outcome T * W * list (event T)) :=
  if attempt <=? maxRetries then
    match fuel with
    | O => None
    | S fuel' =>
        let '(r, w') := operation w in
        let log1 := log ++ [EvCall attempt r] in
        match r with
        | Returned v => Some (Returned v, w', log1)
        | Threw e =>
            if non_retryable e then Some (Threw e, w', log1)
            else if attempt =? maxRetries then Some (throw_last (Some e), w', log1)
            else
              retry_loop fuel' maxRetries delay (attempt + 1) (Some e) w'
                (log1 ++ [EvWarn attempt maxRetries;
                          EvSleep (delay * 2 ^ (attempt - 1))])
        end
    end
  else Some (throw_last lastError, w, log).

Definition retryOperation_fuel (fuel : nat) (maxRetries delay : Z) (w : W)
    : option (outcome T * W * list (event T)) :=
  retry_loop fuel maxRetries delay 1 None w [].

(** The schedule the helper is meant to follow, given the results of the
    invocations it made: invocation [k], and before the next one a warning
    and a sleep of [delay * 2 ^ (k - 1)]. *)
Fixpoint backoff_schedule (maxRetries delay : Z) (k : Z) (results : list (outcome T))
    : list (event T) :=
  match results with
  | [] => []
  | [r] => [EvCall k r]
  | r :: rest =>
      EvCall k r :: EvWarn k maxRetries :: EvSleep (delay * 2 ^ (k - 1))
        :: backoff_schedule maxRetries delay (k + 1) rest
  end.

Definition retryable_failure (r : outcome T) : Prop :=
  exists e, r = Threw e /\ non_retryable e = false.

(** The results of [n] successive invocations from the world [w], and the
    world they leave. *)
Fixpoint invocations (n : nat) (w : W) : list (outcome T) * W :=
  match n with
  | O => ([], w)
  | S n' =>
      let '(r, w1) := operation w in
      let '(rs, w2) := invocations n' w1 in
      (r :: rs, w2)
  end.

(** The lengths of the sleeps in a log, in order. *)
Definition sleeps (log : list (event T)) : list Z :=
  omap (fun ev => match ev with EvSleep ms => Some ms | _ => None end) log.

(** [retryOperation(operation)]: three attempts, one second of base delay. *)
Definition retryOperation_default (w : W) : option (outcome T * W * list (event T)) :=
  retryOperation_fuel 3 3 1000 w.

End Retry.

End Errors.

(** ** JavaScript numbers and strings, as far as the sources use them *)

Module JsNumber.

(** An integer as a binary64 number (exact below 2^53). *)
Definition of_Z (z : Z) : spec_float := binary_normalize 53 1024 z 0 false.

Definition div (x y : spec_float) : spec_float := SFdiv 53 1024 x y.
Definition mul (x y : spec_float) : spec_float := SFmul 53 1024 x y.

(** [Math.floor] and [Math.ceil] of a finite number, as an integer.  The
    sources apply them to quotients of validated integers only, so the
    infinities and NaN do not arise; they are sent to 0 here. *)
Definition floor (x : spec_float) : Z :=
  match x with
  | S754_finite s m e => Z.shiftl (cond_Zopp s (Zpos m)) e
  | _ => 0
  end.

Definition ceil (x : spec_float) : Z := - floor (SFopp x).

(** The literals [0.7] and [0.3]: the binary64 numbers nearest to 7/10 and 3/10. *)
Definition lit_0_7 : spec_float := div (of_Z 7) (of_Z 10).
Definition lit_0_3 : spec_float := div (of_Z 3) (of_Z 10).

End JsNumber.

Module JsString.

Definition code (c : ascii) : nat := nat_of_ascii c.

(** White space and line terminators below 256: what [trim] strips and
    what [\s] matches. *)
Definition is_white_space (c : ascii) : bool :=
  let n := code c in
  (((9 <=? n) && (n <=? 13)) || (n =? 32) || (n =? 160))%nat.

(** [\w]: the ASCII letters, the digits and the underscore. *)
Definition is_word_char (c : ascii) : bool :=
  let n := code c in
  (((48 <=? n) && (n <=? 57)) || ((65 <=? n) && (n <=? 90))
   || ((97 <=? n) && (n <=? 122)) || (n =? 95))%nat.

(** [s.length] *)
Definition len (s : string) : Z := Z.of_nat (String.length s).

(** A string in a condition: the empty string is falsy. *)
Definition truthy (s : string) : bool :=
  match s with
  | EmptyString => false
  | String _ _ => true
  end.

Fixpoint rev_append (s acc : string) : string :=
  match s with
  | EmptyString => acc
  | String c s' => rev_append s' (String c acc)
  end.

Definition rev (s : string) : string := rev_append s EmptyString.

Fixpoint trimStart (s : string) : string :=
  match s with
  | EmptyString => EmptyString
  | String c s' => if is_white_space c then trimStart s' else s
  end.

Definition trimEnd (s : string) : string := rev (trimStart (rev s)).

(** [s.trim()] *)
Definition trim (s : string) : string := trimEnd (trimStart s).

(** [s.split(/[...]+/)] for a character class [p]: the fields between the
    maximal runs of characters of the class.  [field] is the field being
    read and [in_run] tells whether the previous character was in the class. *)
Fixpoint split_runs (p : ascii -> bool) (s : string) (field : string) (in_run : bool)
    : list string :=
  match s with
  | EmptyString => [field]
  | String c s' =>
      if p c then
        if in_run then split_runs p s' EmptyString true
        else field :: split_runs p s' EmptyString true
      else split_runs p s' (field ++ String c EmptyString) false
  end.

Definition split_class (p : ascii -> bool) (s : string) : list string :=
  split_runs p s EmptyString false.

(** [s.split(sep)] for a one-character separator. *)
Fixpoint split_at (sep : ascii) (s : string) (field : string) : list string :=
  match s with
  | EmptyString => [field]
  | String c s' =>
      if Ascii.eqb c sep then field :: split_at sep s' EmptyString
      else split_at sep s' (field ++ String c EmptyString)
  end.

Definition split_char (sep : ascii) (s : string) : list string :=
  split_at sep s EmptyString.

(** [words.join(' ')] *)
Fixpoint join (sep : string) (l : list string) : string :=
  match l with
  | [] => EmptyString
  | [x] => x
  | x :: rest => x ++ sep ++ join sep rest
  end.

Definition map_chars (f : ascii -> ascii) : string -> string :=
  fix go (s : string) : string :=
    match s with
    | EmptyString => EmptyString
    | String c s' => String (f c) (go s')
    end.

(** [s.toLowerCase()] on code units below 256. *)
Definition lower_char (c : ascii) : ascii :=
  let n := code c in
  if (((65 <=? n) && (n <=? 90))
      || ((192 <=? n) && (n <=? 222) && negb (n =? 215)))%nat
  then ascii_of_nat (n + 32) else c.

Definition toLowerCase (s : string) : string := map_chars lower_char s.

Definition hex_digit (n : nat) : ascii :=
  ascii_of_nat (if (n <? 10)%nat then 48 + n else 55 + n).

Definition percent (byte : nat) : string :=
  String "%" (String (hex_digit (byte / 16)) (String (hex_digit (byte mod 16)) EmptyString)).

(** [encodeURIComponent]: the unreserved characters stay, every other code
    unit is written as the percent-escaped bytes of its UTF-8 encoding. *)
Definition is_unreserved (c : ascii) : bool :=
  let n := code c in
  (((48 <=? n) && (n <=? 57)) || ((65 <=? n) && (n <=? 90))
   || ((97 <=? n) && (n <=? 122))
   || (n =? 45) || (n =? 95) || (n =? 46) || (n =? 33) || (n =? 126)
   || (n =? 42) || (n =? 39) || (n =? 40) || (n =? 41))%nat.

Fixpoint encodeURIComponent (s : string) : string :=
  match s with
  | EmptyString => EmptyString
  | String c s' =>
      let n := code c in
      (if is_unreserved c then String c EmptyString
       else if (n <? 128)%nat then percent n
       else percent (192 + n / 64) ++ percent (128 + n mod 64))
      ++ encodeURIComponent s'
  end.

End JsString.

(** ** services/VisualContentService.ts *)

Module VisualContentService.

Import Errors.

Inductive visual_type : Type := image | video.

Record VisualContent : Type := mkVisual {
  type : visual_type;
  source : string;
  duration : Z;
  startTime : Z;
  url : string
}.

(** [{ ...visual, startTime: t, duration: d }] *)
Definition with_timing (visual : VisualContent) (t d : Z) : VisualContent :=
  mkVisual (type visual) (source visual) d t (url visual).

(** *** assignTimingToVisuals

    The [while] loop, from the state [(timedVisuals, currentTime,
    visualIndex)].  [None]: the fuel ran out.  Reading [visuals[i]] outside
    the array gives [undefined], and [undefined.duration] throws a
    [TypeError]. *)
Fixpoint timing_loop (fuel : nat) (visuals : list VisualContent) (totalDuration : Z)
    (timedVisuals : list VisualContent) (currentTime : Z) (visualIndex : nat)
    : option (outcome (list VisualContent)) :=
  if (currentTime <? totalDuration) && (visualIndex <? length visuals * 3)%nat then
    match fuel with
    | O => None
    | S fuel' =>
        match visuals !! (visualIndex mod length visuals)%nat with
        | None => Some (Threw (ThrownError "TypeError: Cannot read properties of undefined"))
        | Some visual =>
            let remainingTime := totalDuration - currentTime in
            let visualDuration := Z.min (duration visual) remainingTime in
            if visualDuration >? 0 then
              timing_loop fuel' visuals totalDuration
                (timedVisuals ++ [with_timing visual currentTime visualDuration])
                (currentTime + visualDuration) (S visualIndex)
            else
              timing_loop fuel' visuals totalDuration timedVisuals currentTime
                (S visualIndex)
        end
    end
  else Some (Returned timedVisuals).

Definition assignTimingToVisuals_fuel (fuel : nat) (visuals : list VisualContent)
    (totalDuration : Z) : option (outcome (list VisualContent)) :=
  if (length visuals =? 0)%nat then Some (Returned [])
  else timing_loop fuel visuals totalDuration [] 0 0%nat.

(** The loop body runs at most [visuals.length * 3] times, so that much
    fuel is given; it is shown below to be enough, and the [TypeError] never
    to be thrown. *)
Definition assignTimingToVisuals (visuals : list VisualContent) (totalDuration : Z)
    : list VisualContent :=
  match assignTimingToVisuals_fuel (length visuals * 3) visuals totalDuration with
  | Some (Returned timed) => timed
  | _ => []
  end.

(** *** Vocabulary for the timeline

    The slices abut from [t] on: the first starts at [t], each next one
    where the one before it ends. *)
Fixpoint contiguous_from (t : Z) (slices : list VisualContent) : Prop :=
  match slices with
  | [] => True
  | s :: rest => startTime s = t /\ contiguous_from (t + duration s) rest
  end.

Definition total_duration (slices : list VisualContent) : Z :=
  fold_right (fun s acc => duration s + acc) 0 slices.

(** What the assets with a positive nominal duration add up to. *)
Definition positive_total (visuals : list VisualContent) : Z :=
  fold_right (fun v acc => Z.max 0 (duration v) + acc) 0 visuals.

Definition has_positive_duration (v : VisualContent) : bool := 0 <? duration v.

(** The slice [s] shows the asset [v] for the whole of its nominal duration. *)
Definition full_slice_of (s v : VisualContent) : Prop :=
  type s = type v /\ source s = source v /\ url s = url v /\ duration s = duration v.

(** Three passes over the asset list: what [visuals[visualIndex %
    visuals.length]] reads for [visualIndex] below [visuals.length * 3]. *)
Definition three_passes (visuals : list VisualContent) : list VisualContent :=
  visuals ++ visuals ++ visuals.

(** The loop as a walk over the assets still to be read. *)
Fixpoint walk (rest : list VisualContent) (totalDuration : Z)
    (timedVisuals : list VisualContent) (currentTime : Z) : list VisualContent :=
  match rest with
  | [] => timedVisuals
  | visual :: rest' =>
      if currentTime <? totalDuration then
        let visualDuration := Z.min (duration visual) (totalDuration - currentTime) in
        if visualDuration >? 0 then
          walk rest' totalDuration
               (timedVisuals ++ [with_timing visual currentTime visualDuration])
               (currentTime + visualDuration)
        else walk rest' totalDuration timedVisuals currentTime
      else timedVisuals
  end.

(** *** The two searches and their collaborators *)

Record unsplash_image : Type := { urls_regular : string }.

Record pexels_file : Type := { quality : string; link : string }.

(** [duration] may be missing from the JSON of a video. *)
Record pexels_video : Type := {
  video_duration : option Z;
  video_files : list pexels_file
}.

(** The configuration of the service and the two HTTP collaborators.  A
    request either fails ([Threw]: network error, timeout, error status) or
    returns the list found under [data.results] / [data.videos], if any. *)
Record environment : Type := {
  unsplashAccessKey : string;
  pexelsApiKey : string;
  unsplash_get : string -> Z -> outcome (option (list unsplash_image));
  pexels_get : string -> Z -> outcome (option (list pexels_video))
}.

(** [keywords[i % keywords.length] || 'placeholder'] *)
Definition placeholder_keyword (keywords : list string) (i : nat) : string :=
  match keywords with
  | [] => "placeholder"
  | _ =>
      match keywords !! (i mod length keywords)%nat with
      | Some k => if JsString.truthy k then k else "placeholder"
      | None => "placeholder"
      end
  end.

Definition placeholder_url (keyword : string) : string :=
  "https://via.placeholder.com/1920x1080/4A90E2/FFFFFF?text="
    ++ JsString.encodeURIComponent keyword.

Definition generatePlaceholderImages (keywords : list string) (count : Z)
    : list VisualContent :=
  map (fun i =>
         let keyword := placeholder_keyword keywords i in
         mkVisual image (placeholder_url keyword) 5 0 (placeholder_url keyword))
      (seq 0 (Z.to_nat count)).

Definition unsplash_to_visual (img : unsplash_image) : VisualContent :=
  mkVisual image (urls_regular img) 5 0 (urls_regular img).

Definition searchUnsplashImages (env : environment) (keywords : list string) (count : Z)
    : list VisualContent :=
  if negb (JsString.truthy (unsplashAccessKey env)) then
    generatePlaceholderImages keywords count
  else
    match unsplash_get env (JsString.join " " keywords) (Z.min count 30) with
    | Returned results =>
        map unsplash_to_visual (match results with Some l => l | None => [] end)
    | Threw _ => generatePlaceholderImages keywords count
    end.

(** [video.video_files.find(f => f.quality === 'hd' || f.quality === 'sd')
     || video.video_files[0]] *)
Definition pick_video_file (files : list pexels_file) : option pexels_file :=
  match List.find (fun f => String.eqb (quality f) "hd" || String.eqb (quality f) "sd") files with
  | Some f => Some f
  | None => head files
  end.

(** [video.duration || 10]: a missing or zero duration is falsy. *)
Definition duration_or_10 (d : option Z) : Z :=
  match d with
  | Some n => if n =? 0 then 10 else n
  | None => 10
  end.

(** The callback of [videos.map]; with no file at all, [videoFile.link]
    throws. *)
Definition pexels_to_visual (v : pexels_video) : outcome VisualContent :=
  match pick_video_file (video_files v) with
  | None => Threw (ThrownError "TypeError: Cannot read properties of undefined")
  | Some videoFile =>
      Returned (mkVisual video (link videoFile)
                         (Z.min (duration_or_10 (video_duration v)) 15) 0
                         (link videoFile))
  end.

(** [videos.map(callback)]: the first throw ends the mapping. *)
Fixpoint map_outcome {A B : Type} (f : A -> outcome B) (l : list A) : outcome (list B) :=
  match l with
  | [] => Returned []
  | x :: rest =>
      match f x with
      | Threw e => Threw e
      | Returned y =>
          match map_outcome f rest with
          | Threw e => Threw e
          | Returned ys => Returned (y :: ys)
          end
      end
  end.

Definition searchPexelsVideos (env : environment) (keywords : list string) (count : Z)
    : list VisualContent :=
  if negb (JsString.truthy (pexelsApiKey env)) then []
  else
    match pexels_get env (JsString.join " " keywords) (Z.min count 15) with
    | Returned videos =>
        match map_outcome pexels_to_visual (match videos with Some l => l | None => [] end) with
        | Returned visuals => visuals
        | Threw _ => []
        end
    | Threw _ => []
    end.

(** The nominal duration of a clip, given the native duration the API
    reported: the native duration capped at 15 seconds, and 10 seconds for
    a clip whose duration is missing or zero. *)
Inductive video_nominal : option Z -> Z -> Prop :=
| nominal_native (d : Z) : d <> 0 -> video_nominal (Some d) (Z.min d 15)
| nominal_zero : video_nominal (Some 0) 10
| nominal_missing : video_nominal None 10.

(** *** extractKeywords *)

Definition stopWords : list string :=
  ["the"; "a"; "an"; "and"; "or"; "but"; "in"; "on"; "at"; "to"; "for"; "of"; "with"; "by";
   "how"; "what"; "why"; "when"; "where"; "who"; "which"; "that"; "this"; "these"; "those";
   "is"; "are"; "was"; "were"; "be"; "been"; "being"; "have"; "has"; "had"; "do"; "does"; "did"].

Definition has (set : list string) (w : string) : bool :=
  existsb (String.eqb w) set.

(** [[...new Set(words)]]: the first occurrence of each word, in order. *)
Fixpoint unique (seen : list string) (words : list string) : list string :=
  match words with
  | [] => []
  | w :: rest =>
      if has seen w then unique seen rest else w :: unique (w :: seen) rest
  end.

Definition extractKeywords (topic : string) : list string :=
  let cleaned :=
    JsString.map_chars
      (fun c => if JsString.is_word_char c || JsString.is_white_space c then c else " "%char)
      (JsString.toLowerCase topic) in
  let words :=
    List.filter (fun word => (JsString.len word >? 2) && negb (has stopWords word))
                (JsString.split_class JsString.is_white_space cleaned) in
  firstn 5 (unique [] words).

(** *** findVisualContent *)

Definition averageImageDuration : Z := 5.

Definition neededVisuals (duration : Z) : Z :=
  JsNumber.ceil (JsNumber.div (JsNumber.of_Z duration) (JsNumber.of_Z averageImageDuration)).

(** [Math.ceil(neededVisuals * 0.7)] and [Math.ceil(neededVisuals * 0.3)] *)
Definition share (n : Z) (fraction : spec_float) : Z :=
  JsNumber.ceil (JsNumber.mul (JsNumber.of_Z n) fraction).

(** The body of the [try] block. *)
Definition findVisualContent_body (env : environment) (topic : string) (duration : Z)
    : outcome (list VisualContent) :=
  if negb (JsString.truthy topic) || (JsString.len (JsString.trim topic) =? 0) then
    Threw (ThrownApp (ValidationError "Topic is required"))
  else if (duration <? 30) || (duration >? 1800) then
    Threw (ThrownApp (ValidationError "Duration must be between 30 and 1800 seconds"))
  else
    let needed := neededVisuals duration in
    let keywords := extractKeywords topic in
    let unsplashImages := searchUnsplashImages env keywords (share needed JsNumber.lit_0_7) in
    let visualContent1 := unsplashImages in
    let visualContent2 :=
      if JsString.truthy (pexelsApiKey env) then
        visualContent1 ++ searchPexelsVideos env keywords (share needed JsNumber.lit_0_3)
      else visualContent1 in
    let visualContent3 :=
      if Z.of_nat (length visualContent2) <? needed then
        visualContent2
          ++ searchUnsplashImages env [topic] (needed - Z.of_nat (length visualContent2))
      else visualContent2 in
    Returned (assignTimingToVisuals visualContent3 duration).

(** The [catch] block: a [ValidationError] passes, anything else is wrapped. *)
Definition findVisualContent (env : environment) (topic : string) (duration : Z)
    : outcome (list VisualContent) :=
  match findVisualContent_body env topic duration with
  | Returned timed => Returned timed
  | Threw error =>
      if instanceof_ValidationError error then Threw error
      else Threw (ThrownApp (ExternalServiceError_default "VisualContent"
                    ("Failed to find visual content: " ++ message_of error)))
  end.

End VisualContentService.

(** ** AIContentGenerationService.generateScript *)

Module AIContentGenerationService.

Import Errors.

Definition wordsPerMinute : Z := 150.

(** [Math.floor((duration / 60) * wordsPerMinute)], evaluated in binary64. *)
Definition targetWords (duration : Z) : Z :=
  JsNumber.floor
    (JsNumber.mul (JsNumber.div (JsNumber.of_Z duration) (JsNumber.of_Z 60))
                  (JsNumber.of_Z wordsPerMinute)).

Definition dquote : string := String (ascii_of_nat 34) EmptyString.

Definition buildScriptPrompt (topic : string) (duration : Z) (words : Z) : string :=
  let minutes := JsNumber.floor (JsNumber.div (JsNumber.of_Z duration) (JsNumber.of_Z 60)) in
  let seconds := Z.rem duration 60 in
  "
Create an engaging YouTube video script about " ++ dquote ++ topic ++ dquote
  ++ " that will be approximately " ++ pretty minutes ++ " minutes and "
  ++ pretty seconds ++ " seconds long (around " ++ pretty words ++ " words).

Requirements:
- Structure the script with clear sections (Introduction, Main Content, Conclusion)
- Write in a conversational, engaging tone suitable for YouTube
- Include hooks to keep viewers watching
- Add natural pauses and transitions
- Make it educational and informative
- Include call-to-actions (like, subscribe, comment)
- Ensure content is accurate and well-researched
- Write in a way that's easy to speak aloud

Format the response as follows:
[INTRODUCTION]
(Hook and introduction content)

[MAIN_CONTENT]
(Main educational content broken into logical sections)

[CONCLUSION]
(Summary and call-to-action)

Please write the complete script now:".

Section Script.

(** The parsed script and its parser ([parseScriptContent]) are not looked
    into; the collaborator [create] stands for
    [openai.chat.completions.create] followed by
    [completion.choices[0]?.message?.content], given the user prompt: it
    fails, or returns the content, if there is one. *)
Variable Script : Type.
Variable parseScriptContent : string -> string -> Z -> Script.
Variable create : string -> outcome (option string).

(** The body of the [try] block, with the prompts sent to the collaborator. *)
Definition generateScript_body (topic : string) (duration : Z)
    : outcome Script * list string :=
  if negb (JsString.truthy topic) || (JsString.len (JsString.trim topic) =? 0) then
    (Threw (ThrownApp (ValidationError "Topic is required")), [])
  else if (duration <? 60) || (duration >? 1800) then
    (Threw (ThrownApp (ValidationError "Duration must be between 60 and 1800 seconds")), [])
  else
    let prompt := buildScriptPrompt topic duration (targetWords duration) in
    match create prompt with
    | Threw e => (Threw e, [prompt])
    | Returned scriptContent =>
        match scriptContent with
        | Some content =>
            if JsString.truthy content then
              (Returned (parseScriptContent content topic duration), [prompt])
            else
              (Threw (ThrownApp (ExternalServiceError_default "OpenAI"
                                   "No script content generated")), [prompt])
        | None =>
            (Threw (ThrownApp (ExternalServiceError_default "OpenAI"
                                 "No script content generated")), [prompt])
        end
    end.

(** The [catch] block: a [ValidationError] passes, anything else is wrapped
    in a new [ExternalServiceError]. *)
Definition generateScript (topic : string) (duration : Z)
    : outcome Script * list string :=
  let '(r, prompts) := generateScript_body topic duration in
  match r with
  | Returned script => (Returned script, prompts)
  | Threw error =>
      if instanceof_ValidationError error then (Threw error, prompts)
      else (Threw (ThrownApp (ExternalServiceError_default "OpenAI"
                     ("Script generation failed: " ++ message_of error))), prompts)
  end.

End Script.

End AIContentGenerationService.

(** ** TextToSpeechService.splitTextIntoChunks *)

Module TextToSpeechService.

(** The class of [/[.!?]+/]. *)
Definition is_sentence_end (c : ascii) : bool :=
  Ascii.eqb c "." || Ascii.eqb c "!" || Ascii.eqb c "?".

(** One turn of the inner loop, over the words of a long sentence. *)
Definition word_step (maxChunkSize : Z) (st : list string * string) (word : string)
    : list string * string :=
  let '(chunks, wordChunk) := st in
  let '(chunks1, wordChunk1) :=
    if JsString.len wordChunk + JsString.len word + 1 >? maxChunkSize then
      if JsString.truthy wordChunk then (chunks ++ [JsString.trim wordChunk], EmptyString)
      else (chunks, wordChunk)
    else (chunks, wordChunk) in
  (chunks1, (wordChunk1 ++ (if JsString.truthy wordChunk1 then " " else "") ++ word)%string).

(** One turn of the outer loop, over the sentences. *)
Definition sentence_step (maxChunkSize : Z) (st : list string * string) (sentence : string)
    : list string * string :=
  let '(chunks, currentChunk) := st in
  let trimmedSentence := JsString.trim sentence in
  if negb (JsString.truthy trimmedSentence) then (chunks, currentChunk)
  else
    let sentenceWithPunctuation := (trimmedSentence ++ ".")%string in
    if JsString.len currentChunk + JsString.len sentenceWithPunctuation >? maxChunkSize then
      let '(chunks1, currentChunk1) :=
        if JsString.truthy currentChunk then
          (chunks ++ [JsString.trim currentChunk], EmptyString)
        else (chunks, currentChunk) in
      if JsString.len sentenceWithPunctuation >? maxChunkSize then
        let words := JsString.split_char " " sentenceWithPunctuation in
        let '(chunks2, wordChunk) :=
          fold_left (word_step maxChunkSize) words (chunks1, EmptyString) in
        if JsString.truthy wordChunk then (chunks2, wordChunk) else (chunks2, currentChunk1)
      else (chunks1, sentenceWithPunctuation)
    else
      (chunks,
       (currentChunk ++ (if JsString.truthy currentChunk then " " else "")
          ++ sentenceWithPunctuation)%string).

Definition splitTextIntoChunks (text : string) (maxChunkSize : Z) : list string :=
  if JsString.len text <=? maxChunkSize then [text]
  else
    let sentences := JsString.split_class is_sentence_end text in
    let '(chunks, currentChunk) :=
      fold_left (sentence_step maxChunkSize) sentences ([], EmptyString) in
    if JsString.truthy currentChunk then chunks ++ [JsString.trim currentChunk]
    else chunks.

(** Every word of every sentence, with the full stop put after the
    sentence, is within the limit. *)
Definition words_fit (text : string) (maxChunkSize : Z) : bool :=
  forallb
    (fun sentence =>
       forallb (fun word => JsString.len word <=? maxChunkSize)
               (JsString.split_char " " (JsString.trim sentence ++ ".")))
    (JsString.split_class is_sentence_end text).

(** [splitTextIntoChunks(text)]: the limit defaults to 5000. *)
Definition splitTextIntoChunks_default (text : string) : list string :=
  splitTextIntoChunks text 5000.

End TextToSpeechService.

(** ** TaskQueueService (in-memory mode) *)

Module TaskQueueService.

(** A task object.  [status] is a string: the map holds [any], and nothing
    at run time confines a caller's [status] to the four names of
    [TaskStatus]. *)
Record VideoProductionTask : Type := mkTask {
  id : string;
  userId : string;
  topic : string;
  status : string;
  progress : Z;
  error : option string
}.

Definition set_status (s : string) (t : VideoProductionTask) : VideoProductionTask :=
  mkTask (id t) (userId t) (topic t) s (progress t) (error t).

Definition set_error (e : string) (t : VideoProductionTask) : VideoProductionTask :=
  mkTask (id t) (userId t) (topic t) (status t) (progress t) (Some e).

(** The service between two awaits.  Task objects live in [objects] and are
    shared by reference: [tasks] (the [Map]) holds references, and so does
    every suspended [processTask], which writes through the reference it
    read when it started.  [timers] are the [setTimeout] calls not yet
    fired, [running] the invocations of [processTask] suspended in
    [simulateVideoProcessing]. *)
Record service : Type := mkService {
  objects : gmap nat VideoProductionTask;
  next_ref : nat;
  tasks : gmap string nat;
  timers : list string;
  running : list (string * nat)
}.

Definition initial : service := mkService ∅ 0%nat ∅ [] [].

(** What can happen next: a call of [addTask] (with the identifier
    [uuidv4()] would return), a timer firing (the synchronous start of
    [processTask]), a suspended [processTask] resuming after
    [simulateVideoProcessing] returned or threw, and [cleanup]. *)
Inductive action : Type :=
| AddTask (task : VideoProductionTask) (uuid : string)
| TimerFires (taskId : string)
| ProcessingDone (taskId : string) (ref : nat)
| ProcessingThrew (taskId : string) (ref : nat) (msg : string)
| Cleanup.

(** [addTask]: [tasks.set(taskId, { ...task, id: taskId, status: 'pending' })]
    and [setTimeout(() => this.processTask(taskId), 1000)]. *)
Definition addTask (task : VideoProductionTask) (uuid : string) (s : service)
    : string * service :=
  let taskId := if JsString.truthy (id task) then id task else uuid in
  let object := mkTask taskId (userId task) (topic task) "pending" (progress task) (error task) in
  (taskId,
   mkService (<[next_ref s := object]> (objects s)) (S (next_ref s))
             (<[taskId := next_ref s]> (tasks s))
             (timers s ++ [taskId]) (running s)).

(** [processTask] up to its first await: the task is looked up, marked
    ['processing'] and stored again; without a task it returns at once. *)
Definition processTask_start (taskId : string) (s : service) : service :=
  match tasks s !! taskId with
  | None => s
  | Some ref =>
      mkService (alter (set_status "processing") ref (objects s)) (next_ref s)
                (<[taskId := ref]> (tasks s)) (timers s)
                (running s ++ [(taskId, ref)])
  end.

(** After the await: [task.status = 'completed'; this.tasks.set(taskId, task)],
    on the object read at the start. *)
Definition processTask_complete (taskId : string) (ref : nat) (s : service) : service :=
  mkService (alter (set_status "completed") ref (objects s)) (next_ref s)
            (<[taskId := ref]> (tasks s)) (timers s) (running s).

(** The [catch] block: the task is looked up again and marked ['failed']. *)
Definition processTask_catch (taskId : string) (msg : string) (s : service) : service :=
  match tasks s !! taskId with
  | None => s
  | Some ref =>
      mkService (alter (fun t => set_error msg (set_status "failed" t)) ref (objects s))
                (next_ref s) (<[taskId := ref]> (tasks s)) (timers s) (running s)
  end.

(** [xs] without the first occurrence of [x], if there is one. *)
Fixpoint remove_first {A : Type} (eqb : A -> A -> bool) (x : A) (xs : list A)
    : option (list A) :=
  match xs with
  | [] => None
  | y :: rest =>
      if eqb x y then Some rest
      else match remove_first eqb x rest with
           | Some rest' => Some (y :: rest')
           | None => None
           end
  end.

Definition same_run (a b : string * nat) : bool :=
  String.eqb (fst a) (fst b) && Nat.eqb (snd a) (snd b).

(** One action; an action that is not enabled (a timer that was never set,
    an invocation that is not suspended) leaves the service as it is. *)
Definition step (a : action) (s : service) : service :=
  match a with
  | AddTask task uuid => snd (addTask task uuid s)
  | TimerFires taskId =>
      match remove_first String.eqb taskId (timers s) with
      | None => s
      | Some timers' =>
          processTask_start taskId
            (mkService (objects s) (next_ref s) (tasks s) timers' (running s))
      end
  | ProcessingDone taskId ref =>
      match remove_first same_run (taskId, ref) (running s) with
      | None => s
      | Some running' =>
          processTask_complete taskId ref
            (mkService (objects s) (next_ref s) (tasks s) (timers s) running')
      end
  | ProcessingThrew taskId ref msg =>
      match remove_first same_run (taskId, ref) (running s) with
      | None => s
      | Some running' =>
          processTask_catch taskId msg
            (mkService (objects s) (next_ref s) (tasks s) (timers s) running')
      end
  | Cleanup =>
      mkService (objects s) (next_ref s) ∅ (timers s) (running s)
  end.

(** The service after a schedule of actions, oldest first. *)
Definition run (schedule : list action) (s : service) : service :=
  fold_left (fun s a => step a s) schedule s.

(** [Array.from(this.tasks.values())] *)
Definition values (s : service) : list VideoProductionTask :=
  omap (fun kr => objects s !! snd kr) (map_to_list (tasks s)).

Record stats : Type := mkStats {
  waiting : nat;
  active : nat;
  completed : nat;
  failed : nat
}.

Definition count_status (name : string) (ts : list VideoProductionTask) : nat :=
  length (List.filter (fun t => String.eqb (status t) name) ts).

Definition getQueueStats (s : service) : stats :=
  let ts := values s in
  mkStats (count_status "pending" ts) (count_status "processing" ts)
          (count_status "completed" ts) (count_status "failed" ts).

Definition valid_status (name : string) : Prop :=
  name = "pending" \/ name = "processing" \/ name = "completed" \/ name = "failed".

(** What holds of the service between any two awaits: the map holds
    references to objects that exist, every object has one of the four
    statuses, references from [next_ref] on are unused, and every suspended
    [processTask] holds a reference to an object that exists. *)
Record consistent (s : service) : Prop := mkConsistent {
  stored_refs :
    forall taskId ref, tasks s !! taskId = Some ref -> is_Some (objects s !! ref);
  object_statuses :
    forall ref t, objects s !! ref = Some t -> valid_status (status t);
  fresh_refs :
    forall ref, (next_ref s <= ref)%nat -> objects s !! ref = None;
  running_refs :
    forall taskId ref, In (taskId, ref) (running s) -> is_Some (objects s !! ref)
}.

End TaskQueueService.

(** ** utils/errors.ts: the other error classes and the helpers *)

Module ErrorCatalogue.

Import Errors.

(** [new AuthenticationError(message)]; the message defaults to
    ['Authentication failed']. *)
Definition AuthenticationError (msg : string) : AppError :=
  mkAppError ClsAuthenticationError msg "AUTH_ERROR" user false 401.

Definition AuthenticationError_default : AppError :=
  AuthenticationError "Authentication failed".

(** [new AuthorizationError(message)]; the message defaults to ['Access denied']. *)
Definition AuthorizationError (msg : string) : AppError :=
  mkAppError ClsAuthorizationError msg "AUTHORIZATION_ERROR" user false 403.

Definition AuthorizationError_default : AppError :=
  AuthorizationError "Access denied".

Definition NotFoundError (resource : string) : AppError :=
  mkAppError ClsNotFoundError (resource ++ " not found") "NOT_FOUND" user false 404.

Definition VideoProcessingError (msg : string) (retry : bool) : AppError :=
  mkAppError ClsVideoProcessingError ("Video processing error: " ++ msg)
             "VIDEO_PROCESSING_ERROR" system retry 500.

Definition FileStorageError (msg : string) (retry : bool) : AppError :=
  mkAppError ClsFileStorageError ("File storage error: " ++ msg)
             "FILE_STORAGE_ERROR" system retry 500.

Definition DatabaseError (msg : string) (retry : bool) : AppError :=
  mkAppError ClsDatabaseError ("Database error: " ++ msg) "DATABASE_ERROR" system retry 500.

(** [toSystemError()]: the plain record of an error (its [context] left out). *)
Record SystemError : Type := mkSystemError {
  sys_code : string;
  sys_message : string;
  sys_category : category;
  sys_retryable : bool
}.

Definition toSystemError (e : AppError) : SystemError :=
  mkSystemError (code e) (message e) (category_of e) (retryable e).

Definition createValidationError (field rule : string) : AppError :=
  ValidationError ("Validation failed for field '" ++ field ++ "': " ++ rule).

(** [createExternalServiceError(service, operation, originalError, retryable)] *)
Definition createExternalServiceError (service operation : string)
    (originalError : thrown) (retry : bool) : AppError :=
  ExternalServiceError service (operation ++ " failed: " ++ message_of originalError) retry.

Definition createNotFoundError (resource : string) : AppError :=
  NotFoundError resource.

(** The errors the classes of [errors.ts] can construct (the base class
    [AppError] itself, which takes every field from its caller, apart). *)
Inductive constructed : AppError -> Prop :=
| by_ValidationError (msg : string) : constructed (ValidationError msg)
| by_AuthenticationError (msg : string) : constructed (AuthenticationError msg)
| by_AuthorizationError (msg : string) : constructed (AuthorizationError msg)
| by_NotFoundError (resource : string) : constructed (NotFoundError resource)
| by_ExternalServiceError (service msg : string) (retry : bool) :
    constructed (ExternalServiceError service msg retry)
| by_VideoProcessingError (msg : string) (retry : bool) :
    constructed (VideoProcessingError msg retry)
| by_FileStorageError (msg : string) (retry : bool) :
    constructed (FileStorageError msg retry)
| by_DatabaseError (msg : string) (retry : bool) : constructed (DatabaseError msg retry)
| by_QueueError (msg : string) (retry : bool) : constructed (QueueError msg retry).

(** What a log of [retryOperation] adds up to. *)
Definition total_sleep {T : Type} (log : list (event T)) : Z :=
  fold_right Z.add 0 (sleeps log).

Definition invocation_count {T : Type} (log : list (event T)) : nat :=
  length (List.filter (fun ev => match ev with EvCall _ _ => true | _ => false end) log).

End ErrorCatalogue.

(** ** Vocabulary for keywords and slices *)

Module VisualVocabulary.

Import VisualContentService.

(** Every character of the string passes the test. *)
Fixpoint string_forall (p : ascii -> bool) (s : string) : bool :=
  match s with
  | EmptyString => true
  | String c s' => p c && string_forall p s'
  end.

(** A lower-case letter, a digit or the underscore. *)
Definition is_keyword_char (c : ascii) : bool :=
  let n := JsString.code c in
  (((48 <=? n) && (n <=? 57)) || ((97 <=? n) && (n <=? 122)) || (n =? 95))%nat.

(** The slice [s] shows the asset [v], for a positive time that is at most
    the nominal duration of the asset. *)
Definition slice_of (s v : VisualContent) : Prop :=
  type s = type v /\ source s = source v /\ url s = url v
  /\ 0 < duration s <= duration v.

End VisualVocabulary.

(** ** Computations on a world

    A function that awaits collaborators (the file system, an HTTP client,
    the identifier generator) is a computation on the world [W] those
    collaborators act on: from a world it returns a value or throws, and
    leaves a world. *)

Module Effect.

Import Errors.

Definition M (W A : Type) : Type := W -> outcome A * W.

Definition ret {W A : Type} (a : A) : M W A := fun w => (Returned a, w).

Definition throw {W A : Type} (e : thrown) : M W A := fun w => (Threw e, w).

Definition bind {W A B : Type} (c : M W A) (k : A -> M W B) : M W B :=
  fun w =>
    match c w with
    | (Returned a, w') => k a w'
    | (Threw e, w') => (Threw e, w')
    end.

(** [try { c } catch (error) { handler(error) }] *)
Definition try_catch {W A : Type} (c : M W A) (handler : thrown -> M W A) : M W A :=
  fun w =>
    match c w with
    | (Returned a, w') => (Returned a, w')
    | (Threw e, w') => handler e w'
    end.

(** A result that needs no collaborator. *)
Definition lift {W A : Type} (r : outcome A) : M W A := fun w => (r, w).

Notation "'await' x <- c ;; k" := (bind c (fun x => k))
  (at level 10, x name, c at level 99, k at level 200).


End Effect.

(** ** VisualContentService: the cache *)

Module VisualCache.

Import Errors ErrorCatalogue VisualContentService Effect.

(** The bytes of a download. *)
Definition Buffer : Type := string.

Definition type_name (t : visual_type) : string :=
  match t with
  | image => "image"
  | video => "video"
  end.

(** [{ ...visual, source: cachedPath }] *)
Definition with_source (visual : VisualContent) (cachedPath : string) : VisualContent :=
  mkVisual (type visual) cachedPath (duration visual) (startTime visual) (url visual).

Section Cache.

Context {W : Type}.

(** The service's searches, its cache directory, and the collaborators of
    the cache: [path.join], [uuidv4], [fs.mkdir] (recursive),
    [axios.get] of a source as bytes, and [fs.writeFile]. *)
Variable env : environment.
Variable cacheDir : string.
Variable path_join : string -> string -> string.
Variable uuidv4 : M W string.
Variable fs_mkdir : string -> M W unit.
Variable http_get : string -> M W Buffer.
Variable fs_writeFile : string -> Buffer -> M W unit.

Definition cache_file_name (visual : VisualContent) (visualId : string) : string :=
  let extension := match type visual with video => "mp4" | image => "jpg" end in
  (type_name (type visual) ++ "_" ++ visualId ++ "." ++ extension)%string.

Definition downloadAndCacheVisual (visual : VisualContent) : M W string :=
  try_catch
    (await visualId <- uuidv4 ;;
     let filePath := path_join cacheDir (cache_file_name visual visualId) in
     await _ <- fs_mkdir cacheDir ;;
     await response <- http_get (source visual) ;;
     await _ <- fs_writeFile filePath response ;;
     ret filePath)
    (fun error =>
       throw (ThrownApp (FileStorageError
                ("Failed to cache visual content: " ++ message_of error) true))).

(** The loop of [getVisualContentWithCache]: a visual whose download or
    write fails is kept with its original source. *)
Fixpoint cache_each (visuals cachedVisuals : list VisualContent) : M W (list VisualContent) :=
  match visuals with
  | [] => ret cachedVisuals
  | visual :: rest =>
      await next <- try_catch
                (await cachedPath <- downloadAndCacheVisual visual ;;
                 ret (with_source visual cachedPath))
                (fun _ => ret visual) ;;
      cache_each rest (cachedVisuals ++ [next])
  end.

Definition getVisualContentWithCache (topic : string) (duration : Z)
    : M W (list VisualContent) :=
  try_catch
    (await visuals <- lift (findVisualContent env topic duration) ;;
     cache_each visuals [])
    (fun error => throw error).

(** [searchSpecificContent(query, type, count)] *)
Definition searchSpecificContent (query : string) (kind : visual_type) (count : Z)
    : list VisualContent :=
  let keywords := extractKeywords query in
  match kind with
  | image => searchUnsplashImages env keywords count
  | video => searchPexelsVideos env keywords count
  end.

(** What [downloadAndCacheVisual] did when it returned [filePath]: it drew
    an identifier, made sure of the directory, fetched the bytes behind the
    source of the visual, and wrote those bytes to the file named after the
    kind of the visual and the identifier. *)
Definition downloaded (visual : VisualContent) (w : W) (filePath : string) (w' : W) : Prop :=
  exists (visualId : string) (response : Buffer) (w1 w2 w3 : W),
    uuidv4 w = (Returned visualId, w1)
    /\ filePath = path_join cacheDir (cache_file_name visual visualId)
    /\ fs_mkdir cacheDir w1 = (Returned tt, w2)
    /\ http_get (source visual) w2 = (Returned response, w3)
    /\ fs_writeFile filePath response w3 = (Returned tt, w').

(** What happened when it threw: one of the four steps failed, and the
    steps after it were not taken. *)
Definition download_failed (visual : VisualContent) (w w' : W) : Prop :=
  (exists e, uuidv4 w = (Threw e, w'))
  \/ (exists visualId w1,
         uuidv4 w = (Returned visualId, w1)
         /\ ((exists e, fs_mkdir cacheDir w1 = (Threw e, w'))
             \/ (exists w2,
                    fs_mkdir cacheDir w1 = (Returned tt, w2)
                    /\ ((exists e, http_get (source visual) w2 = (Threw e, w'))
                        \/ (exists response w3,
                               http_get (source visual) w2 = (Returned response, w3)
                               /\ exists e,
                                    fs_writeFile
                                      (path_join cacheDir (cache_file_name visual visualId))
                                      response w3
                                    = (Threw e, w')))))).

(** The run of the loop from the world [w] to the world [w']: the visuals
    are taken in order, each download starting in the world the one before
    it left; a visual whose download succeeded is cached under the path of
    the file written, one whose download failed is kept as it was. *)
Fixpoint cached_run (visuals cached : list VisualContent) (w w' : W) : Prop :=
  match visuals, cached with
  | [], [] => w = w'
  | visual :: visuals', c :: cached' =>
      exists w1,
        ((exists filePath,
             downloaded visual w filePath w1 /\ c = with_source visual filePath)
         \/ (download_failed visual w w1 /\ c = visual))
        /\ cached_run visuals' cached' w1 w'
  | _, _ => False
  end.

(** The cached visual [c] is the visual [v] with, at most, another source. *)
Definition cached_from (c v : VisualContent) : Prop :=
  type c = type v /\ duration c = duration v /\ startTime c = startTime v
  /\ url c = url v
  /\ (source c = source v
      \/ exists visualId, source c = path_join cacheDir (cache_file_name v visualId)).

End Cache.

End VisualCache.

(** ** VideoProductionServiceImpl *)

Module VideoProduction.

Import Errors ErrorCatalogue VisualContentService Effect VisualCache.

Record AudioFile : Type := mkAudioFile {
  audio_id : string;
  audio_filename : string;
  audio_path : string;
  audio_duration : Z;
  audio_format : string;
  audio_size : Z
}.

Record ThumbnailStyle : Type := mkStyle {
  template : string;
  fontSize : Z;
  fontColor : string;
  backgroundColor : string;
  overlayOpacity : spec_float
}.

Definition defaultStyle : ThumbnailStyle :=
  mkStyle "professional" 64 "#FFFFFF" "#2C3E50" JsNumber.lit_0_3.

Section Production.

Context {W VideoFile ImageFile : Type}.

(** The collaborators: the visual content service with its cache, the
    video editing service and the thumbnail generation service. *)
Variable getVisualContentWithCache : string -> Z -> M W (list VisualContent).
Variable editing_createVideo : AudioFile -> list VisualContent -> M W VideoFile.
Variable editing_optimizeForYouTube : VideoFile -> M W VideoFile.
Variable thumbnails_generateThumbnail : string -> ThumbnailStyle -> M W ImageFile.

Definition findVisualContent (topic : string) (duration : Z) : M W (list VisualContent) :=
  try_catch
    (if negb (JsString.truthy topic) || (JsString.len (JsString.trim topic) =? 0) then
       throw (ThrownApp (ValidationError "Topic is required"))
     else if (duration <? 30) || (duration >? 1800) then
       throw (ThrownApp (ValidationError "Duration must be between 30 and 1800 seconds"))
     else
       await visuals <- getVisualContentWithCache topic duration ;;
       if (length visuals =? 0)%nat then
         throw (ThrownApp (VideoProcessingError "No visual content found for topic" true))
       else ret visuals)
    (fun error => throw error).

(** [audio] and [visuals] may be missing altogether, hence the options. *)
Definition createVideo (audio : option AudioFile) (visuals : option (list VisualContent))
    : M W VideoFile :=
  try_catch
    (match audio with
     | None => throw (ThrownApp (ValidationError "Audio file is required"))
     | Some a =>
         if negb (JsString.truthy (audio_path a)) then
           throw (ThrownApp (ValidationError "Audio file is required"))
         else
           match visuals with
           | None => throw (ThrownApp (ValidationError "Visual content is required"))
           | Some vs =>
               if (length vs =? 0)%nat then
                 throw (ThrownApp (ValidationError "Visual content is required"))
               else
                 await videoFile <- editing_createVideo a vs ;;
                 editing_optimizeForYouTube videoFile
           end
     end)
    (fun error => throw error).

Definition generateThumbnail (topic : string) (style : option ThumbnailStyle)
    : M W ImageFile :=
  try_catch
    (if negb (JsString.truthy topic) || (JsString.len (JsString.trim topic) =? 0) then
       throw (ThrownApp (ValidationError "Topic is required"))
     else
       match style with
       | None => throw (ThrownApp (ValidationError "Thumbnail style is required"))
       | Some st =>
           if negb (JsString.truthy (template st)) then
             throw (ThrownApp (ValidationError "Thumbnail style is required"))
           else thumbnails_generateThumbnail topic st
       end)
    (fun error => throw error).

(** [createCompleteVideoPackage(audio, topic, duration, thumbnailStyle)] *)
Definition createCompleteVideoPackage (audio : AudioFile) (topic : string) (duration : Z)
    (thumbnailStyle : option ThumbnailStyle)
    : M W (VideoFile * ImageFile * list VisualContent) :=
  try_catch
    (await visuals <- findVisualContent topic duration ;;
     await video <- createVideo (Some audio) (Some visuals) ;;
     await thumbnail <- generateThumbnail topic
                    (Some (match thumbnailStyle with
                           | Some st => st
                           | None => defaultStyle
                           end)) ;;
     ret (video, thumbnail, visuals))
    (fun error => throw error).

End Production.

End VideoProduction.

(** ** TextToSpeechService: synthesis *)

Module JsMath.

(** [Math.round] of a finite binary64 number, as an integer: the nearest
    integer, a tie going up.  (The sources round byte counts and seconds
    only; the infinities and NaN are sent to 0 here.) *)
Definition round (x : spec_float) : Z :=
  match x with
  | S754_finite s m e =>
      let n := cond_Zopp s (Zpos m) in
      if 0 <=? e then n * 2 ^ e
      else (2 * n + 2 ^ (- e)) / 2 ^ (- e + 1)
  | _ => 0
  end.

End JsMath.

Module SpeechSynthesis.

Import Errors ErrorCatalogue Effect TextToSpeechService VideoProduction.

(** The bytes of an audio file. *)
Definition Buffer : Type := string.

(** Of a [VoiceConfig] the service reads the provider and the voice; the
    provider is whatever string the caller sent. *)
Record VoiceConfig : Type := mkVoice {
  provider : string;
  voiceId : string
}.

(** What [axios.post] can do: respond, fail as an axios error (with the
    status of the response, if there was one, the message under
    [response.data.detail.message], if any, and its own message), or fail
    otherwise. *)
Inductive axios_result : Type :=
| AxiosResponse (status : Z) (data : Buffer)
| AxiosError (status : option Z) (detail_message : option string) (msg : string)
| AxiosOther (e : thrown).

(** [voiceConfig?.provider || 'TTS']: the name under which a failure is
    reported. *)
Definition reported_service (voiceConfig : VoiceConfig) : string :=
  if JsString.truthy (provider voiceConfig) then provider voiceConfig else "TTS".

Definition baseUrl : string := "https://api.elevenlabs.io/v1".

(** [a || b] on strings that may be missing. *)
Definition or_else (a : option string) (b : string) : string :=
  match a with
  | Some s => if JsString.truthy s then s else b
  | None => b
  end.

(** [estimateAudioDuration]: [Math.round((length * 8) / 128000)]. *)
Definition estimateAudioDuration (audioBuffer : Buffer) : Z :=
  JsMath.round (JsNumber.div (JsNumber.of_Z (JsString.len audioBuffer * 8))
                             (JsNumber.of_Z 128000)).

Section Synthesis.

Context {W : Type}.

(** The collaborators: [axios.post] to ElevenLabs (with the address and
    the text), [config.storage.basePath], [path.join], [uuidv4], and
    [fs.mkdir], [fs.writeFile], [fs.unlink]. *)
Variable elevenlabs_post : string -> string -> W -> axios_result * W.
Variable basePath : string.
Variable path_join : string -> string -> string.
Variable uuidv4 : W -> string * W.
Variable fs_mkdir : string -> M W unit.
Variable fs_writeFile : string -> Buffer -> M W unit.
Variable fs_unlink : string -> M W unit.

Definition fresh_id : M W string :=
  fun w => let '(i, w') := uuidv4 w in (Returned i, w').

Definition generateWithElevenLabs (text : string) (voiceConfig : VoiceConfig) : M W Buffer :=
  fun w =>
    let url := (baseUrl ++ "/text-to-speech/" ++ voiceId voiceConfig)%string in
    match elevenlabs_post url text w with
    | (AxiosResponse status data, w') =>
        if status =? 200 then (Returned data, w')
        else (Threw (ThrownError ("ElevenLabs API returned status " ++ pretty status)), w')
    | (AxiosError status detail_message msg, w') =>
        let message := or_else detail_message msg in
        match status with
        | Some 401 =>
            (Threw (ThrownApp (ExternalServiceError_default "ElevenLabs" "Invalid API key")), w')
        | Some 429 =>
            (Threw (ThrownApp (ExternalServiceError "ElevenLabs" "Rate limit exceeded" true)), w')
        | Some 422 =>
            (Threw (ThrownApp (ValidationError ("ElevenLabs validation error: " ++ message))), w')
        | _ =>
            (Threw (ThrownApp (ExternalServiceError "ElevenLabs" ("API error: " ++ message) true)),
             w')
        end
    | (AxiosOther e, w') => (Threw e, w')
    end.

Definition generateWithAzure : M W Buffer :=
  throw (ThrownApp (ExternalServiceError_default "Azure" "Azure TTS not implemented yet")).

Definition generateWithGoogle : M W Buffer :=
  throw (ThrownApp (ExternalServiceError_default "Google" "Google TTS not implemented yet")).

Definition saveAudioFile (audioBuffer : Buffer) (format : string) : M W AudioFile :=
  try_catch
    (await audioId <- fresh_id ;;
     let filename := ("audio_" ++ audioId ++ "." ++ format)%string in
     let audioDir := path_join basePath "audio" in
     let filePath := path_join audioDir filename in
     await _ <- fs_mkdir audioDir ;;
     await _ <- fs_writeFile filePath audioBuffer ;;
     let duration := estimateAudioDuration audioBuffer in
     ret (mkAudioFile audioId filename filePath duration format (JsString.len audioBuffer)))
    (fun error =>
       throw (ThrownApp (FileStorageError
                ("Failed to save audio file: " ++ message_of error) true))).

Definition generateSpeech (text : string) (voiceConfig : VoiceConfig) : M W AudioFile :=
  try_catch
    (if negb (JsString.truthy text) || (JsString.len (JsString.trim text) =? 0) then
       throw (ThrownApp (ValidationError "Text is required for speech generation"))
     else if JsString.len text >? 50000 then
       throw (ThrownApp (ValidationError "Text is too long (max 50,000 characters)"))
     else
       await audioBuffer <-
         (if String.eqb (provider voiceConfig) "elevenlabs" then
            generateWithElevenLabs text voiceConfig
          else if String.eqb (provider voiceConfig) "azure" then generateWithAzure
          else if String.eqb (provider voiceConfig) "google" then generateWithGoogle
          else throw (ThrownApp (ValidationError
                        ("Unsupported TTS provider: " ++ provider voiceConfig)))) ;;
       saveAudioFile audioBuffer "mp3")
    (fun error =>
       if instanceof_ValidationError error then throw error
       else
         throw (ThrownApp
                  (ExternalServiceError_default
                     (if JsString.truthy (provider voiceConfig)
                      then provider voiceConfig else "TTS")
                     ("Speech generation failed: " ++ message_of error)))).

(** The loop over the chunks: the first failure ends it. *)
Fixpoint synthesize_each (chunks : list string) (voiceConfig : VoiceConfig)
    (audioFiles : list AudioFile) : M W (list AudioFile) :=
  match chunks with
  | [] => ret audioFiles
  | chunk :: rest =>
      await chunkAudio <- generateSpeech chunk voiceConfig ;;
      synthesize_each rest voiceConfig (audioFiles ++ [chunkAudio])
  end.

Definition combineAudioFiles (audioFiles : list AudioFile) : M W AudioFile :=
  match audioFiles with
  | [] => throw (ThrownApp (ValidationError "No audio files to combine"))
  | [only] => ret only
  | first :: _ =>
      let combinedDuration := fold_left (fun total file => total + audio_duration file) audioFiles 0 in
      let combinedSize := fold_left (fun total file => total + audio_size file) audioFiles 0 in
      await newId <- fresh_id ;;
      await nameId <- fresh_id ;;
      ret (mkAudioFile newId ("combined_" ++ nameId ++ ".mp3") (audio_path first)
                       combinedDuration (audio_format first) combinedSize)
  end.

(** The chunk files are deleted one by one (in the source, all at once: the
    deletions are started in this order); a deletion that fails is only
    logged. *)
Fixpoint unlink_each (audioFiles : list AudioFile) : M W unit :=
  match audioFiles with
  | [] => ret tt
  | file :: rest =>
      await _ <- try_catch (fs_unlink (audio_path file)) (fun _ => ret tt) ;;
      unlink_each rest
  end.

Definition generateSpeechForLongText (text : string) (voiceConfig : VoiceConfig)
    : M W AudioFile :=
  try_catch
    (let chunks := splitTextIntoChunks text 4000 in
     if (length chunks =? 1)%nat then generateSpeech text voiceConfig
     else
       await audioFiles <- synthesize_each chunks voiceConfig [] ;;
       await combinedAudio <- combineAudioFiles audioFiles ;;
       await _ <- unlink_each audioFiles ;;
       ret combinedAudio)
    (fun error => throw error).

End Synthesis.

End SpeechSynthesis.

(** ** Sample texts *)

Module Samples.

(** [s.repeat(n)] *)
Fixpoint string_repeat (n : nat) (s : string) : string :=
  match n with
  | O => EmptyString
  | S n' => (s ++ string_repeat n' s)%string
  end.

End Samples.

(** ** TaskQueueService: reading the queue *)

Module TaskQueueApi.

Import Errors TaskQueueService.

(** [this.tasks.get(taskId)]: the task object stored under the identifier. *)
Definition get (taskId : string) (s : service) : option VideoProductionTask :=
  match tasks s !! taskId with
  | Some ref => objects s !! ref
  | None => None
  end.

(** [getTaskStatus]: the [QueueError] thrown for a missing task is caught
    and wrapped in a second one. *)
Definition getTaskStatus (taskId : string) (s : service) : outcome string :=
  match get taskId s with
  | Some task => Returned (status task)
  | None =>
      Threw (ThrownApp
        (QueueError ("Failed to get task status: "
                       ++ message (QueueError "Task not found" true)) true))
  end.

End TaskQueueApi.

(** ** VideoProductionServiceImpl.validateProductionRequirements *)

Module ProductionRequirements.

Import VideoProduction.

Record validation : Type := mkValidation {
  isValid : bool;
  errors : list string
}.

(** [errors.push(message)] when the test holds. *)
Definition push_if (test : bool) (message : string) (errors : list string) : list string :=
  if test then errors ++ [message] else errors.

(** [audio] may be missing; [audio.duration] is skipped when it is [0]. *)
Definition validateProductionRequirements
    (audio : option AudioFile) (topic : string) (duration : Z) : validation :=
  let errors := [] in
  let errors :=
    push_if (match audio with
             | Some a => negb (JsString.truthy (audio_path a))
             | None => true
             end)
            "Audio file is required" errors in
  let errors :=
    push_if (negb (JsString.truthy topic) || (JsString.len (JsString.trim topic) =? 0))
            "Topic is required" errors in
  let errors := push_if (duration <? 30) "Duration must be at least 30 seconds" errors in
  let errors := push_if (duration >? 1800) "Duration cannot exceed 30 minutes" errors in
  let errors :=
    push_if (match audio with
             | Some a =>
                 negb (audio_duration a =? 0)
                 && (Z.abs (audio_duration a - duration) >? 30)
             | None => false
             end)
            "Audio duration does not match target duration" errors in
  mkValidation (length errors =? 0)%nat errors.

End ProductionRequirements.

(** ** AIContentGenerationService.parseScriptContent *)

Module ScriptParser.

Record ScriptSection : Type := mkSection {
  id : string;
  title : string;
  content : string;
  startTime : Z;
  duration : Z
}.

Record Script : Type := mkScript {
  script_id : string;
  script_topic : string;
  script_content : string;
  estimatedDuration : Z;
  sections : list ScriptSection
}.

(** What [.] does not match: the line terminators (below 256, the line
    feed and the carriage return). *)
Definition is_line_terminator (c : ascii) : bool :=
  ((JsString.code c =? 10) || (JsString.code c =? 13))%nat.

(** [(.*?)\]] read from [s]: the characters up to the first [']'], if no
    line terminator comes before it, and what follows the [']']. *)
Fixpoint lazy_title (s : string) (title : string) : option (string * string) :=
  match s with
  | EmptyString => None
  | String c s' =>
      if Ascii.eqb c "]" then Some (title, s')
      else if is_line_terminator c then None
      else lazy_title s' (title ++ String c EmptyString)
  end.

(** [([\s\S]*?)(?=\[|$)] read from [s]: the characters up to the next
    ['['] or the end, and what is left (from that ['['] on). *)
Fixpoint lazy_body (s : string) (body : string) : string * string :=
  match s with
  | EmptyString => (body, EmptyString)
  | String c s' =>
      if Ascii.eqb c "[" then (body, s)
      else lazy_body s' (body ++ String c EmptyString)
  end.

(** [/\[(.*?)\]([\s\S]*?)(?=\[|$)/] matched at the start of [s]: the two
    groups and what is left after the match. *)
Definition match_here (s : string) : option (string * string * string) :=
  match s with
  | EmptyString => None
  | String c s' =>
      if Ascii.eqb c "[" then
        match lazy_title s' EmptyString with
        | Some (group1, after) =>
            let '(group2, rest) := lazy_body after EmptyString in
            Some (group1, group2, rest)
        | None => None
        end
      else None
  end.

(** [sectionRegex.exec(content)], where [s] is the content from
    [lastIndex] on: the match at the first position that has one. *)
Fixpoint exec (s : string) : option (string * string * string) :=
  match match_here s with
  | Some m => Some m
  | None =>
      match s with
      | EmptyString => None
      | String _ s' => exec s'
      end
  end.

(** [text.split(/\s+/).length] *)
Definition word_count (text : string) : Z :=
  Z.of_nat (length (JsString.split_class JsString.is_white_space text)).

(** [Math.floor((words / 150) * 60)], evaluated in binary64. *)
Definition spoken_seconds (words : Z) : Z :=
  JsNumber.floor
    (JsNumber.mul (JsNumber.div (JsNumber.of_Z words) (JsNumber.of_Z 150))
                  (JsNumber.of_Z 60)).

Section Parser.

Context {W : Type}.

(** [uuidv4()], drawing on the world. *)
Variable uuidv4 : W -> string * W.

(** The [while] loop over the matches; it runs out of fuel only when given
    less than one turn for each character left, and one more. *)
Fixpoint section_loop (fuel : nat) (rest : string) (sections : list ScriptSection)
    (currentTime : Z) (w : W) : option (list ScriptSection * Z * W) :=
  match fuel with
  | O => None
  | S fuel' =>
      match exec rest with
      | None => Some (sections, currentTime, w)
      | Some (group1, group2, rest') =>
          let sectionTitle := JsString.trim group1 in
          let sectionContent := JsString.trim group2 in
          if JsString.truthy sectionContent then
            let words := word_count sectionContent in
            let sectionDuration := spoken_seconds words in
            let '(sectionId, w') := uuidv4 w in
            section_loop fuel' rest'
              (sections ++ [mkSection sectionId sectionTitle sectionContent
                                      currentTime sectionDuration])
              (currentTime + sectionDuration) w'
          else section_loop fuel' rest' sections currentTime w
      end
  end.

Definition parseScriptContent_fuel (fuel : nat) (content topic : string) (targetDuration : Z)
    (w : W) : option (Script * W) :=
  let '(scriptId, w0) := uuidv4 w in
  match section_loop fuel content [] 0 w0 with
  | None => None
  | Some (sections, currentTime, w1) =>
      if (length sections =? 0)%nat then
        let words := word_count content in
        let duration := spoken_seconds words in
        let '(sectionId, w2) := uuidv4 w1 in
        Some (mkScript scriptId topic (JsString.trim content) duration
                [mkSection sectionId "Main Content" (JsString.trim content) 0 duration],
              w2)
      else
        Some (mkScript scriptId topic (JsString.trim content) currentTime sections, w1)
  end.

Definition parseScriptContent (content topic : string) (targetDuration : Z) (w : W)
    : option (Script * W) :=
  parseScriptContent_fuel (S (String.length content)) content topic targetDuration w.

End Parser.

(** Sections that follow one another from [t]. *)
Fixpoint contiguous_from (t : Z) (l : list ScriptSection) : Prop :=
  match l with
  | [] => True
  | s :: rest => startTime s = t /\ contiguous_from (t + duration s) rest
  end.

Definition total_duration (l : list ScriptSection) : Z :=
  fold_right (fun s acc => duration s + acc) 0 l.

(** A counter as the source of identifiers. *)
Definition counter : nat -> string * nat := fun n => (pretty n, S n).

End ScriptParser.

(** ** AIContentGenerationService.generateScriptVariations *)

Module ScriptVariations.

Import Errors AIContentGenerationService.

(** [`${topic} (variation ${index + 1})`] *)
Definition variation_topic (topic : string) (index : Z) : string :=
  topic ++ " (variation " ++ pretty (index + 1) ++ ")".

(** [Promise.all]: the promises settle in the order [settled] (a list of
    indices); the first that is rejected rejects the whole, and when all are
    fulfilled the values come in the order of the array.  [None] stands for
    a promise that stays pending, when [settled] leaves out a promise that
    the result waits for. *)
Fixpoint first_rejection {A : Type} (results : list (outcome A)) (settled : list nat)
    : option thrown :=
  match settled with
  | [] => None
  | index :: later =>
      match results !! index with
      | Some (Threw e) => Some e
      | _ => first_rejection results later
      end
  end.

Fixpoint fulfilled {A : Type} (results : list (outcome A)) : option (list A) :=
  match results with
  | [] => Some []
  | Returned a :: rest =>
      match fulfilled rest with
      | Some values => Some (a :: values)
      | None => None
      end
  | Threw _ :: _ => None
  end.

Definition promise_all {A : Type} (results : list (outcome A)) (settled : list nat)
    : option (outcome (list A)) :=
  match first_rejection results settled with
  | Some e => Some (Threw e)
  | None =>
      match fulfilled results with
      | Some values => Some (Returned values)
      | None => None
      end
  end.

Section Variations.

Variable Script : Type.
Variable parseScriptContent : string -> string -> Z -> Script.
Variable create : string -> outcome (option string).

(** [Array.from({ length: count }, (_, index) => this.generateScript(...))]:
    the calls are started in the order of the indices, each with the
    prompts it sends. *)
Definition started (topic : string) (duration : Z) (count : Z)
    : list (outcome Script * list string) :=
  map (fun index =>
         generateScript Script parseScriptContent create
           (variation_topic topic (Z.of_nat index)) duration)
      (seq 0 (Z.to_nat count)).

(** [count] is a whole number here.  The [catch] block rethrows. *)
Definition generateScriptVariations (topic : string) (duration : Z) (count : Z)
    (settled : list nat) : option (outcome (list Script)) * list string :=
  if (count <? 1) || (count >? 5) then
    (Some (Threw (ThrownApp (ValidationError "Count must be between 1 and 5"))), [])
  else
    let promises := started topic duration count in
    (promise_all (map fst promises) settled, concat (map snd promises)).

End Variations.

End ScriptVariations.

(** ** VideoProductionServiceImpl.estimateProductionTime *)

Module ProductionEstimate.

Definition add (x y : spec_float) : spec_float := SFadd 53 1024 x y.

(** The literal [2.5]. *)
Definition lit_2_5 : spec_float := JsNumber.div (JsNumber.of_Z 5) (JsNumber.of_Z 2).

(** [visualCount] may be missing, and [0] counts as missing ([||]). *)
Definition estimateProductionTime (duration : Z) (visualCount : option Z) : Z :=
  let baseTime := JsNumber.of_Z 60 in
  let timePerSecond := lit_2_5 in
  let timePerVisual := JsNumber.of_Z 10 in
  let counted :=
    JsNumber.ceil (JsNumber.div (JsNumber.of_Z duration) (JsNumber.of_Z 5)) in
  let estimatedVisuals :=
    match visualCount with
    | Some n => if n =? 0 then counted else n
    | None => counted
    end in
  let totalTime :=
    add (add baseTime (JsNumber.mul (JsNumber.of_Z duration) timePerSecond))
        (JsNumber.mul (JsNumber.of_Z estimatedVisuals) timePerVisual) in
  JsMath.round totalTime.

End ProductionEstimate.

(** ** VisualContentService: the searches with their handlers

    The visual stage once more, this time with whatever its [catch] blocks
    and [encodeURIComponent] can throw.  The module
    [VisualContentService] above is this one for an encoder that always
    returns and collaborators that reject with an error object; the two are
    shown to agree there. *)

Module VisualStage.

Import Errors VisualContentService.

(** [(error as Error).message] in a handler: reading a property of
    [undefined] throws a [TypeError]. *)
Definition error_message (error : thrown) : outcome string :=
  match error with
  | ThrownUndefined =>
      Threw (ThrownError
               "TypeError: Cannot read properties of undefined (reading 'message')")
  | _ => Returned (message_of error)
  end.

Definition and_then {A B : Type} (r : outcome A) (k : A -> outcome B) : outcome B :=
  match r with
  | Returned a => k a
  | Threw e => Threw e
  end.

Section Stage.

Variable env : environment.

(** [encodeURIComponent]; [None] stands for the [URIError] it throws for a
    string with a lone surrogate. *)
Variable encodeURIComponent : string -> option string.

(** The body of the [for] loop of [generatePlaceholderImages]. *)
Definition placeholder (keywords : list string) (i : nat) : outcome VisualContent :=
  match encodeURIComponent (placeholder_keyword keywords i) with
  | Some encoded =>
      let address :=
        ("https://via.placeholder.com/1920x1080/4A90E2/FFFFFF?text=" ++ encoded)%string in
      Returned (mkVisual image address 5 0 address)
  | None => Threw (ThrownError "URIError: URI malformed")
  end.

Definition generatePlaceholderImages (keywords : list string) (count : Z)
    : outcome (list VisualContent) :=
  map_outcome (placeholder keywords) (seq 0 (Z.to_nat count)).

(** The [try] block, and the [catch] block: it reads the message of the
    error for the log and returns placeholders. *)
Definition searchUnsplashImages (keywords : list string) (count : Z)
    : outcome (list VisualContent) :=
  let attempt :=
    if negb (JsString.truthy (unsplashAccessKey env)) then
      generatePlaceholderImages keywords count
    else
      match unsplash_get env (JsString.join " " keywords) (Z.min count 30) with
      | Returned results =>
          Returned (map unsplash_to_visual (match results with Some l => l | None => [] end))
      | Threw error => Threw error
      end in
  match attempt with
  | Returned images => Returned images
  | Threw error =>
      and_then (error_message error) (fun _ => generatePlaceholderImages keywords count)
  end.

Definition searchPexelsVideos (keywords : list string) (count : Z)
    : outcome (list VisualContent) :=
  let attempt :=
    if negb (JsString.truthy (pexelsApiKey env)) then Returned []
    else
      match pexels_get env (JsString.join " " keywords) (Z.min count 15) with
      | Returned videos =>
          map_outcome pexels_to_visual (match videos with Some l => l | None => [] end)
      | Threw error => Threw error
      end in
  match attempt with
  | Returned videos => Returned videos
  | Threw error => and_then (error_message error) (fun _ => Returned [])
  end.

(** The body of the [try] block of [findVisualContent]. *)
Definition findVisualContent_body (topic : string) (duration : Z)
    : outcome (list VisualContent) :=
  if negb (JsString.truthy topic) || (JsString.len (JsString.trim topic) =? 0) then
    Threw (ThrownApp (ValidationError "Topic is required"))
  else if (duration <? 30) || (duration >? 1800) then
    Threw (ThrownApp (ValidationError "Duration must be between 30 and 1800 seconds"))
  else
    let needed := neededVisuals duration in
    let keywords := extractKeywords topic in
    and_then (searchUnsplashImages keywords (share needed JsNumber.lit_0_7))
      (fun unsplashImages =>
    and_then (if JsString.truthy (pexelsApiKey env) then
                and_then (searchPexelsVideos keywords (share needed JsNumber.lit_0_3))
                  (fun pexelsVideos => Returned (unsplashImages ++ pexelsVideos))
              else Returned unsplashImages)
      (fun visualContent =>
    and_then (if Z.of_nat (length visualContent) <? needed then
                and_then (searchUnsplashImages [topic]
                            (needed - Z.of_nat (length visualContent)))
                  (fun additionalImages => Returned (visualContent ++ additionalImages))
              else Returned visualContent)
      (fun visualContent =>
    Returned (assignTimingToVisuals visualContent duration)))).

(** The [catch] block: a [ValidationError] passes, anything else is wrapped
    with its message. *)
Definition findVisualContent (topic : string) (duration : Z)
    : outcome (list VisualContent) :=
  match findVisualContent_body topic duration with
  | Returned timed => Returned timed
  | Threw error =>
      if instanceof_ValidationError error then Threw error
      else
        and_then (error_message error)
          (fun message =>
             Threw (ThrownApp (ExternalServiceError_default "VisualContent"
                      ("Failed to find visual content: " ++ message))))
  end.

End Stage.



End VisualStage.

(** * Properties *)

(** ** The topic check shared by the stages

    [!topic || topic.trim().length === 0] rejects exactly the topics that
    are empty once trimmed. *)

Section TopicCheck.

Lemma topic_check_rejects (topic : string) :
  JsString.trim topic = EmptyString ->
  negb (JsString.truthy topic) || (JsString.len (JsString.trim topic) =? 0) = true.
Proof. intros H. rewrite H. apply orb_true_r. Qed.

Lemma topic_check_passes (topic : string) :
  JsString.trim topic <> EmptyString ->
  negb (JsString.truthy topic) || (JsString.len (JsString.trim topic) =? 0) = false.
Proof.
  intros H. destruct topic as [|c topic]; [exfalso; apply H; reflexivity|].
  simpl negb. simpl orb.
  destruct (JsString.trim (String c topic)) as [|c' t'] eqn:Ht; [congruence|].
  unfold JsString.len.
  change (String.length (String c' t')) with (S (String.length t')).
  apply Z.eqb_neq. rewrite Nat2Z.inj_succ. lia.
Qed.

End TopicCheck.

(** ** The retry helper *)

Section RetryFacts.

Import Errors.

Context {T W : Type}.
Variable operation : W -> outcome T * W.
Variables maxRetries delay : Z.

Lemma backoff_schedule_cons (k : Z) (r r' : outcome T) (rest : list (outcome T)) :
  backoff_schedule maxRetries delay k (r :: r' :: rest)
  = EvCall k r :: EvWarn k maxRetries :: EvSleep (delay * 2 ^ (k - 1))
      :: backoff_schedule maxRetries delay (k + 1) (r' :: rest).
Proof. reflexivity. Qed.

Lemma last_default_irrelevant {A : Type} (l : list A) (d d' : A) :
  l <> [] -> List.last l d = List.last l d'.
Proof.
  induction l as [|x l IH]; intros Hne; [congruence|].
  destruct l as [|y l]; [reflexivity|].
  change (List.last (y :: l) d = List.last (y :: l) d').
  apply IH. discriminate.
Qed.

(** The loop entered at [attempt] with [n] attempts left. *)
Lemma retry_loop_spec (n : nat) :
  forall (attempt : Z) (lastError : option thrown) (w : W) (log : list (event T)),
    Z.of_nat n = Z.max 0 (maxRetries - attempt + 1) ->
    exists (result : outcome T) (w' : W) (results : list (outcome T)),
      retry_loop operation n maxRetries delay attempt lastError w log
        = Some (result, w', log ++ backoff_schedule maxRetries delay attempt results)
      /\ invocations operation (length results) w = (results, w')
      /\ (length results <= n)%nat
      /\ (n <> O -> results <> [])
      /\ Forall retryable_failure (removelast results)
      /\ result = List.last results (throw_last lastError)
      /\ ((exists v, result = Returned v)
          \/ (exists e, result = Threw e /\ non_retryable e = true)
          \/ length results = n).
Proof.
  induction n as [|n IH]; intros attempt lastError w log Hn.
  - exists (throw_last lastError), w, [].
    simpl. replace (attempt <=? maxRetries) with false by lia.
    rewrite app_nil_r. repeat split; auto.
  - simpl. replace (attempt <=? maxRetries) with true by lia.
    destruct (operation w) as [r w1] eqn:Hop.
    destruct r as [v|e].
    + exists (Returned v), w1, [Returned v]. simpl. rewrite Hop.
      repeat split; eauto; try lia; try discriminate.
    + destruct (non_retryable e) eqn:Hnr.
      * exists (Threw e), w1, [Threw e]. simpl. rewrite Hop.
        repeat split; eauto; try lia; try discriminate.
      * destruct (attempt =? maxRetries) eqn:Hlast.
        -- exists (Threw e), w1, [Threw e]. simpl. rewrite Hop.
           repeat split; auto; try lia; try discriminate.
        -- destruct (IH (attempt + 1) (Some e) w1
                       ((log ++ [EvCall attempt (Threw e)])
                          ++ [EvWarn attempt maxRetries;
                              EvSleep (delay * 2 ^ (attempt - 1))]))
             as (result & w' & results & Hrun & Hinv & Hlen & Hne & Hall & Hres & Hend);
             [lia|].
           assert (Hn0 : n <> O) by lia.
           specialize (Hne Hn0).
           destruct results as [|r' rest]; [congruence|].
           exists result, w', (Threw e :: r' :: rest).
           split.
           { rewrite Hrun. f_equal. f_equal.
             rewrite backoff_schedule_cons. rewrite <- !app_assoc. reflexivity. }
           split.
           { simpl in Hinv |- *. rewrite Hop, Hinv. reflexivity. }
           split; [simpl in *; lia|].
           split; [discriminate|].
           split.
           { change (removelast (Threw e :: r' :: rest))
               with (Threw e :: removelast (r' :: rest)).
             constructor; [exists e; auto | exact Hall]. }
           split.
           { rewrite Hres.
             change (List.last (Threw e :: r' :: rest) (throw_last lastError))
               with (List.last (r' :: rest) (throw_last lastError)).
             apply last_default_irrelevant. discriminate. }
           destruct Hend as [H|[H|H]]; [left; exact H | right; left; exact H |].
           right. right. simpl in *. lia.
Qed.

Lemma sleeps_backoff_schedule (results : list (outcome T)) :
  forall k : Z,
    sleeps (backoff_schedule maxRetries delay k results)
    = map (fun i => delay * 2 ^ (k + Z.of_nat i - 1)) (seq 0 (length results - 1)).
Proof.
  induction results as [|r rest IH]; intros k; [reflexivity|].
  destruct rest as [|r' rest]; [reflexivity|].
  rewrite backoff_schedule_cons.
  change (sleeps (EvCall k r :: EvWarn k maxRetries :: EvSleep (delay * 2 ^ (k - 1))
                    :: backoff_schedule maxRetries delay (k + 1) (r' :: rest)))
    with (delay * 2 ^ (k - 1)
            :: sleeps (backoff_schedule maxRetries delay (k + 1) (r' :: rest))).
  rewrite IH.
  replace (length (r :: r' :: rest) - 1)%nat with (S (length (r' :: rest) - 1))
    by (simpl; lia).
  simpl seq. simpl map. f_equal; [f_equal; f_equal; lia|].
  rewrite <- seq_shift, map_map.
  apply map_ext. intros i. f_equal. f_equal. lia.
Qed.

(** C4.  [retryOperation] always returns (the fuel [maxRetries] is enough).
    It invokes the operation [length results] times in a row, at most
    [maxRetries] times; its log is the backoff schedule: after invocation
    [k], if another follows, a sleep of [delay * 2 ^ (k - 1)]; every
    invocation but the last failed with a retryable error, so a returned
    value or a non-retryable error ends the loop at once; the result is that
    of the last invocation (the last error, when it failed); and a result
    that is neither a value nor a non-retryable error means the budget of
    [maxRetries] invocations is spent. *)
Theorem retryOperation_policy (w : W) :
  exists (result : outcome T) (w' : W) (results : list (outcome T)),
    retryOperation_fuel operation (Z.to_nat maxRetries) maxRetries delay w
      = Some (result, w', backoff_schedule maxRetries delay 1 results)
    /\ invocations operation (length results) w = (results, w')
    /\ Z.of_nat (length results) <= Z.max 0 maxRetries
    /\ sleeps (backoff_schedule maxRetries delay 1 results)
       = map (fun i => delay * 2 ^ Z.of_nat i) (seq 0 (length results - 1))
    /\ Forall retryable_failure (removelast results)
    /\ result = List.last results (Threw ThrownUndefined)
    /\ ((exists v, result = Returned v)
        \/ (exists e, result = Threw e /\ non_retryable e = true)
        \/ Z.of_nat (length results) = Z.max 0 maxRetries).
Proof.
  destruct (retry_loop_spec (Z.to_nat maxRetries) 1 None w [])
    as (result & w' & results & Hrun & Hinv & Hlen & _ & Hall & Hres & Hend); [lia|].
  exists result, w', results.
  split; [exact Hrun|].
  split; [exact Hinv|].
  split; [lia|].
  split.
  { rewrite sleeps_backoff_schedule. apply map_ext. intros i. f_equal. f_equal. lia. }
  split; [exact Hall|].
  split; [exact Hres|].
  destruct Hend as [H|[H|H]]; [left; exact H | right; left; exact H |].
  right. right. lia.
Qed.

Lemma invocations_all (P : outcome T -> Prop) :
  (forall w0, P (fst (operation w0))) ->
  forall (n : nat) (w : W), Forall P (fst (invocations operation n w)).
Proof.
  intros HP. induction n as [|n IH]; intros w; simpl; [constructor|].
  specialize (HP w). specialize (IH (snd (operation w))).
  destruct (operation w) as [r w1]. simpl in HP, IH.
  destruct (invocations operation n w1) as [rs w2]. simpl in IH |- *.
  constructor; assumption.
Qed.

Lemma last_satisfies {A : Type} (P : A -> Prop) (l : list A) (d : A) :
  Forall P l -> l <> [] -> P (List.last l d).
Proof.
  induction 1 as [|x l Hx Hl IH]; intros Hne; [congruence|].
  destruct l as [|y l]; [exact Hx|].
  change (P (List.last (y :: l) d)). apply IH. discriminate.
Qed.

(** An operation that always fails with a retryable error is invoked
    exactly [maxRetries] times, and its last error is rethrown. *)
Lemma retryOperation_exhausts_budget (w : W) :
  (forall w0, retryable_failure (fst (operation w0))) ->
  1 <= maxRetries ->
  exists (e : thrown) (w' : W) (results : list (outcome T)),
    retryOperation_fuel operation (Z.to_nat maxRetries) maxRetries delay w
      = Some (Threw e, w', backoff_schedule maxRetries delay 1 results)
    /\ Z.of_nat (length results) = maxRetries
    /\ List.last results (Threw ThrownUndefined) = Threw e
    /\ non_retryable e = false.
Proof.
  intros Hfail Hmax.
  destruct (retry_loop_spec (Z.to_nat maxRetries) 1 None w [])
    as (result & w' & results & Hrun & Hinv & Hlen & Hne & _ & Hres & Hend); [lia|].
  assert (Hne' : results <> []) by (apply Hne; lia).
  pose proof (invocations_all retryable_failure Hfail (length results) w) as Hall.
  rewrite Hinv in Hall. simpl in Hall.
  pose proof (last_satisfies _ results (throw_last None) Hall Hne') as Hlast.
  rewrite <- Hres in Hlast. destruct Hlast as (e & He & Hnr).
  exists e, w', results. rewrite He in Hrun, Hres, Hend.
  split; [exact Hrun|].
  split.
  { destruct Hend as [[v Hv]|[[e' [He' Hnr']]|Hn]]; [discriminate | | lia].
    inversion He'; subst. congruence. }
  split; [symmetry; exact Hres | exact Hnr].
Qed.

End RetryFacts.

(** An operation that fails twice with a retryable error and then returns:
    three invocations, with sleeps of one and two seconds between them. *)
Example retryOperation_third_time_lucky :
  let busy := Errors.Threw (Errors.ThrownApp (Errors.ExternalServiceError_default "OpenAI" "busy")) in
  Errors.retryOperation_default
    (fun n : nat => (if (n <? 2)%nat then busy else Errors.Returned n, S n)) 0%nat
  = Some (Errors.Returned 2%nat, 3%nat,
          [Errors.EvCall 1 busy; Errors.EvWarn 1 3; Errors.EvSleep 1000;
           Errors.EvCall 2 busy; Errors.EvWarn 2 3; Errors.EvSleep 2000;
           Errors.EvCall 3 (Errors.Returned 2%nat)]).
Proof. reflexivity. Qed.

(** A [ValidationError] is not retried: one invocation, no sleep. *)
Example retryOperation_fatal_stops :
  let bad := Errors.Threw (Errors.ThrownApp (Errors.ValidationError "Topic is required")) in
  Errors.retryOperation_default (fun n : nat => (bad : Errors.outcome nat, S n)) 0%nat
  = Some (bad, 1%nat, [Errors.EvCall 1 bad]).
Proof. reflexivity. Qed.

(** ** The timeline allocator *)

Section AllocatorFacts.

Import Errors VisualContentService.

Lemma three_passes_lookup (visuals : list VisualContent) (i : nat) :
  (i < length visuals * 3)%nat ->
  three_passes visuals !! i = visuals !! (i mod length visuals)%nat.
Proof.
  intros Hi. unfold three_passes.
  set (n := length visuals) in *.
  assert (Hn : (0 < n)%nat) by lia.
  destruct (Nat.lt_ge_cases i n) as [H1|H1].
  - rewrite lookup_app_l by exact H1. rewrite Nat.mod_small by exact H1. reflexivity.
  - rewrite lookup_app_r by exact H1. fold n.
    destruct (Nat.lt_ge_cases (i - n) n) as [H2|H2].
    + rewrite lookup_app_l by exact H2.
      f_equal. apply (Nat.mod_unique i n 1); lia.
    + rewrite lookup_app_r by exact H2. fold n.
      f_equal. apply (Nat.mod_unique i n 2); lia.
Qed.

Lemma three_passes_length (visuals : list VisualContent) :
  length (three_passes visuals) = (length visuals * 3)%nat.
Proof. unfold three_passes. rewrite !length_app. lia. Qed.

Lemma walk_done (rest timed : list VisualContent) (T cur : Z) :
  T <= cur -> walk rest T timed cur = timed.
Proof.
  intros H. destruct rest as [|v rest]; [reflexivity|].
  simpl. replace (cur <? T) with false by lia. reflexivity.
Qed.

(** With fuel for the turns that are left, the loop is the walk over the
    rest of the three passes; it neither runs dry nor throws. *)
Lemma timing_loop_walk (visuals : list VisualContent) (T : Z) (fuel : nat) :
  forall (timed : list VisualContent) (cur : Z) (i : nat),
    (length visuals * 3 - i <= fuel)%nat ->
    timing_loop fuel visuals T timed cur i
    = Some (Returned (walk (drop i (three_passes visuals)) T timed cur)).
Proof.
  induction fuel as [|fuel IH]; intros timed cur i Hfuel.
  - simpl. destruct (Nat.ltb_spec i (length visuals * 3)) as [Hi|Hi]; [lia|].
    rewrite andb_false_r.
    rewrite drop_ge by (rewrite three_passes_length; lia). reflexivity.
  - simpl.
    destruct (cur <? T) eqn:Hcur; simpl.
    2:{ rewrite walk_done by lia. reflexivity. }
    destruct (Nat.ltb_spec i (length visuals * 3)) as [Hi'|Hi'].
    2:{ rewrite drop_ge by (rewrite three_passes_length; lia). reflexivity. }
    rewrite <- (three_passes_lookup visuals i Hi').
    destruct (three_passes visuals !! i) as [visual|] eqn:Hlook.
    2:{ apply lookup_ge_None_1 in Hlook. rewrite three_passes_length in Hlook. lia. }
    rewrite (drop_S _ _ _ Hlook). simpl. rewrite Hcur.
    destruct (Z.min (duration visual) (T - cur) >? 0); apply IH; lia.
Qed.

Lemma assignTimingToVisuals_fuel_walk (visuals : list VisualContent) (T : Z) (fuel : nat) :
  (length visuals * 3 <= fuel)%nat ->
  assignTimingToVisuals_fuel fuel visuals T
  = Some (Returned (walk (three_passes visuals) T [] 0)).
Proof.
  intros Hfuel. unfold assignTimingToVisuals_fuel.
  destruct visuals as [|v visuals]; [reflexivity|].
  change (length (v :: visuals) =? 0)%nat with false. cbv iota.
  rewrite timing_loop_walk by lia. reflexivity.
Qed.

Lemma assignTimingToVisuals_walk (visuals : list VisualContent) (T : Z) :
  assignTimingToVisuals visuals T = walk (three_passes visuals) T [] 0.
Proof.
  unfold assignTimingToVisuals.
  rewrite assignTimingToVisuals_fuel_walk by lia. reflexivity.
Qed.

(** C9.  The allocator terminates on every asset list (empty, or with zero
    or negative durations) and every target: [visuals.length * 3] turns of
    fuel, or more, always yield a returned timeline, never a throw, and the
    same timeline whatever the surplus of fuel. *)
Theorem assignTimingToVisuals_terminates (visuals : list VisualContent) (totalDuration : Z) :
  exists timed : list VisualContent,
    assignTimingToVisuals visuals totalDuration = timed
    /\ forall fuel : nat,
         (length visuals * 3 <= fuel)%nat ->
         assignTimingToVisuals_fuel fuel visuals totalDuration = Some (Returned timed).
Proof.
  exists (walk (three_passes visuals) totalDuration [] 0).
  split; [apply assignTimingToVisuals_walk|].
  intros fuel Hfuel. apply assignTimingToVisuals_fuel_walk. exact Hfuel.
Qed.

Lemma total_duration_app (l1 l2 : list VisualContent) :
  total_duration (l1 ++ l2) = total_duration l1 + total_duration l2.
Proof. induction l1 as [|s l1 IH]; simpl; lia. Qed.

Lemma contiguous_from_snoc (l : list VisualContent) (s : VisualContent) :
  forall t : Z,
    contiguous_from t l -> startTime s = t + total_duration l ->
    contiguous_from t (l ++ [s]).
Proof.
  induction l as [|x l IH]; intros t Hl Hs; simpl in *.
  - split; [lia | exact I].
  - destruct Hl as [Hx Hl]. split; [exact Hx|]. apply IH; [exact Hl | lia].
Qed.

Lemma positive_total_nonneg (visuals : list VisualContent) : 0 <= positive_total visuals.
Proof. induction visuals as [|v l IH]; simpl; lia. Qed.

Lemma positive_total_app (l1 l2 : list VisualContent) :
  positive_total (l1 ++ l2) = positive_total l1 + positive_total l2.
Proof. induction l1 as [|s l1 IH]; simpl; lia. Qed.

Lemma positive_total_three_passes (visuals : list VisualContent) :
  positive_total (three_passes visuals) = 3 * positive_total visuals.
Proof. unfold three_passes. rewrite !positive_total_app. lia. Qed.

(** The invariant of the walk: the slices so far abut from 0 and end at
    [currentTime], each with a positive duration. *)
Lemma walk_invariant (T : Z) (rest : list VisualContent) :
  forall (timed : list VisualContent) (cur : Z),
    contiguous_from 0 timed ->
    total_duration timed = cur ->
    Forall (fun s => 0 < duration s) timed ->
    contiguous_from 0 (walk rest T timed cur)
    /\ Forall (fun s => 0 < duration s) (walk rest T timed cur)
    /\ total_duration (walk rest T timed cur)
       = Z.max cur (Z.min T (cur + positive_total rest)).
Proof.
  induction rest as [|v rest IH]; intros timed cur Hc Ht Hp; simpl.
  - repeat split; [exact Hc | exact Hp | lia].
  - pose proof (positive_total_nonneg rest) as Hnn.
    destruct (cur <? T) eqn:Hcur.
    2:{ repeat split; [exact Hc | exact Hp | lia]. }
    destruct (Z.min (duration v) (T - cur) >? 0) eqn:Hd.
    + destruct (IH (timed ++ [with_timing v cur (Z.min (duration v) (T - cur))])
                   (cur + Z.min (duration v) (T - cur)))
        as (H1 & H2 & H3).
      * apply contiguous_from_snoc; [exact Hc | simpl; lia].
      * rewrite total_duration_app. simpl. lia.
      * apply Forall_app. split; [exact Hp|]. constructor; [simpl; lia | constructor].
      * repeat split; [exact H1 | exact H2 | rewrite H3; lia].
    + destruct (IH timed cur Hc Ht Hp) as (H1 & H2 & H3).
      repeat split; [exact H1 | exact H2 | rewrite H3; lia].
Qed.

(** Slices that abut and last a positive time start later and later. *)
Lemma contiguous_starts_sorted (l : list VisualContent) :
  forall t : Z,
    contiguous_from t l -> Forall (fun s => 0 < duration s) l ->
    Forall (fun s => t <= startTime s) l /\ StronglySorted Z.lt (map startTime l).
Proof.
  induction l as [|s l IH]; intros t Hc Hp; simpl.
  - split; constructor.
  - destruct Hc as [Hs Hc]. inversion Hp as [|? ? Hds Hpl]; subst.
    destruct (IH _ Hc Hpl) as [Hlow Hsorted].
    split.
    + constructor; [lia|].
      eapply Forall_impl; [exact Hlow|]. simpl. intros x Hx. lia.
    + constructor; [exact Hsorted|].
      apply List.Forall_map. eapply Forall_impl; [exact Hlow|]. simpl. intros x Hx. lia.
Qed.

(** When even the assets still to be read cannot reach the target, each of
    them with a positive duration becomes a slice of its full duration. *)
Lemma walk_short (T : Z) (rest : list VisualContent) :
  forall (timed : list VisualContent) (cur : Z),
    cur + positive_total rest < T ->
    exists added : list VisualContent,
      walk rest T timed cur = timed ++ added
      /\ Forall2 full_slice_of added (List.filter has_positive_duration rest).
Proof.
  induction rest as [|v rest IH]; intros timed cur Hshort; simpl in *.
  - exists []. rewrite app_nil_r. split; [reflexivity | constructor].
  - pose proof (positive_total_nonneg rest) as Hnn.
    replace (cur <? T) with true by lia.
    unfold has_positive_duration at 1.
    destruct (0 <? duration v) eqn:Hpos.
    + replace (Z.min (duration v) (T - cur)) with (duration v) by lia.
      replace (duration v >? 0) with true by lia.
      destruct (IH (timed ++ [with_timing v cur (duration v)]) (cur + duration v))
        as (added & Hwalk & Hall); [lia|].
      exists (with_timing v cur (duration v) :: added).
      split; [rewrite Hwalk, <- app_assoc; reflexivity|].
      constructor; [repeat split | exact Hall].
    + replace (Z.min (duration v) (T - cur) >? 0) with false by lia.
      apply IH. lia.
Qed.

(** C1, as the code has it.  The timeline the allocator returns is ordered
    by start time, starts at 0 and is contiguous, holds only slices of
    positive duration, and its durations sum to the target capped by three
    passes over the assets of positive nominal duration: to
    [min totalDuration (3 * positive_total visuals)], and to 0 for a target
    that is not positive.  So the sum is the target exactly when three
    passes cover it, and less than the target otherwise. *)
Theorem assignTimingToVisuals_timeline (visuals : list VisualContent) (totalDuration : Z) :
  StronglySorted Z.lt (map startTime (assignTimingToVisuals visuals totalDuration))
  /\ contiguous_from 0 (assignTimingToVisuals visuals totalDuration)
  /\ Forall (fun s => 0 < duration s) (assignTimingToVisuals visuals totalDuration)
  /\ total_duration (assignTimingToVisuals visuals totalDuration)
     = Z.max 0 (Z.min totalDuration (3 * positive_total visuals)).
Proof.
  rewrite assignTimingToVisuals_walk.
  destruct (walk_invariant totalDuration (three_passes visuals) [] 0)
    as (Hc & Hp & Ht); [exact I | reflexivity | constructor |].
  destruct (contiguous_starts_sorted _ 0 Hc Hp) as [_ Hsorted].
  rewrite positive_total_three_passes in Ht.
  repeat split; [exact Hsorted | exact Hc | exact Hp | rewrite Ht; lia].
Qed.

(** C1 as stated fails: one image of 5 seconds and a target of 120 seconds
    give three slices that sum to 15 seconds, not to 120 within a second. *)
Lemma assignTimingToVisuals_sum_off_target :
  let photo := mkVisual image "https://example.org/daisy.jpg" 5 0 "https://example.org/daisy.jpg" in
  assignTimingToVisuals [photo] 120
  = [with_timing photo 0 5; with_timing photo 5 5; with_timing photo 10 5]
  /\ total_duration (assignTimingToVisuals [photo] 120) = 15
  /\ 1 < Z.abs (120 - total_duration (assignTimingToVisuals [photo] 120)).
Proof. vm_compute. repeat split. Qed.

(** C2, as the code has it.  When three passes over the assets cannot reach
    the target, the allocator still returns, with no error: the timeline
    holds, for each of the three passes, every asset of positive duration
    at its full nominal duration, and so sums to
    [3 * positive_total visuals], short of the target. *)
Theorem assignTimingToVisuals_short (visuals : list VisualContent) (totalDuration : Z) :
  3 * positive_total visuals < totalDuration ->
  exists timed : list VisualContent,
    assignTimingToVisuals_fuel (length visuals * 3) visuals totalDuration
      = Some (Returned timed)
    /\ Forall2 full_slice_of timed
         (List.filter has_positive_duration (three_passes visuals))
    /\ contiguous_from 0 timed
    /\ total_duration timed = 3 * positive_total visuals.
Proof.
  intros Hshort.
  exists (walk (three_passes visuals) totalDuration [] 0).
  split; [apply assignTimingToVisuals_fuel_walk; lia|].
  destruct (walk_short totalDuration (three_passes visuals) [] 0)
    as (added & Hwalk & Hall).
  { rewrite positive_total_three_passes. lia. }
  destruct (walk_invariant totalDuration (three_passes visuals) [] 0)
    as (Hc & _ & Ht); [exact I | reflexivity | constructor |].
  rewrite positive_total_three_passes in Ht.
  split; [rewrite Hwalk; exact Hall|].
  split; [exact Hc|].
  rewrite Ht. pose proof (positive_total_nonneg visuals). lia.
Qed.

(** The theorem at an image of 5 seconds and a clip of 10 seconds, with a
    target of 60 seconds. *)
Lemma assignTimingToVisuals_short_witness :
  let photo := mkVisual image "a.jpg" 5 0 "a.jpg" in
  let clip := mkVisual video "b.mp4" 10 0 "b.mp4" in
  3 * positive_total [photo; clip] < 60
  /\ exists timed : list VisualContent,
       assignTimingToVisuals_fuel 6 [photo; clip] 60 = Some (Returned timed)
       /\ Forall2 full_slice_of timed
            (List.filter has_positive_duration (three_passes [photo; clip]))
       /\ contiguous_from 0 timed
       /\ total_duration timed = 3 * positive_total [photo; clip].
Proof.
  intros photo clip.
  split; [reflexivity|].
  apply (assignTimingToVisuals_short [photo; clip] 60). reflexivity.
Defined.

(** C2 as stated fails: an image of 5 seconds and a clip of 10 seconds,
    with a target of 60 seconds, are used three times over; the allocator
    then returns the 45 seconds it has, and no error. *)
Lemma assignTimingToVisuals_returns_short_timeline :
  let photo := mkVisual image "a.jpg" 5 0 "a.jpg" in
  let clip := mkVisual video "b.mp4" 10 0 "b.mp4" in
  assignTimingToVisuals_fuel 6 [photo; clip] 60
  = Some (Returned [with_timing photo 0 5; with_timing clip 5 10;
                    with_timing photo 15 5; with_timing clip 20 10;
                    with_timing photo 30 5; with_timing clip 35 10])
  /\ total_duration (assignTimingToVisuals [photo; clip] 60) = 45
  /\ 45 < 60.
Proof. vm_compute. repeat split. Qed.

End AllocatorFacts.

(** ** The visual stage *)

Section VisualStageFacts.

Import Errors VisualContentService.

Lemma generatePlaceholderImages_nominal (keywords : list string) (count : Z) :
  Forall (fun v => type v = image /\ duration v = 5)
         (generatePlaceholderImages keywords count).
Proof.
  unfold generatePlaceholderImages. apply List.Forall_map.
  apply Forall_forall. intros i _. split; reflexivity.
Qed.

Lemma searchUnsplashImages_nominal (env : environment) (keywords : list string) (count : Z) :
  Forall (fun v => type v = image /\ duration v = 5)
         (searchUnsplashImages env keywords count).
Proof.
  unfold searchUnsplashImages.
  destruct (negb (JsString.truthy (unsplashAccessKey env)));
    [apply generatePlaceholderImages_nominal|].
  destruct (unsplash_get env _ _) as [results|e];
    [|apply generatePlaceholderImages_nominal].
  apply List.Forall_map. apply Forall_forall. intros img _. split; reflexivity.
Qed.

Lemma duration_or_10_nominal (d : option Z) :
  video_nominal d (Z.min (duration_or_10 d) 15).
Proof.
  destruct d as [n|]; simpl; [|constructor].
  destruct (n =? 0) eqn:Hn.
  - replace n with 0 by lia. constructor.
  - constructor. lia.
Qed.

Lemma map_outcome_pexels (videos : list pexels_video) :
  forall visuals : list VisualContent,
    map_outcome pexels_to_visual videos = Returned visuals ->
    Forall2 (fun raw v => type v = video /\ video_nominal (video_duration raw) (duration v))
            videos visuals.
Proof.
  induction videos as [|raw videos IH]; intros visuals H; simpl in H.
  - inversion H. constructor.
  - unfold pexels_to_visual in H at 1.
    destruct (pick_video_file (video_files raw)) as [file|]; [|discriminate].
    destruct (map_outcome pexels_to_visual videos) as [ys|e]; [|discriminate].
    inversion H; subst. constructor; [|apply IH; reflexivity].
    split; [reflexivity | apply duration_or_10_nominal].
Qed.

(** C8, as the code has it.  Every image the visual stage produces, found
    or placeholder, has a nominal duration of exactly 5 seconds; every clip
    it produces comes from a video of the response, in order, and has the
    native duration capped at 15 seconds, or 10 seconds when the native
    duration is missing or zero. *)
Theorem nominal_slice_durations (env : environment) (keywords : list string) (count : Z) :
  Forall (fun v => type v = image /\ duration v = 5)
         (searchUnsplashImages env keywords count)
  /\ exists videos : list pexels_video,
       Forall2 (fun raw v => type v = video /\ video_nominal (video_duration raw) (duration v))
               videos (searchPexelsVideos env keywords count)
       /\ (videos = []
           \/ pexels_get env (JsString.join " " keywords) (Z.min count 15)
              = Returned (Some videos)).
Proof.
  split; [apply searchUnsplashImages_nominal|].
  unfold searchPexelsVideos.
  destruct (negb (JsString.truthy (pexelsApiKey env))).
  { exists []. split; [constructor | left; reflexivity]. }
  destruct (pexels_get env _ _) as [[videos|]|e].
  - destruct (map_outcome pexels_to_visual videos) as [visuals|e] eqn:Hmap.
    + exists videos. split; [apply map_outcome_pexels; exact Hmap | right; reflexivity].
    + exists []. split; [constructor | left; reflexivity].
  - exists []. split; [constructor | left; reflexivity].
  - exists []. split; [constructor | left; reflexivity].
Qed.

(** C8 as stated fails: a clip whose native duration is 0 gets a nominal
    duration of 10 seconds, not [min 0 15]. *)
Lemma zero_length_clip_gets_ten_seconds :
  let clip := {| video_duration := Some 0;
                 video_files := [{| quality := "hd"; link := "https://example.org/clip.mp4" |}] |} in
  let env := {| unsplashAccessKey := "key"; pexelsApiKey := "key";
                unsplash_get := fun _ _ => Returned (Some []);
                pexels_get := fun _ _ => Returned (Some [clip]) |} in
  searchPexelsVideos env ["daisy"] 8
  = [mkVisual video "https://example.org/clip.mp4" 10 0 "https://example.org/clip.mp4"]
  /\ Z.min 0 15 = 0
  /\ 10 <> Z.min 0 15.
Proof. vm_compute. repeat split. discriminate. Qed.

(** C3, as the code has it.  For a valid topic and a duration from 30 to
    1800 seconds, when the searches the stage makes find nothing (the image
    search for the keywords, the clip search when a Pexels key is
    configured, and the second image search for the topic itself), the
    visual stage does not fail: it returns the empty list.  No render is
    attempted all the same.  [VideoProductionServiceImpl.findVisualContent]
    turns the empty list into a [VideoProcessingError], which is retryable;
    [createCompleteVideoPackage] rethrows it and leaves the world as it
    was, whatever the editing and thumbnail services would do; and
    [createVideo] refuses an empty list of visuals with a
    [ValidationError], again without a call of the editing service. *)
Theorem findVisualContent_nothing_found
    {W VideoFile ImageFile : Type}
    (env : environment) (cacheDir : string) (path_join : string -> string -> string)
    (uuidv4 : Effect.M W string) (fs_mkdir : string -> Effect.M W unit)
    (http_get : string -> Effect.M W VisualCache.Buffer)
    (fs_writeFile : string -> VisualCache.Buffer -> Effect.M W unit)
    (editing_createVideo :
       VideoProduction.AudioFile -> list VisualContent -> Effect.M W VideoFile)
    (editing_optimizeForYouTube : VideoFile -> Effect.M W VideoFile)
    (thumbnails_generateThumbnail :
       string -> VideoProduction.ThumbnailStyle -> Effect.M W ImageFile)
    (audio : VideoProduction.AudioFile)
    (thumbnailStyle : option VideoProduction.ThumbnailStyle)
    (topic : string) (duration : Z) (w : W) :
  JsString.trim topic <> EmptyString ->
  30 <= duration <= 1800 ->
  searchUnsplashImages env (extractKeywords topic)
    (share (neededVisuals duration) JsNumber.lit_0_7) = [] ->
  (JsString.truthy (pexelsApiKey env) = true ->
   searchPexelsVideos env (extractKeywords topic)
     (share (neededVisuals duration) JsNumber.lit_0_3) = []) ->
  searchUnsplashImages env [topic] (neededVisuals duration) = [] ->
  let cache :=
    VisualCache.getVisualContentWithCache env cacheDir path_join uuidv4 fs_mkdir http_get
      fs_writeFile in
  let no_visuals :=
    ThrownApp (ErrorCatalogue.VideoProcessingError "No visual content found for topic" true) in
  findVisualContent env topic duration = Returned []
  /\ VideoProduction.findVisualContent cache topic duration w = (Threw no_visuals, w)
  /\ non_retryable no_visuals = false
  /\ VideoProduction.createCompleteVideoPackage cache editing_createVideo
       editing_optimizeForYouTube thumbnails_generateThumbnail
       audio topic duration thumbnailStyle w
     = (Threw no_visuals, w)
  /\ exists msg,
       VideoProduction.createVideo editing_createVideo editing_optimizeForYouTube
         (Some audio) (Some []) w
       = (Threw (ThrownApp (ValidationError msg)), w).
Proof.
  intros Htopic Hdur Himg Hvid Hmore cache no_visuals.
  assert (Hfind : findVisualContent env topic duration = Returned []).
  { unfold findVisualContent, findVisualContent_body.
    rewrite (topic_check_passes topic Htopic).
    replace ((duration <? 30) || (duration >? 1800)) with false by lia.
    rewrite Himg.
    assert (Hnone :
      (if JsString.truthy (pexelsApiKey env)
       then [] ++ searchPexelsVideos env (extractKeywords topic)
                    (share (neededVisuals duration) JsNumber.lit_0_3)
       else []) = []).
    { destruct (JsString.truthy (pexelsApiKey env)); [|reflexivity].
      rewrite Hvid by reflexivity. reflexivity. }
    rewrite Hnone. simpl length. simpl app.
    replace (neededVisuals duration - Z.of_nat 0) with (neededVisuals duration) by lia.
    rewrite Hmore.
    destruct (Z.of_nat 0 <? neededVisuals duration); reflexivity. }
  assert (Hcache : cache topic duration w = (Returned [], w)).
  { unfold cache, VisualCache.getVisualContentWithCache, Effect.try_catch, Effect.bind,
      Effect.lift.
    rewrite Hfind. reflexivity. }
  assert (Hstage :
    VideoProduction.findVisualContent cache topic duration w = (Threw no_visuals, w)).
  { unfold VideoProduction.findVisualContent, Effect.try_catch, Effect.bind, Effect.throw.
    rewrite (topic_check_passes topic Htopic).
    replace ((duration <? 30) || (duration >? 1800)) with false by lia.
    rewrite Hcache. reflexivity. }
  split; [exact Hfind|]. split; [exact Hstage|]. split; [reflexivity|]. split.
  - unfold VideoProduction.createCompleteVideoPackage.
    unfold Effect.try_catch at 1. unfold Effect.bind at 1.
    rewrite Hstage. reflexivity.
  - unfold VideoProduction.createVideo, Effect.try_catch, Effect.throw.
    destruct (JsString.truthy (VideoProduction.audio_path audio)); eexists; reflexivity.
Qed.

(** The theorem for the topic "Daisy care" and 120 seconds, with an
    Unsplash key configured, a search that finds no image and no Pexels
    key; the world counts the calls of the collaborators, and none is made. *)
Lemma findVisualContent_nothing_found_witness :
  let env := {| unsplashAccessKey := "key"; pexelsApiKey := "";
                unsplash_get := fun _ _ => Returned (Some []);
                pexels_get := fun _ _ => Returned None |} in
  let called {A : Type} (a : A) : Effect.M nat A := fun n => (Returned a, S n) in
  let cache :=
    VisualCache.getVisualContentWithCache env "cache"
      (fun a b : string => (a ++ "/" ++ b)%string)
      (called "id") (fun _ => called tt) (fun _ => called "bytes") (fun _ _ => called tt) in
  let audio := VideoProduction.mkAudioFile "id" "speech.mp3" "audio/speech.mp3" 120 "mp3" 1000 in
  JsString.trim "Daisy care" = "Daisy care"
  /\ 30 <= 120 <= 1800
  /\ findVisualContent env "Daisy care" 120 = Returned []
  /\ VideoProduction.createCompleteVideoPackage cache
       (fun _ _ => called tt) (fun v => called v) (fun _ _ => called tt)
       audio "Daisy care" 120 None 0%nat
     = (Threw (ThrownApp (ErrorCatalogue.VideoProcessingError
                            "No visual content found for topic" true)), 0%nat).
Proof.
  intros env called cache audio.
  split; [reflexivity|]. split; [lia|].
  destruct (findVisualContent_nothing_found env "cache"
              (fun a b : string => (a ++ "/" ++ b)%string)
              (called string "id") (fun _ => called unit tt)
              (fun _ => called string "bytes") (fun _ _ => called unit tt)
              (fun _ _ => called unit tt) (fun v => called unit v)
              (fun _ _ => called unit tt)
              audio None "Daisy care" 120 0%nat)
    as (Hreturned & _ & _ & Hpackage & _).
  - vm_compute. discriminate.
  - lia.
  - reflexivity.
  - intros _. reflexivity.
  - reflexivity.
  - split; [exact Hreturned | exact Hpackage].
Defined.

(** C3 as stated fails: with an Unsplash key configured and a search that
    finds no image, the stage returns the empty list for a valid topic and
    duration; no error is thrown. *)
Lemma findVisualContent_returns_empty_list :
  let env := {| unsplashAccessKey := "key"; pexelsApiKey := "key";
                unsplash_get := fun _ _ => Returned (Some []);
                pexels_get := fun _ _ => Returned (Some []) |} in
  (forall keywords count,
      searchUnsplashImages env keywords count ++ searchPexelsVideos env keywords count = [])
  /\ findVisualContent env "How to grow daisies" 120 = Returned [].
Proof. split; [intros keywords count|]; reflexivity. Qed.

End VisualStageFacts.

(** ** Binary64 against exact arithmetic, on the validated ranges *)

Section NumberFacts.

(** A check that holds at [lo], [lo + 1], ..., [lo + n - 1] holds on the range. *)
Lemma checked_on_range (check : Z -> bool) (lo : Z) (n : nat) :
  forallb (fun k => check (lo + Z.of_nat k)) (seq 0 n) = true ->
  forall d : Z, lo <= d < lo + Z.of_nat n -> check d = true.
Proof.
  intros H d Hd. rewrite forallb_forall in H.
  specialize (H (Z.to_nat (d - lo))).
  replace (lo + Z.of_nat (Z.to_nat (d - lo))) with d in H by lia.
  apply H. apply in_seq. lia.
Qed.

(** [Math.ceil(duration / 5)] is the exact ceiling from 30 to 1800 seconds. *)
Lemma neededVisuals_exact (duration : Z) :
  30 <= duration <= 1800 ->
  VisualContentService.neededVisuals duration = (duration + 4) / 5.
Proof.
  intros H. apply Z.eqb_eq.
  apply (checked_on_range
           (fun d => VisualContentService.neededVisuals d =? (d + 4) / 5) 30 1771);
    [vm_compute; reflexivity | lia].
Qed.

(** The word count of the script stage is the exact quotient
    [duration * 150 / 60] or one less, from 60 to 1800 seconds. *)
Lemma targetWords_near_exact (duration : Z) :
  60 <= duration <= 1800 ->
  duration * 150 / 60 - 1 <= AIContentGenerationService.targetWords duration
                          <= duration * 150 / 60.
Proof.
  intros H.
  pose proof (checked_on_range
                (fun d => (d * 150 / 60 - 1 <=? AIContentGenerationService.targetWords d)
                          && (AIContentGenerationService.targetWords d <=? d * 150 / 60))
                60 1741) as Hc.
  specialize (Hc ltac:(vm_compute; reflexivity) duration ltac:(lia)).
  cbv beta in Hc. lia.
Qed.

(** It is the exact quotient for a whole number of minutes. *)
Lemma targetWords_whole_minutes (minutes : Z) :
  1 <= minutes <= 30 ->
  AIContentGenerationService.targetWords (60 * minutes) = 150 * minutes.
Proof.
  intros H. apply Z.eqb_eq.
  apply (checked_on_range
           (fun m => AIContentGenerationService.targetWords (60 * m) =? 150 * m) 1 30);
    [vm_compute; reflexivity | lia].
Qed.

(** Rounding shows at 88 seconds: 219 words, where the exact quotient is 220. *)
Example targetWords_88 :
  AIContentGenerationService.targetWords 88 = 219 /\ 88 * 150 / 60 = 220.
Proof. split; vm_compute; reflexivity. Qed.

End NumberFacts.

(** ** The script stage *)

Section ScriptFacts.

Import Errors AIContentGenerationService.

Variable Script : Type.
Variable parseScriptContent : string -> string -> Z -> Script.
Variable create : string -> outcome (option string).

(** C6.  An empty or whitespace-only topic is rejected with the
    [ValidationError] for the topic, and a duration below 60 or above 1800
    seconds with the one for the duration, in both cases with no call of
    the collaborator.  For a valid topic and duration the collaborator is
    called once, with the prompt built for the word count
    [Math.floor((duration / 60) * 150)], which in whole minutes is exactly
    150 words a minute. *)
Theorem generateScript_validates_then_asks (topic : string) (duration : Z) :
  (JsString.trim topic = EmptyString ->
   generateScript Script parseScriptContent create topic duration
   = (Threw (ThrownApp (ValidationError "Topic is required")), []))
  /\ (JsString.trim topic <> EmptyString ->
      duration < 60 \/ 1800 < duration ->
      generateScript Script parseScriptContent create topic duration
      = (Threw (ThrownApp (ValidationError "Duration must be between 60 and 1800 seconds")),
         []))
  /\ (JsString.trim topic <> EmptyString ->
      60 <= duration <= 1800 ->
      snd (generateScript Script parseScriptContent create topic duration)
      = [buildScriptPrompt topic duration (targetWords duration)]
      /\ targetWords duration
         = JsNumber.floor
             (JsNumber.mul (JsNumber.div (JsNumber.of_Z duration) (JsNumber.of_Z 60))
                           (JsNumber.of_Z 150))
      /\ duration * 150 / 60 - 1 <= targetWords duration <= duration * 150 / 60
      /\ (duration mod 60 = 0 -> targetWords duration = duration / 60 * 150)).
Proof.
  unfold generateScript, generateScript_body.
  split; [|split].
  - intros Hempty. rewrite (topic_check_rejects topic Hempty). reflexivity.
  - intros Htopic Hdur. rewrite (topic_check_passes topic Htopic).
    replace ((duration <? 60) || (duration >? 1800)) with true by lia.
    reflexivity.
  - intros Htopic Hdur. rewrite (topic_check_passes topic Htopic).
    replace ((duration <? 60) || (duration >? 1800)) with false by lia.
    split.
    { destruct (create _) as [[content|]|e]; simpl.
      - destruct (JsString.truthy content); reflexivity.
      - reflexivity.
      - destruct (instanceof_ValidationError e); reflexivity. }
    split; [reflexivity|].
    split; [apply targetWords_near_exact; exact Hdur|].
    intros Hmin.
    assert (Hd : duration = 60 * (duration / 60)).
    { pose proof (Z.div_mod duration 60). lia. }
    rewrite Hd at 1. rewrite targetWords_whole_minutes by lia. lia.
Qed.


End ScriptFacts.



(** Under [retryOperation] the stage is then invoked again: three times
    with the defaults, the collaborator being asked each time. *)
Example generateScript_empty_output_retried :
  match Errors.retryOperation_default
          (fun asked : nat =>
             (fst (AIContentGenerationService.generateScript unit (fun _ _ _ => tt)
                     (fun _ => Errors.Returned (Some EmptyString)) "Daisy care" 120),
              S asked)) 0%nat with
  | Some (Errors.Threw (Errors.ThrownApp e), asked, log) =>
      asked = 3%nat /\ Errors.retryable e = true /\ Errors.sleeps log = [1000; 2000]
  | _ => False
  end.
Proof. vm_compute. repeat split. Qed.

(** ** The task queue *)

Section QueueFacts.

Import TaskQueueService.

Lemma consistent_initial : consistent initial.
Proof.
  split; simpl.
  - intros taskId ref H. rewrite lookup_empty in H. discriminate.
  - intros ref t H. rewrite lookup_empty in H. discriminate.
  - intros ref _. apply lookup_empty.
  - intros taskId ref [].
Qed.

Lemma alter_is_Some (f : VideoProductionTask -> VideoProductionTask)
    (m : gmap nat VideoProductionTask) (i j : nat) :
  is_Some (m !! j) -> is_Some (alter f i m !! j).
Proof.
  intros [t Ht]. destruct (decide (i = j)) as [->|Hne].
  - rewrite lookup_alter_eq, Ht. eexists. reflexivity.
  - rewrite lookup_alter_ne by exact Hne. rewrite Ht. eexists. reflexivity.
Qed.

Lemma alter_status_valid (f : VideoProductionTask -> VideoProductionTask)
    (m : gmap nat VideoProductionTask) (i : nat) :
  (forall t, valid_status (status (f t))) ->
  (forall ref t, m !! ref = Some t -> valid_status (status t)) ->
  forall ref t, alter f i m !! ref = Some t -> valid_status (status t).
Proof.
  intros Hf Hm ref t H. destruct (decide (i = ref)) as [->|Hne].
  - rewrite lookup_alter_eq in H. destruct (m !! ref) as [t0|]; [|discriminate].
    simpl in H. inversion H. apply Hf.
  - rewrite lookup_alter_ne in H by exact Hne. eapply Hm. exact H.
Qed.

Lemma alter_fresh (f : VideoProductionTask -> VideoProductionTask)
    (m : gmap nat VideoProductionTask) (i ref : nat) :
  m !! ref = None -> alter f i m !! ref = None.
Proof.
  intros H. destruct (decide (i = ref)) as [->|Hne].
  - rewrite lookup_alter_eq, H. reflexivity.
  - rewrite lookup_alter_ne by exact Hne. exact H.
Qed.

(** Writing a status through a reference to an existing object, and
    storing that reference under [taskId]. *)
Lemma write_through_consistent (f : VideoProductionTask -> VideoProductionTask)
    (taskId : string) (ref : nat) (s : service) (running' : list (string * nat))
    (timers' : list string) :
  (forall t, valid_status (status (f t))) ->
  consistent s ->
  is_Some (objects s !! ref) ->
  (forall k r, In (k, r) running' -> is_Some (objects s !! r)) ->
  consistent (mkService (alter f ref (objects s)) (next_ref s)
                        (<[taskId := ref]> (tasks s)) timers' running').
Proof.
  intros Hf [Hstored Hstatus Hfresh Hrun] Href Hrun'. split; simpl.
  - intros k r H. apply alter_is_Some.
    destruct (decide (taskId = k)) as [->|Hne].
    + rewrite lookup_insert_eq in H. inversion H; subst. exact Href.
    + rewrite lookup_insert_ne in H by exact Hne. eapply Hstored. exact H.
  - apply alter_status_valid; assumption.
  - intros r Hr. apply alter_fresh. apply Hfresh. exact Hr.
  - intros k r H. apply alter_is_Some. eapply Hrun'. exact H.
Qed.

Lemma addTask_consistent (task : VideoProductionTask) (uuid : string) (s : service) :
  consistent s -> consistent (snd (addTask task uuid s)).
Proof.
  intros [Hstored Hstatus Hfresh Hrun]. unfold addTask.
  set (taskId := if JsString.truthy (id task) then id task else uuid).
  split; simpl.
  - intros k r H. destruct (decide (taskId = k)) as [->|Hne].
    + rewrite lookup_insert_eq in H. inversion H; subst.
      rewrite lookup_insert_eq. eexists. reflexivity.
    + rewrite lookup_insert_ne in H by exact Hne.
      destruct (Hstored _ _ H) as [t Ht].
      destruct (decide (next_ref s = r)) as [<-|Hr].
      * rewrite Hfresh in Ht by lia. discriminate.
      * rewrite lookup_insert_ne by exact Hr. rewrite Ht. eexists. reflexivity.
  - intros r t H. destruct (decide (next_ref s = r)) as [<-|Hr].
    + rewrite lookup_insert_eq in H. inversion H. left. reflexivity.
    + rewrite lookup_insert_ne in H by exact Hr. eapply Hstatus. exact H.
  - intros r Hr. rewrite lookup_insert_ne by lia. apply Hfresh. lia.
  - intros k r H. destruct (Hrun _ _ H) as [t Ht].
    destruct (decide (next_ref s = r)) as [<-|Hr].
    + rewrite Hfresh in Ht by lia. discriminate.
    + rewrite lookup_insert_ne by exact Hr. rewrite Ht. eexists. reflexivity.
Qed.

Lemma processTask_start_consistent (taskId : string) (s : service) :
  consistent s -> consistent (processTask_start taskId s).
Proof.
  intros Hs. unfold processTask_start.
  destruct (tasks s !! taskId) as [ref|] eqn:Hlook; [|exact Hs].
  apply write_through_consistent.
  - intros t. right. left. reflexivity.
  - exact Hs.
  - eapply stored_refs; [exact Hs | exact Hlook].
  - intros k r H. apply in_app_or in H. destruct H as [H|[H|[]]].
    + eapply running_refs; [exact Hs | exact H].
    + inversion H; subst. eapply stored_refs; [exact Hs | exact Hlook].
Qed.

Lemma processTask_complete_consistent (taskId : string) (ref : nat) (s : service) :
  consistent s -> is_Some (objects s !! ref) ->
  consistent (processTask_complete taskId ref s).
Proof.
  intros Hs Href. unfold processTask_complete.
  apply write_through_consistent.
  - intros t. right. right. left. reflexivity.
  - exact Hs.
  - exact Href.
  - intros k r H. eapply running_refs; [exact Hs | exact H].
Qed.

Lemma processTask_catch_consistent (taskId msg : string) (s : service) :
  consistent s -> consistent (processTask_catch taskId msg s).
Proof.
  intros Hs. unfold processTask_catch.
  destruct (tasks s !! taskId) as [ref|] eqn:Hlook; [|exact Hs].
  apply write_through_consistent.
  - intros t. right. right. right. reflexivity.
  - exact Hs.
  - eapply stored_refs; [exact Hs | exact Hlook].
  - intros k r H. eapply running_refs; [exact Hs | exact H].
Qed.

Lemma remove_first_In {A : Type} (eqb : A -> A -> bool) (x : A) (xs : list A) :
  forall xs' : list A,
    remove_first eqb x xs = Some xs' ->
    (exists y, In y xs /\ eqb x y = true) /\ (forall y, In y xs' -> In y xs).
Proof.
  induction xs as [|y xs IH]; intros xs' H; simpl in H; [discriminate|].
  destruct (eqb x y) eqn:Heq.
  - inversion H; subst. split; [exists y; split; [left; reflexivity | exact Heq]|].
    intros z Hz. right. exact Hz.
  - destruct (remove_first eqb x xs) as [rest|]; [|discriminate].
    inversion H; subst. destruct (IH rest eq_refl) as [[z [Hz Hzeq]] Hsub].
    split; [exists z; split; [right; exact Hz | exact Hzeq]|].
    intros w [Hw|Hw]; [left; exact Hw | right; apply Hsub; exact Hw].
Qed.

Lemma same_run_eq (a b : string * nat) : same_run a b = true -> a = b.
Proof.
  destruct a as [k r], b as [k' r']. unfold same_run. simpl.
  intros H. apply andb_true_iff in H. destruct H as [Hk Hr].
  apply String.eqb_eq in Hk. apply Nat.eqb_eq in Hr. congruence.
Qed.

(** Forgetting timers and suspended invocations keeps the service consistent. *)
Lemma consistent_fewer (s : service) (timers' : list string) (running' : list (string * nat)) :
  consistent s ->
  (forall y, In y running' -> In y (running s)) ->
  consistent (mkService (objects s) (next_ref s) (tasks s) timers' running').
Proof.
  intros [Hstored Hstatus Hfresh Hrun] Hsub. split; simpl; try assumption.
  intros k r H. eapply Hrun. apply Hsub. exact H.
Qed.

Lemma step_consistent (a : action) (s : service) :
  consistent s -> consistent (step a s).
Proof.
  intros Hs. destruct a as [task uuid|taskId|taskId ref|taskId ref msg|]; simpl.
  - apply addTask_consistent. exact Hs.
  - destruct (remove_first String.eqb taskId (timers s)) as [timers'|]; [|exact Hs].
    apply processTask_start_consistent.
    apply consistent_fewer; [exact Hs | auto].
  - destruct (remove_first same_run (taskId, ref) (running s)) as [running'|] eqn:Hrm;
      [|exact Hs].
    destruct (remove_first_In _ _ _ _ Hrm) as [[y [Hy Heq]] Hsub].
    apply same_run_eq in Heq. subst y.
    apply processTask_complete_consistent.
    + apply consistent_fewer; [exact Hs | exact Hsub].
    + simpl. eapply running_refs; [exact Hs | exact Hy].
  - destruct (remove_first same_run (taskId, ref) (running s)) as [running'|] eqn:Hrm;
      [|exact Hs].
    destruct (remove_first_In _ _ _ _ Hrm) as [_ Hsub].
    apply processTask_catch_consistent.
    apply consistent_fewer; [exact Hs | exact Hsub].
  - destruct Hs as [Hstored Hstatus Hfresh Hrun]. split; simpl; try assumption.
    intros k r H. rewrite lookup_empty in H. discriminate.
Qed.

Lemma run_consistent (schedule : list action) :
  forall s : service, consistent s -> consistent (run schedule s).
Proof.
  induction schedule as [|a schedule IH]; intros s Hs; [exact Hs|].
  apply IH. apply step_consistent. exact Hs.
Qed.

Lemma omap_all_Some {A B : Type} (f : A -> option B) (P : B -> Prop) (l : list A) :
  (forall x, In x l -> exists y, f x = Some y /\ P y) ->
  length (omap f l) = length l /\ Forall P (omap f l).
Proof.
  induction l as [|x l IH]; intros H; [split; [reflexivity | constructor]|].
  destruct (H x (or_introl eq_refl)) as [y [Hy HP]].
  destruct IH as [Hlen Hall]; [intros z Hz; apply H; right; exact Hz|].
  simpl. rewrite Hy. simpl. split; [f_equal; exact Hlen | constructor; assumption].
Qed.

Lemma values_consistent (s : service) :
  consistent s ->
  length (values s) = size (tasks s)
  /\ Forall (fun t => valid_status (status t)) (values s).
Proof.
  intros Hs. unfold values. rewrite <- length_map_to_list.
  apply omap_all_Some. intros [k r] Hin. simpl.
  apply list_elem_of_In in Hin. apply elem_of_map_to_list in Hin.
  destruct (stored_refs s Hs k r Hin) as [t Ht].
  exists t. split; [exact Ht|]. eapply object_statuses; [exact Hs | exact Ht].
Qed.

Lemma count_status_sum (ts : list VideoProductionTask) :
  Forall (fun t => valid_status (status t)) ts ->
  (count_status "pending" ts + count_status "processing" ts
   + count_status "completed" ts + count_status "failed" ts = length ts)%nat.
Proof.
  unfold count_status. induction 1 as [|t ts Ht _ IH]; [reflexivity|].
  simpl. destruct Ht as [H|[H|[H|H]]]; rewrite H; simpl; lia.
Qed.

(** C10.  Whatever the schedule of [addTask] calls, timers firing and
    suspended [processTask] invocations resuming (and [cleanup] calls),
    every stored task has one of the statuses pending, processing,
    completed and failed, and the four counts of [getQueueStats] add up to
    the number of stored tasks.  And [addTask] stores the task as pending
    whatever status the caller gave it. *)
Theorem queue_statuses_and_stats (schedule : list action) :
  (forall taskId ref,
      tasks (run schedule initial) !! taskId = Some ref ->
      exists t, objects (run schedule initial) !! ref = Some t
                /\ valid_status (status t))
  /\ Forall (fun t => valid_status (status t)) (values (run schedule initial))
  /\ (waiting (getQueueStats (run schedule initial))
      + active (getQueueStats (run schedule initial))
      + completed (getQueueStats (run schedule initial))
      + failed (getQueueStats (run schedule initial))
      = size (tasks (run schedule initial)))%nat
  /\ (forall task uuid,
        exists ref t,
          tasks (snd (addTask task uuid (run schedule initial)))
            !! fst (addTask task uuid (run schedule initial)) = Some ref
          /\ objects (snd (addTask task uuid (run schedule initial))) !! ref = Some t
          /\ status t = "pending").
Proof.
  pose proof (run_consistent schedule initial consistent_initial) as Hs.
  destruct (values_consistent _ Hs) as [Hlen Hall].
  split; [|split; [exact Hall|split]].
  - intros taskId ref H. destruct (stored_refs _ Hs taskId ref H) as [t Ht].
    exists t. split; [exact Ht|]. eapply object_statuses; [exact Hs | exact Ht].
  - simpl. rewrite count_status_sum by exact Hall. exact Hlen.
  - intros task uuid. unfold addTask. simpl.
    eexists. eexists. rewrite !lookup_insert_eq. repeat split.
Qed.

(** A task submitted as ['archived'] is stored as pending; a second task
    under the same identifier replaces it in the map, and the first
    invocation of [processTask], resuming, stores its own object again. *)
Example queue_run_example :
  let first := mkTask "a" "u1" "Daisy care" "archived" 0 None in
  let second := mkTask "" "u1" "Rose care" "completed" 0 None in
  let s := run [AddTask first "x1"; AddTask second "x2"; TimerFires "a";
                AddTask first "x3"; ProcessingDone "a" 0%nat;
                TimerFires "x2"; ProcessingThrew "x2" 1%nat "boom"] initial in
  getQueueStats s = mkStats 0 0 1 1 /\ size (tasks s) = 2%nat.
Proof. vm_compute. split; reflexivity. Qed.

End QueueFacts.

(** ** The text chunker *)

Section ChunkerFacts.

Import TextToSpeechService.

(** A text within the limit is returned whole. *)
Lemma splitTextIntoChunks_short (text : string) (maxChunkSize : Z) :
  JsString.len text <= maxChunkSize ->
  splitTextIntoChunks text maxChunkSize = [text].
Proof.
  intros H. unfold splitTextIntoChunks.
  replace (JsString.len text <=? maxChunkSize) with true by lia. reflexivity.
Qed.

Lemma len_nonneg (a : string) : 0 <= JsString.len a.
Proof. unfold JsString.len. lia. Qed.

Lemma len_append (a b : string) :
  JsString.len (a ++ b) = JsString.len a + JsString.len b.
Proof.
  unfold JsString.len. induction a as [|c a IH]; simpl; [reflexivity|].
  rewrite !Nat2Z.inj_succ. simpl in IH. lia.
Qed.

Lemma len_rev_append (a acc : string) :
  JsString.len (JsString.rev_append a acc) = JsString.len a + JsString.len acc.
Proof.
  revert acc. unfold JsString.len.
  induction a as [|c a IH]; intros acc; simpl; [reflexivity|].
  rewrite IH. simpl. lia.
Qed.

Lemma len_trimStart (a : string) : JsString.len (JsString.trimStart a) <= JsString.len a.
Proof.
  unfold JsString.len. induction a as [|c a IH]; simpl; [lia|].
  destruct (JsString.is_white_space c); simpl; lia.
Qed.

Lemma len_trim (a : string) : JsString.len (JsString.trim a) <= JsString.len a.
Proof.
  unfold JsString.trim, JsString.trimEnd, JsString.rev.
  rewrite len_rev_append.
  pose proof (len_trimStart (JsString.rev_append (JsString.trimStart a) EmptyString)) as H1.
  rewrite len_rev_append in H1.
  pose proof (len_trimStart a) as H2.
  change (JsString.len EmptyString) with 0 in *. lia.
Qed.

Lemma len_sep (a : string) :
  JsString.len (if JsString.truthy a then " " else "") <= 1.
Proof. destruct (JsString.truthy a); vm_compute; discriminate. Qed.

Lemma falsy_len (a : string) : JsString.truthy a = false -> JsString.len a = 0.
Proof. destruct a; [reflexivity | discriminate]. Qed.

(** The inner loop keeps the word chunk within the limit, and pushes only
    chunks within the limit, when every word is. *)
Lemma word_loop_within (maxChunkSize : Z) (words : list string) :
  Forall (fun w => JsString.len w <= maxChunkSize) words ->
  forall (chunks : list string) (wordChunk : string),
    Forall (fun c => JsString.len c <= maxChunkSize + 1) chunks ->
    JsString.len wordChunk <= maxChunkSize ->
    Forall (fun c => JsString.len c <= maxChunkSize + 1)
           (fst (fold_left (word_step maxChunkSize) words (chunks, wordChunk)))
    /\ JsString.len (snd (fold_left (word_step maxChunkSize) words (chunks, wordChunk)))
       <= maxChunkSize.
Proof.
  induction 1 as [|w words Hw _ IH]; intros chunks wordChunk Hc Hwc; [split; assumption|].
  simpl fold_left. unfold word_step at 2.
  pose proof (len_nonneg w) as Hw0. pose proof (len_nonneg wordChunk) as Hwc0.
  destruct (JsString.len wordChunk + JsString.len w + 1 >? maxChunkSize) eqn:Hover.
  - destruct (JsString.truthy wordChunk) eqn:Ht.
    + apply IH.
      * apply Forall_app. split; [exact Hc|].
        constructor; [|constructor]. pose proof (len_trim wordChunk). lia.
      * simpl. exact Hw.
    + apply IH; [exact Hc|]. rewrite Ht.
      rewrite (falsy_len _ Ht) in *. destruct wordChunk; [|discriminate].
      simpl. exact Hw.
  - apply IH; [exact Hc|].
    rewrite !len_append. pose proof (len_sep wordChunk). lia.
Qed.

(** One sentence more: chunks and current chunk stay within the limit plus one. *)
Lemma sentence_step_within (maxChunkSize : Z) (sentence : string)
    (chunks : list string) (currentChunk : string) :
  0 <= maxChunkSize ->
  Forall (fun w => JsString.len w <= maxChunkSize)
         (JsString.split_char " " (JsString.trim sentence ++ ".")) ->
  Forall (fun c => JsString.len c <= maxChunkSize + 1) chunks ->
  JsString.len currentChunk <= maxChunkSize + 1 ->
  Forall (fun c => JsString.len c <= maxChunkSize + 1)
         (fst (sentence_step maxChunkSize (chunks, currentChunk) sentence))
  /\ JsString.len (snd (sentence_step maxChunkSize (chunks, currentChunk) sentence))
     <= maxChunkSize + 1.
Proof.
  intros Hmax Hwords Hc Hcur. unfold sentence_step.
  destruct (negb (JsString.truthy (JsString.trim sentence))); [split; assumption|].
  set (S := (JsString.trim sentence ++ ".")%string) in *.
  destruct (JsString.len currentChunk + JsString.len S >? maxChunkSize) eqn:Hover.
  - assert (Hflush :
      Forall (fun c => JsString.len c <= maxChunkSize + 1)
             (fst (if JsString.truthy currentChunk
                   then (chunks ++ [JsString.trim currentChunk], EmptyString)
                   else (chunks, currentChunk)))
      /\ snd (if JsString.truthy currentChunk
              then (chunks ++ [JsString.trim currentChunk], EmptyString)
              else (chunks, currentChunk)) = EmptyString).
    { destruct (JsString.truthy currentChunk) eqn:Ht; simpl.
      - split; [|reflexivity]. apply Forall_app. split; [exact Hc|].
        constructor; [|constructor]. pose proof (len_trim currentChunk). lia.
      - split; [exact Hc|]. destruct currentChunk; [reflexivity | discriminate]. }
    destruct (if JsString.truthy currentChunk
              then (chunks ++ [JsString.trim currentChunk], EmptyString)
              else (chunks, currentChunk)) as [chunks1 currentChunk1].
    simpl in Hflush. destruct Hflush as [Hc1 Hcur1]. subst currentChunk1.
    destruct (JsString.len S >? maxChunkSize) eqn:Hlong.
    + destruct (word_loop_within maxChunkSize _ Hwords chunks1 EmptyString Hc1)
        as [Hc2 Hwc]; [exact Hmax|].
      destruct (fold_left (word_step maxChunkSize) (JsString.split_char " " S)
                          (chunks1, EmptyString)) as [chunks2 wordChunk].
      simpl in Hc2, Hwc.
      destruct (JsString.truthy wordChunk); simpl; (split; [exact Hc2|]);
        [lia | change (JsString.len EmptyString) with 0; lia].
    + simpl. split; [exact Hc1 | lia].
  - simpl. split; [exact Hc|].
    rewrite !len_append. pose proof (len_sep currentChunk). lia.
Qed.

Lemma sentence_loop_within (maxChunkSize : Z) (sentences : list string) :
  0 <= maxChunkSize ->
  Forall (fun sentence =>
            Forall (fun w => JsString.len w <= maxChunkSize)
                   (JsString.split_char " " (JsString.trim sentence ++ "."))) sentences ->
  forall (chunks : list string) (currentChunk : string),
    Forall (fun c => JsString.len c <= maxChunkSize + 1) chunks ->
    JsString.len currentChunk <= maxChunkSize + 1 ->
    Forall (fun c => JsString.len c <= maxChunkSize + 1)
           (fst (fold_left (sentence_step maxChunkSize) sentences (chunks, currentChunk)))
    /\ JsString.len
         (snd (fold_left (sentence_step maxChunkSize) sentences (chunks, currentChunk)))
       <= maxChunkSize + 1.
Proof.
  intros Hmax. induction 1 as [|sentence sentences Hs _ IH];
    intros chunks currentChunk Hc Hcur; [split; assumption|].
  cbn [fold_left].
  destruct (sentence_step_within maxChunkSize sentence chunks currentChunk Hmax Hs Hc Hcur)
    as [Hc' Hcur'].
  destruct (sentence_step maxChunkSize (chunks, currentChunk) sentence)
    as [chunks' currentChunk'].
  apply IH; assumption.
Qed.

(** X23.  When no word is longer than the limit, no chunk is longer than
    the limit plus one: the test on sentences leaves out at most the one
    space that joins them. *)
Lemma splitTextIntoChunks_within_limit_plus_one (text : string) (maxChunkSize : Z) :
  0 <= maxChunkSize ->
  words_fit text maxChunkSize = true ->
  Forall (fun c => JsString.len c <= maxChunkSize + 1)
         (splitTextIntoChunks text maxChunkSize).
Proof.
  intros Hmax Hfit. unfold splitTextIntoChunks.
  destruct (JsString.len text <=? maxChunkSize) eqn:Hshort.
  { constructor; [lia | constructor]. }
  assert (Hwords :
    Forall (fun sentence =>
              Forall (fun w => JsString.len w <= maxChunkSize)
                     (JsString.split_char " " (JsString.trim sentence ++ ".")))
           (JsString.split_class is_sentence_end text)).
  { unfold words_fit in Hfit. rewrite forallb_forall in Hfit.
    apply Forall_forall. intros sentence Hin.
    apply list_elem_of_In in Hin. specialize (Hfit sentence Hin).
    rewrite forallb_forall in Hfit.
    apply Forall_forall. intros w Hw. apply list_elem_of_In in Hw.
    specialize (Hfit w Hw). lia. }
  destruct (sentence_loop_within maxChunkSize _ Hmax Hwords [] EmptyString)
    as [Hc Hcur]; [constructor | change (JsString.len EmptyString) with 0; lia |].
  destruct (fold_left (sentence_step maxChunkSize)
                      (JsString.split_class is_sentence_end text) ([], EmptyString))
    as [chunks currentChunk].
  simpl in Hc, Hcur.
  destruct (JsString.truthy currentChunk); [|exact Hc].
  apply Forall_app. split; [exact Hc|].
  constructor; [|constructor]. pose proof (len_trim currentChunk). lia.
Qed.

(** C7, at the input where the code departs from it.  With a limit of 6
    the text of three short sentences is cut into two chunks, in the
    order of the text, and the first chunk has 7 characters: two sentences
    of 3 characters passed the test [3 + 3 > 6] and were then joined by a
    space, which the test does not count. *)
Lemma splitTextIntoChunks_joined_chunk_over_limit :
  JsString.len "ab. cd. e" = 9
  /\ splitTextIntoChunks "ab. cd. e" 6 = ["ab. cd."; "e."]
  /\ JsString.len "ab. cd." = 7.
Proof. vm_compute. repeat split. Qed.

(** A word longer than the limit is not cut either. *)
Example splitTextIntoChunks_long_word :
  splitTextIntoChunks "aaaaaaaaaaa bb" 5 = ["aaaaaaaaaaa"; "bb."].
Proof. vm_compute. reflexivity. Qed.

(** Chunks follow the text: sentences are packed in order, and a sentence
    longer than the limit is cut between words. *)
Example splitTextIntoChunks_example :
  splitTextIntoChunks
    "Hello world! How are you today? I am fine. This is a very long sentence without stops" 20
  = ["Hello world."; "How are you today."; "I am fine.";
     "This is a very long"; "sentence without"; "stops."].
Proof. vm_compute. reflexivity. Qed.

End ChunkerFacts.

(** * Further properties *)

(** ** Error classes and the retry helper *)

Section RetryMoreFacts.

Import Errors ErrorCatalogue.

Context {T W : Type}.
Variable operation : W -> outcome T * W.
Variables maxRetries delay : Z.

Lemma invocations_length (n : nat) :
  forall w : W, length (fst (invocations operation n w)) = n.
Proof.
  induction n as [|n IH]; intros w; simpl; [reflexivity|].
  specialize (IH (snd (operation w))).
  destruct (operation w) as [r w1]. simpl in IH.
  destruct (invocations operation n w1) as [rs w2]. simpl in IH |- *. lia.
Qed.

Lemma invocation_count_schedule (results : list (outcome T)) :
  forall k : Z,
    invocation_count (backoff_schedule maxRetries delay k results) = length results.
Proof.
  induction results as [|r rest IH]; intros k; [reflexivity|].
  destruct rest as [|r' rest]; [reflexivity|].
  change (backoff_schedule maxRetries delay k (r :: r' :: rest))
    with (EvCall k r :: EvWarn k maxRetries :: EvSleep (delay * 2 ^ (k - 1))
            :: backoff_schedule maxRetries delay (k + 1) (r' :: rest)).
  change (invocation_count
            (EvCall k r :: EvWarn k maxRetries :: EvSleep (delay * 2 ^ (k - 1))
               :: backoff_schedule maxRetries delay (k + 1) (r' :: rest)))
    with (S (invocation_count (backoff_schedule maxRetries delay (k + 1) (r' :: rest)))).
  rewrite IH. reflexivity.
Qed.

(** X1.  An operation that fails with a retryable error every time it is
    invoked is invoked exactly [maxRetries] times by [retryOperation], and
    the error of its last invocation is the one rethrown. *)
Theorem retryOperation_always_failing (w : W) :
  (forall w0, retryable_failure (fst (operation w0))) ->
  1 <= maxRetries ->
  exists (e : thrown) (w' : W) (log : list (event T)),
    retryOperation_fuel operation (Z.to_nat maxRetries) maxRetries delay w
      = Some (Threw e, w', log)
    /\ Z.of_nat (invocation_count log) = maxRetries
    /\ snd (invocations operation (Z.to_nat maxRetries) w) = w'
    /\ List.last (fst (invocations operation (Z.to_nat maxRetries) w))
                 (Threw ThrownUndefined) = Threw e.
Proof.
  intros Hfail Hmax.
  destruct (retry_loop_spec operation maxRetries delay (Z.to_nat maxRetries) 1 None w [])
    as (result & w' & results & Hrun & Hinv & Hlen & Hne & _ & Hres & Hend); [lia|].
  assert (Hne' : results <> []) by (apply Hne; lia).
  pose proof (invocations_all operation retryable_failure Hfail (length results) w) as Hall.
  rewrite Hinv in Hall. simpl in Hall.
  pose proof (last_satisfies _ results (throw_last None) Hall Hne') as Hlast.
  rewrite <- Hres in Hlast. destruct Hlast as (e & He & Hnr).
  rewrite He in Hrun, Hres, Hend.
  assert (Hfull : length results = Z.to_nat maxRetries).
  { destruct Hend as [[v Hv]|[[e' [He' Hnr']]|Hn]]; [discriminate | | exact Hn].
    inversion He'; subst. congruence. }
  rewrite Hfull in Hinv.
  exists e, w', (backoff_schedule maxRetries delay 1 results).
  split; [exact Hrun|].
  split; [rewrite invocation_count_schedule; lia|].
  rewrite Hinv. split; [reflexivity | symmetry; exact Hres].
Qed.

Lemma constructed_user_not_retryable (e : AppError) :
  constructed e -> category_of e = user ->
  retryable e = false /\ 400 <= statusCode e < 500.
Proof. intros [] Hc; simpl in *; try discriminate; split; (reflexivity || lia). Qed.

(** X2.  An error of the [user] category built by one of the error classes
    (validation, authentication, authorization, not found) is never retried:
    when the first invocation throws it, [retryOperation] rethrows it after
    that single invocation, without a warning or a sleep. *)
Theorem retryOperation_user_error_once (w w1 : W) (e : AppError) :
  constructed e ->
  category_of e = user ->
  1 <= maxRetries ->
  operation w = (Threw (ThrownApp e), w1) ->
  retryOperation_fuel operation (Z.to_nat maxRetries) maxRetries delay w
  = Some (Threw (ThrownApp e), w1, [EvCall 1 (Threw (ThrownApp e))]).
Proof.
  intros Hbuilt Huser Hmax Hop.
  destruct (constructed_user_not_retryable e Hbuilt Huser) as [Hnr _].
  unfold retryOperation_fuel.
  destruct (Z.to_nat maxRetries) as [|n] eqn:Hn; [lia|].
  simpl. replace (1 <=? maxRetries) with true by lia.
  rewrite Hop. simpl. rewrite Hnr. reflexivity.
Qed.

Lemma geometric_sum (n : nat) :
  fold_right Z.add 0 (map (fun i => delay * 2 ^ Z.of_nat i) (seq 0 n))
  = delay * (2 ^ Z.of_nat n - 1).
Proof.
  induction n as [|n IH]; [simpl; lia|].
  rewrite seq_S, map_app, fold_right_app. simpl.
  assert (Hgen : forall (l : list Z) (a : Z),
             fold_right Z.add a l = fold_right Z.add 0 l + a).
  { induction l as [|x l IHl]; intros a; simpl; [lia | rewrite IHl; lia]. }
  rewrite Hgen, IH. rewrite Nat2Z.inj_succ, Z.pow_succ_r by lia. lia.
Qed.

(** X3.  The time [retryOperation] spends sleeping is
    [delay * (2 ^ (n - 1) - 1)] for its [n] invocations, so at most
    [delay * (2 ^ (maxRetries - 1) - 1)]: three seconds with the defaults. *)
Theorem retryOperation_total_backoff (w : W) :
  1 <= maxRetries ->
  0 <= delay ->
  exists (result : outcome T) (w' : W) (log : list (event T)),
    retryOperation_fuel operation (Z.to_nat maxRetries) maxRetries delay w
      = Some (result, w', log)
    /\ 1 <= Z.of_nat (invocation_count log) <= maxRetries
    /\ total_sleep log = delay * (2 ^ (Z.of_nat (invocation_count log) - 1) - 1)
    /\ total_sleep log <= delay * (2 ^ (maxRetries - 1) - 1).
Proof.
  intros Hmax Hdelay.
  destruct (retry_loop_spec operation maxRetries delay (Z.to_nat maxRetries) 1 None w [])
    as (result & w' & results & Hrun & _ & Hlen & Hne & _); [lia|].
  assert (Hne' : results <> []) by (apply Hne; lia).
  assert (Hpos : (1 <= length results)%nat).
  { destruct results; [congruence | simpl; lia]. }
  exists result, w', (backoff_schedule maxRetries delay 1 results).
  split; [exact Hrun|].
  rewrite invocation_count_schedule.
  split; [lia|].
  assert (Hsum : total_sleep (backoff_schedule maxRetries delay 1 results)
                 = delay * (2 ^ (Z.of_nat (length results) - 1) - 1)).
  { unfold total_sleep. rewrite sleeps_backoff_schedule.
    rewrite (map_ext _ (fun i => delay * 2 ^ Z.of_nat i))
      by (intros i; f_equal; f_equal; lia).
    rewrite geometric_sum. f_equal. f_equal. f_equal. lia. }
  split; [exact Hsum|].
  rewrite Hsum. apply Z.mul_le_mono_nonneg_l; [exact Hdelay|].
  apply Z.sub_le_mono_r. apply Z.pow_le_mono_r; lia.
Qed.

End RetryMoreFacts.

(** X1 at an operation that always finds the service busy, with the defaults. *)
Lemma retryOperation_always_failing_witness :
  let busy := Errors.Threw (Errors.ThrownApp (Errors.ExternalServiceError_default "OpenAI" "busy")) in
  let operation := fun n : nat => (busy : Errors.outcome nat, S n) in
  1 <= 3
  /\ exists (e : Errors.thrown) (w' : nat) (log : list (Errors.event nat)),
       Errors.retryOperation_fuel operation (Z.to_nat 3) 3 1000 0%nat
         = Some (Errors.Threw e, w', log)
       /\ Z.of_nat (ErrorCatalogue.invocation_count log) = 3
       /\ snd (Errors.invocations operation (Z.to_nat 3) 0%nat) = w'
       /\ List.last (fst (Errors.invocations operation (Z.to_nat 3) 0%nat))
                    (Errors.Threw Errors.ThrownUndefined) = Errors.Threw e.
Proof.
  intros busy operation. split; [lia|].
  apply (retryOperation_always_failing operation 3 1000 0%nat).
  - intros w0. eexists. split; reflexivity.
  - lia.
Defined.

(** X2 at a [NotFoundError] thrown by the first invocation. *)
Lemma retryOperation_user_error_once_witness :
  let gone := Errors.Threw (Errors.ThrownApp (ErrorCatalogue.NotFoundError "Video")) in
  Errors.retryOperation_fuel (fun n : nat => (gone : Errors.outcome nat, S n))
    (Z.to_nat 3) 3 1000 0%nat
  = Some (gone, 1%nat, [Errors.EvCall 1 gone]).
Proof.
  intros gone.
  apply (retryOperation_user_error_once (fun n : nat => (gone : Errors.outcome nat, S n))
           3 1000 0%nat 1%nat (ErrorCatalogue.NotFoundError "Video")).
  - constructor.
  - reflexivity.
  - lia.
  - reflexivity.
Defined.

(** X3 at an operation that succeeds at its third invocation. *)
Lemma retryOperation_total_backoff_witness :
  let busy := Errors.Threw (Errors.ThrownApp (Errors.ExternalServiceError_default "OpenAI" "busy")) in
  let operation := fun n : nat => (if (n <? 2)%nat then busy else Errors.Returned n, S n) in
  1 <= 3 /\ 0 <= 1000
  /\ exists (result : Errors.outcome nat) (w' : nat) (log : list (Errors.event nat)),
       Errors.retryOperation_fuel operation (Z.to_nat 3) 3 1000 0%nat
         = Some (result, w', log)
       /\ 1 <= Z.of_nat (ErrorCatalogue.invocation_count log) <= 3
       /\ ErrorCatalogue.total_sleep log
          = 1000 * (2 ^ (Z.of_nat (ErrorCatalogue.invocation_count log) - 1) - 1)
       /\ ErrorCatalogue.total_sleep log <= 1000 * (2 ^ (3 - 1) - 1).
Proof.
  intros busy operation. split; [lia|]. split; [lia|].
  apply (retryOperation_total_backoff operation 3 1000 0%nat); lia.
Defined.

(** ** Keywords *)

Section KeywordFacts.

Import VisualContentService VisualVocabulary.

Lemma string_forall_app (p : ascii -> bool) (a b : string) :
  string_forall p (a ++ b) = string_forall p a && string_forall p b.
Proof.
  induction a as [|c a IH]; simpl; [reflexivity|].
  rewrite IH. apply andb_assoc.
Qed.

(** The fields of a split hold no character of the separating class. *)
Lemma split_runs_fields (p q : ascii -> bool) (s : string) :
  forall (field : string) (in_run : bool),
    string_forall q field = true ->
    string_forall (fun c => p c || q c) s = true ->
    Forall (fun f => string_forall (fun c => negb (p c) && q c) f = true
                     \/ f = EmptyString \/ string_forall q f = true)
           (JsString.split_runs p s field in_run).
Proof.
  induction s as [|c s IH]; intros field in_run Hf Hs; simpl in *.
  - constructor; [right; right; exact Hf | constructor].
  - apply andb_true_iff in Hs. destruct Hs as [Hc Hs].
    destruct (p c) eqn:Hp.
    + destruct in_run.
      * apply IH; [reflexivity | exact Hs].
      * constructor; [right; right; exact Hf|]. apply IH; [reflexivity | exact Hs].
    + apply IH; [|exact Hs]. rewrite string_forall_app, Hf. simpl.
      simpl in Hc. rewrite Hc. reflexivity.
Qed.

Lemma split_class_fields (p q : ascii -> bool) (s : string) :
  string_forall (fun c => p c || q c) s = true ->
  Forall (fun f => string_forall q f = true) (JsString.split_class p s).
Proof.
  intros Hs. unfold JsString.split_class.
  eapply Forall_impl; [apply (split_runs_fields p q s EmptyString false eq_refl Hs)|].
  simpl. intros f [H|[H|H]]; [|subst; reflexivity | exact H].
  clear - H. induction f as [|c f IH]; simpl in *; [reflexivity|].
  apply andb_true_iff in H. destruct H as [Hc Hf].
  apply andb_true_iff in Hc. destruct Hc as [_ Hq].
  rewrite Hq, (IH Hf). reflexivity.
Qed.

Lemma string_forall_map_chars (p : ascii -> bool) (f : ascii -> ascii) (s : string) :
  (forall c, p (f c) = true) -> string_forall p (JsString.map_chars f s) = true.
Proof.
  intros H. induction s as [|c s IH]; simpl; [reflexivity|].
  rewrite H. exact IH.
Qed.

(** After lower-casing and cleaning, a character is white space or a
    keyword character. *)
Lemma cleaned_char (c : ascii) :
  let c1 := JsString.lower_char c in
  let c2 := if JsString.is_word_char c1 || JsString.is_white_space c1 then c1 else " "%char in
  JsString.is_white_space c2 || is_keyword_char c2 = true.
Proof.
  destruct c as [[|] [|] [|] [|] [|] [|] [|] [|]]; vm_compute; reflexivity.
Qed.

Lemma map_chars_compose (f g : ascii -> ascii) (s : string) :
  JsString.map_chars g (JsString.map_chars f s) = JsString.map_chars (fun c => g (f c)) s.
Proof. induction s as [|c s IH]; simpl; [reflexivity | rewrite IH; reflexivity]. Qed.

Lemma unique_spec (words : list string) :
  forall seen : list string,
    NoDup (unique seen words)
    /\ forall w, In w (unique seen words) -> In w words /\ has seen w = false.
Proof.
  induction words as [|w words IH]; intros seen; simpl.
  - split; [constructor | intros w []].
  - destruct (has seen w) eqn:Hseen.
    + destruct (IH seen) as [Hnd Hin]. split; [exact Hnd|].
      intros x Hx. destruct (Hin x Hx). split; [right|]; assumption.
    + destruct (IH (w :: seen)) as [Hnd Hin]. split.
      * constructor; [|exact Hnd]. intros Hw.
        apply list_elem_of_In in Hw.
        destruct (Hin w Hw) as [_ Hhas]. unfold has in Hhas. simpl in Hhas.
        rewrite String.eqb_refl in Hhas. discriminate.
      * intros x [Hx|Hx]; [subst; split; [left; reflexivity | exact Hseen]|].
        destruct (Hin x Hx) as [Hxw Hhas]. split; [right; exact Hxw|].
        unfold has in *. simpl in Hhas. apply orb_false_iff in Hhas. tauto.
Qed.

Lemma firstn_NoDup {A : Type} (n : nat) (l : list A) :
  NoDup l -> NoDup (firstn n l).
Proof. intros H. exact (sublist_NoDup _ _ H (sublist_take l n)). Qed.

End KeywordFacts.

(** X4.  [extractKeywords] returns at most 5 keywords, all different, each
    longer than 2 characters, none a stop word, and each made of lower-case
    letters, digits and underscores only. *)
Theorem extractKeywords_shape (topic : string) :
  (length (VisualContentService.extractKeywords topic) <= 5)%nat
  /\ NoDup (VisualContentService.extractKeywords topic)
  /\ Forall (fun k =>
               2 < JsString.len k
               /\ VisualContentService.has VisualContentService.stopWords k = false
               /\ VisualVocabulary.string_forall VisualVocabulary.is_keyword_char k = true)
            (VisualContentService.extractKeywords topic).
Proof.
  unfold VisualContentService.extractKeywords. cbv zeta.
  set (cleaned := JsString.map_chars _ (JsString.toLowerCase topic)).
  set (words := List.filter _ (JsString.split_class JsString.is_white_space cleaned)).
  destruct (unique_spec words []) as [Hnd Hin].
  split; [apply List.firstn_le_length|].
  split; [apply firstn_NoDup; exact Hnd|].
  apply Forall_forall. intros k Hk.
  apply (subseteq_take 5) in Hk. apply list_elem_of_In in Hk.
  destruct (Hin k Hk) as [Hw _].
  unfold words in Hw. apply filter_In in Hw. destruct Hw as [Hfield Hpred].
  apply andb_true_iff in Hpred. destruct Hpred as [Hlen Hstop].
  split; [lia|]. split; [destruct (VisualContentService.has _ k); [discriminate | reflexivity]|].
  assert (Hclean :
    VisualVocabulary.string_forall
      (fun c => JsString.is_white_space c || VisualVocabulary.is_keyword_char c) cleaned = true).
  { unfold cleaned, JsString.toLowerCase. rewrite map_chars_compose.
    apply string_forall_map_chars. intros c. apply cleaned_char. }
  pose proof (split_class_fields _ _ _ Hclean) as Hall.
  rewrite Forall_forall in Hall. apply Hall. apply list_elem_of_In. exact Hfield.
Qed.

Example extractKeywords_example :
  VisualContentService.extractKeywords "How to care for Daisy flowers: the daisy  Guide!"
  = ["care"; "daisy"; "flowers"; "guide"].
Proof. vm_compute. reflexivity. Qed.

(** ** More on the timeline and the visual stage *)

Section VisualStageMoreFacts.

Import Errors VisualContentService VisualVocabulary.

(** The walk turns a first part of the positive assets into slices, all at
    full duration except possibly the last. *)
Lemma walk_slices (T : Z) (rest : list VisualContent) :
  forall (timed : list VisualContent) (cur : Z),
    exists added used unused : list VisualContent,
      walk rest T timed cur = timed ++ added
      /\ List.filter has_positive_duration rest = used ++ unused
      /\ Forall2 slice_of added used
      /\ Forall2 full_slice_of (removelast added) (removelast used).
Proof.
  induction rest as [|v rest IH]; intros timed cur.
  - exists [], [], []. simpl. rewrite app_nil_r. repeat split; constructor.
  - simpl walk. destruct (cur <? T) eqn:Hcur.
    2:{ exists [], [], (List.filter has_positive_duration (v :: rest)).
        rewrite app_nil_r. repeat split; constructor. }
    destruct (Z.min (duration v) (T - cur) >? 0) eqn:Hd.
    + assert (Hpos : has_positive_duration v = true)
        by (unfold has_positive_duration; lia).
      set (s := with_timing v cur (Z.min (duration v) (T - cur))).
      destruct (IH (timed ++ [s]) (cur + Z.min (duration v) (T - cur)))
        as (added & used & unused & Hwalk & Hfilter & Hall & Hfull).
      exists (s :: added), (v :: used), unused.
      split; [rewrite Hwalk, <- app_assoc; reflexivity|].
      split; [simpl; rewrite Hpos, Hfilter; reflexivity|].
      split; [constructor; [repeat split; simpl; lia | exact Hall]|].
      destruct added as [|a added].
      * inversion Hall; subst. constructor.
      * inversion Hall as [|? u ? used' Hau Hrest]; subst.
        change (removelast (s :: a :: added)) with (s :: removelast (a :: added)).
        change (removelast (v :: u :: used')) with (v :: removelast (u :: used')).
        constructor; [|exact Hfull].
        destruct (Z.le_gt_cases (duration v) (T - cur)) as [Hle|Hgt].
        { repeat split; simpl; lia. }
        exfalso.
        rewrite walk_done in Hwalk by lia.
        rewrite <- (app_nil_r (timed ++ [s])) in Hwalk at 1.
        apply app_inv_head in Hwalk. discriminate.
    + assert (Hpos : has_positive_duration v = false)
        by (unfold has_positive_duration; lia).
      destruct (IH timed cur) as (added & used & unused & Hwalk & Hfilter & Hall & Hfull).
      exists added, used, unused. simpl. rewrite Hpos. auto.
Qed.

(** X5.  Every slice of the timeline shows an asset of the list, taken in
    the order of the list over at most three passes, for a positive time
    that is at most its nominal duration; only the last slice can be cut
    short; and there are at most [visuals.length * 3] slices. *)
Theorem assignTimingToVisuals_slices (visuals : list VisualContent) (totalDuration : Z) :
  exists used unused : list VisualContent,
    List.filter has_positive_duration (three_passes visuals) = used ++ unused
    /\ Forall2 slice_of (assignTimingToVisuals visuals totalDuration) used
    /\ Forall2 full_slice_of (removelast (assignTimingToVisuals visuals totalDuration))
                             (removelast used)
    /\ (length (assignTimingToVisuals visuals totalDuration) <= length visuals * 3)%nat.
Proof.
  rewrite assignTimingToVisuals_walk.
  destruct (walk_slices totalDuration (three_passes visuals) [] 0)
    as (added & used & unused & Hwalk & Hfilter & Hall & Hfull).
  simpl in Hwalk. rewrite Hwalk.
  exists used, unused. repeat split; try assumption.
  rewrite (Forall2_length _ _ _ Hall).
  rewrite <- three_passes_length.
  transitivity (length (List.filter has_positive_duration (three_passes visuals))).
  - rewrite Hfilter, length_app. lia.
  - apply List.filter_length_le.
Qed.

End VisualStageMoreFacts.

(** ** The searches with their handlers *)

Section VisualHandlerFacts.

Import Errors VisualContentService.

Variable env : environment.
Variable encodeURIComponent : string -> option string.











End VisualHandlerFacts.

(** A search that fails with an error object is made up for with
    placeholders, and one that is rejected with [undefined] fails the
    stage, from the handler that reads the message. *)
Example findVisualContent_handler_example :
  let failing (e : Errors.thrown) :=
    {| VisualContentService.unsplashAccessKey := "key";
       VisualContentService.pexelsApiKey := "";
       VisualContentService.unsplash_get := fun _ _ => Errors.Threw e;
       VisualContentService.pexels_get := fun _ _ => Errors.Returned None |} in
  let encode := fun s => Some (JsString.encodeURIComponent s) in
  option_map (@length _)
    (match VisualStage.findVisualContent (failing (Errors.ThrownError "timeout")) encode
             "Daisy care" 33 with
     | Errors.Returned timed => Some timed
     | Errors.Threw _ => None
     end) = Some 7%nat
  /\ VisualStage.findVisualContent (failing Errors.ThrownUndefined) encode "Daisy care" 33
     = Errors.Threw (Errors.ThrownApp
         (Errors.ExternalServiceError "VisualContent"
            "Failed to find visual content: TypeError: Cannot read properties of undefined (reading 'message')"
            true)).
Proof. split; vm_compute; reflexivity. Qed.


(** ** The visual stage without API keys *)

Section PlaceholderFacts.

Import Errors VisualContentService VisualVocabulary.

(** From 30 to 1800 seconds the number of visuals asked for is the exact
    ceiling of [duration / 5], and the share of 70 % lies between 0 and it. *)
Lemma needed_and_share (duration : Z) :
  30 <= duration <= 1800 ->
  neededVisuals duration = (duration + 4) / 5
  /\ 0 <= share (neededVisuals duration) JsNumber.lit_0_7 <= neededVisuals duration.
Proof.
  intros H.
  pose proof (checked_on_range
                (fun d => (neededVisuals d =? (d + 4) / 5)
                          && (0 <=? share (neededVisuals d) JsNumber.lit_0_7)
                          && (share (neededVisuals d) JsNumber.lit_0_7 <=? neededVisuals d))
                30 1771) as Hc.
  specialize (Hc ltac:(vm_compute; reflexivity) duration ltac:(lia)).
  cbv beta in Hc. lia.
Qed.

Lemma generatePlaceholderImages_length (keywords : list string) (count : Z) :
  length (generatePlaceholderImages keywords count) = Z.to_nat count.
Proof. unfold generatePlaceholderImages. rewrite length_map, length_seq. reflexivity. Qed.

Lemma positive_total_uniform (l : list VisualContent) :
  Forall (fun v => type v = image /\ duration v = 5) l ->
  positive_total l = 5 * Z.of_nat (length l).
Proof.
  induction 1 as [|v l [_ Hv] _ IH]; [reflexivity|].
  simpl positive_total. simpl length. rewrite IH, Hv. lia.
Qed.

Lemma total_duration_uniform (l : list VisualContent) :
  Forall (fun s => duration s = 5) l -> total_duration l = 5 * Z.of_nat (length l).
Proof.
  induction 1 as [|v l Hv _ IH]; [reflexivity|].
  simpl total_duration. simpl length. rewrite IH, Hv. lia.
Qed.

Lemma Forall_removelast {A : Type} (P : A -> Prop) (l : list A) :
  Forall P l -> Forall P (removelast l).
Proof.
  induction 1 as [|x l Hx Hl IH]; [constructor|].
  destruct l as [|y l]; [constructor|].
  change (removelast (x :: y :: l)) with (x :: removelast (y :: l)).
  constructor; assumption.
Qed.

Lemma Forall2_transfer {A B : Type} (R : A -> B -> Prop) (P : A -> Prop) (Q : B -> Prop)
    (l1 : list A) (l2 : list B) :
  (forall x y, R x y -> Q y -> P x) ->
  Forall2 R l1 l2 -> Forall Q l2 -> Forall P l1.
Proof.
  intros H. induction 1 as [|x y l1 l2 Hxy _ IH]; intros HQ; [constructor|].
  inversion HQ; subst. constructor; [eapply H; eassumption | apply IH; assumption].
Qed.

(** X7.  With neither an Unsplash nor a Pexels key configured, the stage
    builds its timeline from placeholder images alone, and that timeline
    covers the duration exactly: it is contiguous from 0, its durations sum
    to the duration asked for, it has [ceil (seconds / 5)] slices, and each
    slice is an image shown for at most 5 seconds. *)
Theorem findVisualContent_placeholders_cover
    (env : environment) (topic : string) (seconds : Z) :
  unsplashAccessKey env = EmptyString ->
  pexelsApiKey env = EmptyString ->
  JsString.trim topic <> EmptyString ->
  30 <= seconds <= 1800 ->
  exists timed : list VisualContent,
    findVisualContent env topic seconds = Returned timed
    /\ contiguous_from 0 timed
    /\ total_duration timed = seconds
    /\ Z.of_nat (length timed) = (seconds + 4) / 5
    /\ Forall (fun s => type s = image /\ 0 < duration s <= 5) timed.
Proof.
  intros Hunsplash Hpexels Htopic Hdur.
  destruct (needed_and_share seconds Hdur) as [Hneeded [Hshare0 Hshare]].
  unfold findVisualContent, findVisualContent_body.
  rewrite (topic_check_passes topic Htopic).
  replace ((seconds <? 30) || (seconds >? 1800)) with false by lia.
  unfold searchUnsplashImages. rewrite Hunsplash, Hpexels. simpl negb. simpl JsString.truthy.
  cbv iota.
  set (needed := neededVisuals seconds) in *.
  set (first := generatePlaceholderImages (extractKeywords topic)
                  (share needed JsNumber.lit_0_7)).
  set (all := if Z.of_nat (length first) <? needed
              then first ++ generatePlaceholderImages [topic]
                              (needed - Z.of_nat (length first))
              else first).
  assert (Hfirst : Z.of_nat (length first) = share needed JsNumber.lit_0_7).
  { unfold first. rewrite generatePlaceholderImages_length. lia. }
  assert (Hlen : Z.of_nat (length all) = needed).
  { unfold all. destruct (Z.of_nat (length first) <? needed) eqn:Hlt; [|lia].
    rewrite length_app, generatePlaceholderImages_length. lia. }
  assert (Himg : Forall (fun v => type v = image /\ duration v = 5) all).
  { unfold all. destruct (Z.of_nat (length first) <? needed).
    - apply Forall_app. split; apply generatePlaceholderImages_nominal.
    - apply generatePlaceholderImages_nominal. }
  assert (Hceil : seconds <= 5 * needed < seconds + 5).
  { pose proof (Z.div_mod (seconds + 4) 5 ltac:(lia)) as Hdm.
    pose proof (Z.mod_pos_bound (seconds + 4) 5 ltac:(lia)) as Hmod.
    rewrite <- Hneeded in Hdm. lia. }
  exists (assignTimingToVisuals all seconds). split; [reflexivity|].
  rewrite assignTimingToVisuals_walk.
  destruct (walk_invariant seconds (three_passes all) [] 0)
    as (Hc & _ & Ht); [exact I | reflexivity | constructor |].
  rewrite positive_total_three_passes, (positive_total_uniform all Himg), Hlen in Ht.
  assert (Htotal : total_duration (walk (three_passes all) seconds [] 0) = seconds)
    by (rewrite Ht; lia).
  destruct (walk_slices seconds (three_passes all) [] 0)
    as (added & used & unused & Hwalk & Hfilter & Hall & Hfull).
  simpl in Hwalk. rewrite Hwalk in *.
  assert (Hused : Forall (fun v => type v = image /\ duration v = 5) used).
  { assert (H3 : Forall (fun v => type v = image /\ duration v = 5) (three_passes all)).
    { unfold three_passes. repeat (apply Forall_app; split); exact Himg. }
    assert (Hf : Forall (fun v => type v = image /\ duration v = 5) (used ++ unused)).
    { rewrite <- Hfilter. apply Forall_forall. intros v Hv.
      apply list_elem_of_In in Hv. apply filter_In in Hv. destruct Hv as [Hv _].
      rewrite Forall_forall in H3. apply H3. apply list_elem_of_In. exact Hv. }
    apply Forall_app in Hf. tauto. }
  assert (Hslices : Forall (fun s => type s = image /\ 0 < duration s <= 5) added).
  { eapply (Forall2_transfer slice_of); [|exact Hall | exact Hused].
    intros s v (Hty & _ & _ & Hd) [Hvt Hvd]. split; [congruence | lia]. }
  split; [exact Hc|]. split; [exact Htotal|]. split; [|exact Hslices].
  assert (Hfront : Forall (fun s => duration s = 5) (removelast added)).
  { eapply (Forall2_transfer full_slice_of);
      [|exact Hfull | exact (Forall_removelast _ _ Hused)].
    intros s v (_ & _ & _ & Hd) [_ Hvd]. simpl. lia. }
  destruct (exists_last (l := added)) as (front & z & Hsplit).
  { intros Hnil. rewrite Hnil in Htotal. simpl in Htotal. lia. }
  rewrite Hsplit in *. rewrite removelast_last in Hfront.
  rewrite total_duration_app, (total_duration_uniform front Hfront) in Htotal.
  simpl in Htotal.
  apply Forall_app in Hslices. destruct Hslices as [_ Hz].
  inversion Hz as [|? ? [_ Hzd] _]; subst.
  rewrite length_app. simpl length.
  rewrite Nat2Z.inj_add. simpl Z.of_nat.
  rewrite <- Hneeded. lia.
Qed.

Lemma findVisualContent_placeholders_cover_witness :
  let env := {| unsplashAccessKey := ""; pexelsApiKey := "";
                unsplash_get := fun _ _ => Threw (ThrownError "offline");
                pexels_get := fun _ _ => Threw (ThrownError "offline") |} in
  JsString.trim "Daisy care" = "Daisy care"
  /\ 30 <= 33 <= 1800
  /\ exists timed : list VisualContent,
       findVisualContent env "Daisy care" 33 = Returned timed
       /\ contiguous_from 0 timed
       /\ total_duration timed = 33
       /\ Z.of_nat (length timed) = (33 + 4) / 5
       /\ Forall (fun s => type s = image /\ 0 < duration s <= 5) timed.
Proof.
  intros env. split; [reflexivity|]. split; [lia|].
  apply (findVisualContent_placeholders_cover env "Daisy care" 33).
  - reflexivity.
  - reflexivity.
  - vm_compute. discriminate.
  - lia.
Defined.

End PlaceholderFacts.

(** ** The cache and the production service *)

Section CacheFacts.

Import Errors ErrorCatalogue VisualContentService Effect VisualCache.

Context {W : Type}.
Variable env : environment.
Variable cacheDir : string.
Variable path_join : string -> string -> string.
Variable uuidv4 : M W string.
Variable fs_mkdir : string -> M W unit.
Variable http_get : string -> M W Buffer.
Variable fs_writeFile : string -> Buffer -> M W unit.

Local Abbreviation download := (downloadAndCacheVisual cacheDir path_join uuidv4 fs_mkdir http_get fs_writeFile).
Local Abbreviation cache_loop := (cache_each cacheDir path_join uuidv4 fs_mkdir http_get fs_writeFile).
Local Abbreviation cached_visual := (cached_from cacheDir path_join).

(** A download that succeeds returns a path in the cache directory, named
    after the kind of the visual and a fresh identifier; one that fails
    throws a [FileStorageError]. *)
Lemma downloadAndCacheVisual_result (visual : VisualContent) (w : W) :
  (exists visualId w',
      download visual w
      = (Returned (path_join cacheDir (cache_file_name visual visualId)), w'))
  \/ (exists msg w',
         download visual w
         = (Threw (ThrownApp (FileStorageError
                     ("Failed to cache visual content: " ++ msg) true)), w')).
Proof.
  unfold downloadAndCacheVisual, try_catch, bind, ret, throw.
  destruct (uuidv4 w) as [[visualId|e] w1]; [|right; eauto].
  destruct (fs_mkdir cacheDir w1) as [[[]|e] w2]; [|right; eauto].
  destruct (http_get (source visual) w2) as [[response|e] w3]; [|right; eauto].
  destruct (fs_writeFile _ response w3) as [[[]|e] w4]; [|right; eauto].
  left. eauto.
Qed.

Lemma cache_each_spec (visuals : list VisualContent) :
  forall (cachedVisuals : list VisualContent) (w : W),
    exists (added : list VisualContent) (w' : W),
      cache_loop visuals cachedVisuals w = (Returned (cachedVisuals ++ added), w')
      /\ Forall2 cached_visual added visuals.
Proof.
  induction visuals as [|v visuals IH]; intros cachedVisuals w.
  - exists [], w. simpl. unfold ret. rewrite app_nil_r. split; [reflexivity | constructor].
  - simpl. unfold bind at 1. unfold try_catch at 1. unfold bind at 1.
    destruct (downloadAndCacheVisual_result v w) as [(visualId & w1 & H)|(msg & w1 & H)];
      rewrite H.
    + unfold ret at 1.
      destruct (IH (cachedVisuals ++
                      [with_source v (path_join cacheDir (cache_file_name v visualId))]) w1)
        as (added & w' & Hrun & Hall).
      exists (with_source v (path_join cacheDir (cache_file_name v visualId)) :: added), w'.
      split; [rewrite Hrun, <- app_assoc; reflexivity|].
      constructor; [|exact Hall].
      repeat split; try reflexivity. right. exists visualId. reflexivity.
    + unfold ret at 1.
      destruct (IH (cachedVisuals ++ [v]) w1) as (added & w' & Hrun & Hall).
      exists (v :: added), w'.
      split; [rewrite Hrun, <- app_assoc; reflexivity|].
      constructor; [|exact Hall].
      repeat split; try reflexivity. left. reflexivity.
Qed.

Lemma cached_keeps_timing (cached visuals : list VisualContent) :
  Forall2 cached_visual cached visuals ->
  total_duration cached = total_duration visuals
  /\ forall t, contiguous_from t visuals -> contiguous_from t cached.
Proof.
  induction 1 as [|c v cached visuals (_ & Hd & Hs & _) _ [IHt IHc]];
    [split; [reflexivity | intros t H; exact H]|].
  split; [simpl; lia|].
  intros t [Hv Hrest]. simpl. split; [congruence|].
  rewrite Hd. apply IHc. exact Hrest.
Qed.

(** What a timeline returned by the visual stage always satisfies. *)
Lemma findVisualContent_timeline (topic : string) (seconds : Z) (visuals : list VisualContent) :
  findVisualContent env topic seconds = Returned visuals ->
  contiguous_from 0 visuals
  /\ Forall (fun s => 0 < duration s) visuals
  /\ (30 <= seconds -> total_duration visuals <= seconds).
Proof.
  unfold findVisualContent, findVisualContent_body.
  destruct (negb (JsString.truthy topic) || (JsString.len (JsString.trim topic) =? 0));
    [simpl; discriminate|].
  destruct ((seconds <? 30) || (seconds >? 1800)); [simpl; discriminate|].
  intros H. inversion H as [Hv]. clear H Hv.
  rewrite assignTimingToVisuals_walk.
  match goal with |- context [walk ?l seconds [] 0] =>
    destruct (walk_invariant seconds l [] 0) as (Hc & Hp & Ht);
      [exact I | reflexivity | constructor |]
  end.
  split; [exact Hc|]. split; [exact Hp|]. intros Hs. rewrite Ht. lia.
Qed.

(** The run of [getVisualContentWithCache] once the visual stage has
    returned: one cached visual per slice, and no error. *)
Lemma getVisualContentWithCache_returned
    (topic : string) (seconds : Z) (visuals : list VisualContent) (w : W) :
  findVisualContent env topic seconds = Returned visuals ->
  exists (cached : list VisualContent) (w' : W),
    getVisualContentWithCache env cacheDir path_join uuidv4 fs_mkdir http_get
      fs_writeFile topic seconds w = (Returned cached, w')
    /\ Forall2 cached_visual cached visuals
    /\ contiguous_from 0 cached
    /\ total_duration cached = total_duration visuals.
Proof.
  intros Hfind.
  destruct (cache_each_spec visuals [] w) as (added & w' & Hrun & Hall).
  exists added, w'.
  destruct (cached_keeps_timing _ _ Hall) as [Ht Hc].
  destruct (findVisualContent_timeline _ _ _ Hfind) as [Hcont _].
  split; [|split; [exact Hall | split; [apply Hc; exact Hcont | exact Ht]]].
  unfold getVisualContentWithCache, try_catch, bind, lift.
  rewrite Hfind, Hrun. reflexivity.
Qed.

Local Abbreviation cache_run := (cached_run cacheDir path_join uuidv4 fs_mkdir http_get fs_writeFile).

(** Either all four steps of a download succeeded, and it returns the path
    of the file written, or one of them failed, and it throws. *)
Lemma downloadAndCacheVisual_steps (visual : VisualContent) (w : W) :
  (exists filePath w',
      download visual w = (Returned filePath, w')
      /\ downloaded cacheDir path_join uuidv4 fs_mkdir http_get fs_writeFile
           visual w filePath w')
  \/ (exists e w',
         download visual w = (Threw e, w')
         /\ download_failed cacheDir path_join uuidv4 fs_mkdir http_get fs_writeFile
              visual w w').
Proof.
  unfold downloadAndCacheVisual, downloaded, download_failed, try_catch, bind, ret, throw.
  destruct (uuidv4 w) as [[visualId|e] w1] eqn:Hid;
    [|right; eexists; eexists; split; [reflexivity | left; eauto]].
  destruct (fs_mkdir cacheDir w1) as [[[]|e] w2] eqn:Hdir;
    [|right; eexists; eexists; split;
      [reflexivity | right; exists visualId, w1; split; [reflexivity | left; eauto]]].
  destruct (http_get (source visual) w2) as [[response|e] w3] eqn:Hget;
    [|right; eexists; eexists; split;
      [reflexivity
      | right; exists visualId, w1; split;
        [reflexivity | right; exists w2; split; [exact Hdir | left; eauto]]]].
  destruct (fs_writeFile _ response w3) as [[[]|e] w4] eqn:Hwrite.
  - left. eexists. eexists. split; [reflexivity|].
    exists visualId, response, w1, w2, w3. repeat split; assumption.
  - right. eexists. eexists. split; [reflexivity|].
    right. exists visualId, w1. split; [reflexivity|].
    right. exists w2. split; [exact Hdir|].
    right. exists response, w3. split; [exact Hget | eauto].
Qed.

Lemma cache_each_run (visuals : list VisualContent) :
  forall (cachedVisuals : list VisualContent) (w : W),
    exists (added : list VisualContent) (w' : W),
      cache_loop visuals cachedVisuals w = (Returned (cachedVisuals ++ added), w')
      /\ cache_run visuals added w w'.
Proof.
  induction visuals as [|v visuals IH]; intros cachedVisuals w.
  - exists [], w. simpl. unfold ret. rewrite app_nil_r. split; reflexivity.
  - simpl cache_each. unfold bind at 1. unfold try_catch at 1. unfold bind at 1.
    destruct (downloadAndCacheVisual_steps v w)
      as [(filePath & w1 & H & Hdone)|(e & w1 & H & Hfailed)]; rewrite H.
    + unfold ret at 1.
      destruct (IH (cachedVisuals ++ [with_source v filePath]) w1)
        as (added & w' & Hrun & Hrest).
      exists (with_source v filePath :: added), w'.
      split; [rewrite Hrun, <- app_assoc; reflexivity|].
      simpl. exists w1. split; [left; eauto | exact Hrest].
    + unfold ret at 1.
      destruct (IH (cachedVisuals ++ [v]) w1) as (added & w' & Hrun & Hrest).
      exists (v :: added), w'.
      split; [rewrite Hrun, <- app_assoc; reflexivity|].
      simpl. exists w1. split; [right; split; [exact Hfailed | reflexivity] | exact Hrest].
Qed.

Lemma cached_run_from (visuals : list VisualContent) :
  forall (cached : list VisualContent) (w w' : W),
    cache_run visuals cached w w' -> Forall2 cached_visual cached visuals.
Proof.
  induction visuals as [|v visuals IH]; intros [|c cached] w w' H; simpl in H;
    try contradiction; [constructor|].
  destruct H as (w1 & Hc & Hrest).
  constructor; [|exact (IH _ _ _ Hrest)].
  destruct Hc as [(filePath & Hdone & ->)|[_ ->]].
  - destruct Hdone as (visualId & response & wa & wb & wc & _ & -> & _).
    repeat split; try reflexivity. right. exists visualId. reflexivity.
  - repeat split; try reflexivity. left. reflexivity.
Qed.

(** X8.  Caching never fails the request and never disturbs the timeline.
    When the visual stage throws, [getVisualContentWithCache] rethrows the
    same error without touching the cache.  Otherwise it returns one visual
    per slice, in order: a slice whose download succeeded (an identifier
    drawn, the directory made, the bytes behind its source fetched and
    written) comes back with the path of the file written as its source,
    and a slice for which one of these steps failed comes back as it was;
    the downloads run one after the other, each in the world the one before
    left.  The kind, duration, start time and address of every slice are
    kept, so the cached timeline is contiguous from 0 and lasts as long as
    the original. *)
Theorem getVisualContentWithCache_keeps_timeline (topic : string) (seconds : Z) (w : W) :
  match findVisualContent env topic seconds with
  | Threw e =>
      getVisualContentWithCache env cacheDir path_join uuidv4 fs_mkdir http_get
        fs_writeFile topic seconds w = (Threw e, w)
  | Returned visuals =>
      exists (cached : list VisualContent) (w' : W),
        getVisualContentWithCache env cacheDir path_join uuidv4 fs_mkdir http_get
          fs_writeFile topic seconds w = (Returned cached, w')
        /\ cache_run visuals cached w w'
        /\ Forall2 cached_visual cached visuals
        /\ contiguous_from 0 cached
        /\ total_duration cached = total_duration visuals
  end.
Proof.
  destruct (findVisualContent env topic seconds) as [visuals|e] eqn:Hfind.
  - destruct (cache_each_run visuals [] w) as (cached & w' & Hrun & Hsteps).
    pose proof (cached_run_from _ _ _ _ Hsteps) as Hall.
    destruct (cached_keeps_timing _ _ Hall) as [Ht Hc].
    destruct (findVisualContent_timeline _ _ _ Hfind) as [Hcont _].
    exists cached, w'.
    split; [|split; [exact Hsteps | split; [exact Hall | split;
                                            [apply Hc; exact Hcont | exact Ht]]]].
    unfold getVisualContentWithCache, try_catch, bind, lift.
    rewrite Hfind, Hrun. reflexivity.
  - unfold getVisualContentWithCache, try_catch, bind, lift, throw.
    rewrite Hfind. reflexivity.
Qed.

(** X9.  [VideoProductionServiceImpl.findVisualContent] never returns an
    empty list.  For a valid topic and duration, when the visual content
    service has no slice to offer it throws a [VideoProcessingError], which
    is retryable; otherwise it returns the cached slices, a timeline that
    is not empty, contiguous from 0, and lasts a positive time no longer
    than the duration asked for. *)
Theorem production_findVisualContent_never_empty (topic : string) (seconds : Z) (w : W) :
  JsString.trim topic <> EmptyString ->
  30 <= seconds <= 1800 ->
  match findVisualContent env topic seconds with
  | Returned [] =>
      fst (VideoProduction.findVisualContent
             (getVisualContentWithCache env cacheDir path_join uuidv4 fs_mkdir http_get
                fs_writeFile) topic seconds w)
      = Threw (ThrownApp (VideoProcessingError "No visual content found for topic" true))
  | Returned (v :: vs) =>
      exists cached : list VisualContent,
        fst (VideoProduction.findVisualContent
               (getVisualContentWithCache env cacheDir path_join uuidv4 fs_mkdir http_get
                  fs_writeFile) topic seconds w)
        = Returned cached
        /\ cached <> []
        /\ Forall2 cached_visual cached (v :: vs)
        /\ contiguous_from 0 cached
        /\ 0 < total_duration cached <= seconds
  | Threw _ => False
  end.
Proof.
  intros Htopic Hdur.
  destruct (findVisualContent env topic seconds) as [visuals|e] eqn:Hfind.
  2:{ unfold findVisualContent, findVisualContent_body in Hfind.
      rewrite (topic_check_passes topic Htopic) in Hfind.
      replace ((seconds <? 30) || (seconds >? 1800)) with false in Hfind by lia.
      discriminate. }
  destruct (getVisualContentWithCache_returned topic seconds visuals w Hfind)
    as (cached & w' & Hrun & Hall & Hcont & Htotal).
  destruct (findVisualContent_timeline _ _ _ Hfind) as (_ & Hpos & Hle).
  unfold VideoProduction.findVisualContent, try_catch, bind, throw, ret.
  rewrite (topic_check_passes topic Htopic).
  replace ((seconds <? 30) || (seconds >? 1800)) with false by lia.
  rewrite Hrun.
  destruct visuals as [|v vs].
  - inversion Hall; subst. reflexivity.
  - inversion Hall as [|c ? cached' ? Hcv Hrest]; subst. simpl.
    exists (c :: cached').
    split; [reflexivity|]. split; [discriminate|].
    split; [exact Hall|]. split; [exact Hcont|].
    rewrite Htotal. split; [|apply Hle; lia].
    inversion Hpos as [|? ? Hv Hvs]; subst. simpl.
    assert (Hnn : forall l, Forall (fun s => 0 < duration s) l -> 0 <= total_duration l).
    { induction 1; simpl; lia. }
    specialize (Hnn vs Hvs). lia.
Qed.

End CacheFacts.

(** X9 with no API key and a network that is down: the placeholders are
    kept with their original sources. *)
Lemma production_findVisualContent_never_empty_witness :
  let env := {| VisualContentService.unsplashAccessKey := "";
                VisualContentService.pexelsApiKey := "";
                VisualContentService.unsplash_get :=
                  fun _ _ => Errors.Threw (Errors.ThrownError "offline");
                VisualContentService.pexels_get :=
                  fun _ _ => Errors.Threw (Errors.ThrownError "offline") |} in
  let join := fun a b : string => (a ++ "/" ++ b)%string in
  let uuid : Effect.M nat string := fun n => (Errors.Returned (pretty n), S n) in
  let mkdir : string -> Effect.M nat unit := fun _ => Effect.ret tt in
  let get : string -> Effect.M nat VisualCache.Buffer :=
    fun _ => Effect.throw (Errors.ThrownError "offline") in
  let write : string -> VisualCache.Buffer -> Effect.M nat unit := fun _ _ => Effect.ret tt in
  JsString.trim "Daisy care" = "Daisy care"
  /\ 30 <= 33 <= 1800
  /\ match VisualContentService.findVisualContent env "Daisy care" 33 with
     | Errors.Returned [] =>
         fst (VideoProduction.findVisualContent
                (VisualCache.getVisualContentWithCache env "cache" join uuid mkdir get write)
                "Daisy care" 33 0%nat)
         = Errors.Threw (Errors.ThrownApp
             (ErrorCatalogue.VideoProcessingError "No visual content found for topic" true))
     | Errors.Returned (v :: vs) =>
         exists cached : list VisualContentService.VisualContent,
           fst (VideoProduction.findVisualContent
                  (VisualCache.getVisualContentWithCache env "cache" join uuid mkdir get write)
                  "Daisy care" 33 0%nat)
           = Errors.Returned cached
           /\ cached <> []
           /\ Forall2 (VisualCache.cached_from "cache" join) cached (v :: vs)
           /\ VisualContentService.contiguous_from 0 cached
           /\ 0 < VisualContentService.total_duration cached <= 33
     | Errors.Threw _ => False
     end.
Proof.
  intros env join uuid mkdir get write.
  split; [reflexivity|]. split; [lia|].
  apply (production_findVisualContent_never_empty env "cache" join uuid mkdir get write
           "Daisy care" 33 0%nat).
  - vm_compute. discriminate.
  - lia.
Defined.

Section PackageFacts.

Import Errors ErrorCatalogue VisualContentService Effect VideoProduction.

Context {W VideoFile ImageFile : Type}.
Variable getVisualContentWithCache : string -> Z -> M W (list VisualContent).
Variable editing_createVideo : AudioFile -> list VisualContent -> M W VideoFile.
Variable editing_optimizeForYouTube : VideoFile -> M W VideoFile.
Variable thumbnails_generateThumbnail : string -> ThumbnailStyle -> M W ImageFile.

(** X10.  [createCompleteVideoPackage] looks at the audio file only after
    the visuals are in: for an audio file without a path it first runs the
    whole search for visuals (and rethrows its error, if any), and only then
    throws the [ValidationError] for the audio; the editing and thumbnail
    services are not reached. *)
Theorem package_checks_audio_after_visuals
    (audio : AudioFile) (topic : string) (seconds : Z)
    (thumbnailStyle : option ThumbnailStyle) (w : W) :
  audio_path audio = EmptyString ->
  createCompleteVideoPackage getVisualContentWithCache editing_createVideo
    editing_optimizeForYouTube thumbnails_generateThumbnail
    audio topic seconds thumbnailStyle w
  = match findVisualContent getVisualContentWithCache topic seconds w with
    | (Returned _, w1) =>
        (Threw (ThrownApp (ValidationError "Audio file is required")), w1)
    | (Threw e, w1) => (Threw e, w1)
    end.
Proof.
  intros Hpath.
  unfold createCompleteVideoPackage, try_catch at 1, bind at 1.
  destruct (findVisualContent getVisualContentWithCache topic seconds w)
    as [[visuals|e] w1]; [|reflexivity].
  unfold bind at 1, createVideo, try_catch, throw. rewrite Hpath. reflexivity.
Qed.

End PackageFacts.

Lemma package_checks_audio_after_visuals_witness :
  let photo := VisualContentService.mkVisual VisualContentService.image "a.jpg" 5 0 "a.jpg" in
  let visuals : string -> Z -> Effect.M nat (list VisualContentService.VisualContent) :=
    fun _ _ n => (Errors.Returned [photo], S n) in
  let audio := VideoProduction.mkAudioFile "id" "speech.mp3" "" 33 "mp3" 1000 in
  VideoProduction.createCompleteVideoPackage visuals
    (fun _ _ => Effect.ret tt) (fun v => Effect.ret v) (fun _ _ => Effect.ret tt)
    audio "Daisy care" 33 None 0%nat
  = (Errors.Threw (Errors.ThrownApp (Errors.ValidationError "Audio file is required")), 1%nat).
Proof.
  intros photo visuals audio.
  rewrite (package_checks_audio_after_visuals visuals
             (fun _ _ => Effect.ret tt) (fun v => Effect.ret v) (fun _ _ => Effect.ret tt)
             audio "Daisy care" 33 None 0%nat eq_refl).
  reflexivity.
Defined.

(** ** Speech synthesis *)

Section SynthesisFacts.

Import Errors ErrorCatalogue Effect TextToSpeechService VideoProduction SpeechSynthesis.

Context {W : Type}.
Variable elevenlabs_post : string -> string -> W -> axios_result * W.
Variable basePath : string.
Variable path_join : string -> string -> string.
Variable uuidv4 : W -> string * W.
Variable fs_mkdir : string -> M W unit.
Variable fs_writeFile : string -> Buffer -> M W unit.
Variable fs_unlink : string -> M W unit.

Local Abbreviation speech :=
  (generateSpeech elevenlabs_post basePath path_join uuidv4 fs_mkdir fs_writeFile).
Local Abbreviation save := (saveAudioFile basePath path_join uuidv4 fs_mkdir fs_writeFile).
Local Abbreviation long_speech :=
  (generateSpeechForLongText elevenlabs_post basePath path_join uuidv4 fs_mkdir
     fs_writeFile fs_unlink).
Local Abbreviation synthesize :=
  (synthesize_each elevenlabs_post basePath path_join uuidv4 fs_mkdir fs_writeFile).

(** X11.  [generateSpeech] rejects a text that is empty or only white
    space, and a text of more than 50000 characters, each with its own
    [ValidationError], before any collaborator is called: the world is left
    as it was. *)
Theorem generateSpeech_rejects_text (text : string) (voiceConfig : VoiceConfig) (w : W) :
  (JsString.trim text = EmptyString ->
   speech text voiceConfig w
   = (Threw (ThrownApp (ValidationError "Text is required for speech generation")), w))
  /\ (JsString.trim text <> EmptyString ->
      50000 < JsString.len text ->
      speech text voiceConfig w
      = (Threw (ThrownApp (ValidationError "Text is too long (max 50,000 characters)")), w)).
Proof.
  unfold generateSpeech, try_catch, throw. split.
  - intros H. rewrite (topic_check_rejects text H). reflexivity.
  - intros H Hlong. rewrite (topic_check_passes text H).
    replace (JsString.len text >? 50000) with true by lia. reflexivity.
Qed.

(** X12.  Only the provider ['elevenlabs'] is served.  For a valid text and
    any other provider no collaborator is called and the call fails: for
    ['azure'] and ['google'] with a retryable [ExternalServiceError] saying
    that the provider is not implemented yet, for anything else with a
    [ValidationError] naming the unsupported provider. *)
Theorem generateSpeech_other_providers (text : string) (voiceConfig : VoiceConfig) (w : W) :
  JsString.trim text <> EmptyString ->
  JsString.len text <= 50000 ->
  provider voiceConfig <> "elevenlabs" ->
  exists e : AppError,
    speech text voiceConfig w = (Threw (ThrownApp e), w)
    /\ ((provider voiceConfig = "azure"
         /\ e = ExternalServiceError "azure"
                  "Speech generation failed: Azure error: Azure TTS not implemented yet" true)
        \/ (provider voiceConfig = "google"
            /\ e = ExternalServiceError "google"
                     "Speech generation failed: Google error: Google TTS not implemented yet"
                     true)
        \/ (provider voiceConfig <> "azure" /\ provider voiceConfig <> "google"
            /\ e = ValidationError ("Unsupported TTS provider: " ++ provider voiceConfig))).
Proof.
  intros Htext Hlen Hprov.
  unfold generateSpeech, try_catch, bind, throw.
  rewrite (topic_check_passes text Htext).
  replace (JsString.len text >? 50000) with false by lia.
  destruct (String.eqb_spec (provider voiceConfig) "elevenlabs") as [H|_]; [contradiction|].
  destruct (String.eqb_spec (provider voiceConfig) "azure") as [Ha|Ha].
  { eexists. split; [|left; split; [exact Ha | reflexivity]].
    unfold generateWithAzure, throw. simpl. rewrite Ha. reflexivity. }
  destruct (String.eqb_spec (provider voiceConfig) "google") as [Hg|Hg].
  { eexists. split; [|right; left; split; [exact Hg | reflexivity]].
    unfold generateWithGoogle, throw. simpl. rewrite Hg. reflexivity. }
  eexists. split; [|right; right; repeat split; assumption].
  reflexivity.
Qed.

Lemma saveAudioFile_result (audioBuffer : Buffer) (format : string) (w : W) :
  (exists audioId w',
      save audioBuffer format w
      = (Returned (mkAudioFile audioId ("audio_" ++ audioId ++ "." ++ format)
                     (path_join (path_join basePath "audio")
                                ("audio_" ++ audioId ++ "." ++ format))
                     (estimateAudioDuration audioBuffer) format
                     (JsString.len audioBuffer)), w'))
  \/ (exists msg w',
         save audioBuffer format w
         = (Threw (ThrownApp (FileStorageError ("Failed to save audio file: " ++ msg) true)),
            w')).
Proof.
  unfold saveAudioFile, try_catch, bind, ret, throw, fresh_id.
  destruct (uuidv4 w) as [audioId w1].
  destruct (fs_mkdir _ w1) as [[[]|e] w2]; [|right; eauto].
  destruct (fs_writeFile _ audioBuffer w2) as [[[]|e] w3]; [|right; eauto].
  left. eauto.
Qed.

(** [saveAudioFile] step by step: an identifier is drawn, the directory is
    made, and the bytes are written to the file named after the identifier. *)
Lemma saveAudioFile_steps (audioBuffer : Buffer) (format : string) (w : W) :
  (exists audioId w1 w2 w',
      uuidv4 w = (audioId, w1)
      /\ fs_mkdir (path_join basePath "audio") w1 = (Returned tt, w2)
      /\ fs_writeFile (path_join (path_join basePath "audio")
                                 ("audio_" ++ audioId ++ "." ++ format))
                      audioBuffer w2 = (Returned tt, w')
      /\ save audioBuffer format w
         = (Returned (mkAudioFile audioId ("audio_" ++ audioId ++ "." ++ format)
                        (path_join (path_join basePath "audio")
                                   ("audio_" ++ audioId ++ "." ++ format))
                        (estimateAudioDuration audioBuffer) format
                        (JsString.len audioBuffer)), w'))
  \/ (exists msg w',
         save audioBuffer format w
         = (Threw (ThrownApp (FileStorageError ("Failed to save audio file: " ++ msg) true)),
            w')).
Proof.
  unfold saveAudioFile, try_catch, bind, ret, throw, fresh_id.
  destruct (uuidv4 w) as [audioId w1] eqn:Hid.
  destruct (fs_mkdir _ w1) as [[[]|e] w2] eqn:Hdir; [|right; eauto].
  destruct (fs_writeFile _ audioBuffer w2) as [[[]|e] w3] eqn:Hwrite; [|right; eauto].
  left. exists audioId, w1, w2, w3. repeat split; assumption.
Qed.

(** [generateWithElevenLabs] returns only the bytes of a response with
    status 200. *)
Lemma generateWithElevenLabs_returned
    (text : string) (voiceConfig : VoiceConfig) (data : Buffer) (w w1 : W) :
  generateWithElevenLabs elevenlabs_post text voiceConfig w = (Returned data, w1) ->
  elevenlabs_post (baseUrl ++ "/text-to-speech/" ++ voiceId voiceConfig) text w
  = (AxiosResponse 200 data, w1).
Proof.
  unfold generateWithElevenLabs.
  destruct (elevenlabs_post _ text w) as [[status bytes|status detail msg|e] w'].
  - destruct (status =? 200) eqn:Hs; [|discriminate].
    intros H. inversion H; subst. replace status with 200 by lia. reflexivity.
  - destruct status as [[|p|p]|]; try discriminate.
    repeat (destruct p as [p|p|]; try discriminate).
  - discriminate.
Qed.

(** X13.  Every outcome of [generateSpeech], for collaborators that reject
    with an error object (for a rejection with [undefined] the handlers of
    the source cannot read a message, and [message_of] gives the empty
    one).  When it returns, the provider is ['elevenlabs'], ElevenLabs
    answered the request for this text with status 200 and some bytes, those
    very bytes were written to the file "audio_<id>.mp3" under the audio
    directory, and the file returned names that path, has the number of
    those bytes as its size and the duration estimated from them.
    Otherwise it throws a [ValidationError], or a retryable
    [ExternalServiceError] named after the provider whose message starts
    with "Speech generation failed: ". *)
Theorem generateSpeech_outcomes (text : string) (voiceConfig : VoiceConfig) (w : W) :
  (forall url body w0, fst (elevenlabs_post url body w0) <> AxiosOther ThrownUndefined) ->
  (forall dir w0, fst (fs_mkdir dir w0) <> Threw ThrownUndefined) ->
  (forall file bytes w0, fst (fs_writeFile file bytes w0) <> Threw ThrownUndefined) ->
  match speech text voiceConfig w with
  | (Returned audio, w') =>
      provider voiceConfig = "elevenlabs"
      /\ exists (data : Buffer) (audioId : string) (w1 w2 w3 : W),
           elevenlabs_post (baseUrl ++ "/text-to-speech/" ++ voiceId voiceConfig) text w
           = (AxiosResponse 200 data, w1)
           /\ uuidv4 w1 = (audioId, w2)
           /\ fs_mkdir (path_join basePath "audio") w2 = (Returned tt, w3)
           /\ fs_writeFile (path_join (path_join basePath "audio")
                                      ("audio_" ++ audioId ++ ".mp3"))
                           data w3 = (Returned tt, w')
           /\ audio = mkAudioFile audioId ("audio_" ++ audioId ++ ".mp3")
                        (path_join (path_join basePath "audio")
                                   ("audio_" ++ audioId ++ ".mp3"))
                        (estimateAudioDuration data) "mp3" (JsString.len data)
  | (Threw error, _) =>
      instanceof_ValidationError error = true
      \/ exists msg,
           error = ThrownApp (ExternalServiceError (reported_service voiceConfig)
                                ("Speech generation failed: " ++ msg) true)
  end.
Proof.
  intros _ _ _.
  unfold generateSpeech, try_catch at 1.
  destruct (negb (JsString.truthy text) || (JsString.len (JsString.trim text) =? 0)).
  { simpl. left. reflexivity. }
  destruct (JsString.len text >? 50000).
  { simpl. left. reflexivity. }
  unfold bind.
  assert (Hwrap : forall (e : thrown) (w1 : W),
    match ((if instanceof_ValidationError e then throw e
            else throw (ThrownApp (ExternalServiceError_default
                           (if JsString.truthy (provider voiceConfig)
                            then provider voiceConfig else "TTS")
                           ("Speech generation failed: " ++ message_of e)))) w1)
          : outcome AudioFile * W with
    | (Returned _, _) => False
    | (Threw error, _) =>
        instanceof_ValidationError error = true
        \/ exists msg,
             error = ThrownApp (ExternalServiceError (reported_service voiceConfig)
                                  ("Speech generation failed: " ++ msg) true)
    end).
  { intros e w1. destruct (instanceof_ValidationError e) eqn:Hv; simpl.
    - left. exact Hv.
    - right. eexists. reflexivity. }
  destruct (String.eqb_spec (provider voiceConfig) "elevenlabs") as [Hp|Hp].
  - destruct (generateWithElevenLabs elevenlabs_post text voiceConfig w)
      as [[data|e] w1] eqn:Hgen.
    + apply generateWithElevenLabs_returned in Hgen.
      destruct (saveAudioFile_steps data "mp3" w1)
        as [(audioId & w2 & w3 & w' & Hid & Hdir & Hwrite & Hs)|(msg & w2 & Hs)];
        rewrite Hs.
      * split; [exact Hp|]. exists data, audioId, w1, w2, w3.
        repeat split; assumption.
      * simpl. right. eexists. reflexivity.
    + specialize (Hwrap e w1).
      destruct (_ w1) as [[audio|error] w2] in Hwrap |- *; [contradiction | exact Hwrap].
  - assert (Hthrow : exists e,
      (if String.eqb (provider voiceConfig) "azure" then generateWithAzure
       else if String.eqb (provider voiceConfig) "google" then generateWithGoogle
       else throw (ThrownApp (ValidationError
                     ("Unsupported TTS provider: " ++ provider voiceConfig)))) w
      = (Threw e : outcome Buffer, w)).
    { destruct (String.eqb (provider voiceConfig) "azure"); [eexists; reflexivity|].
      destruct (String.eqb (provider voiceConfig) "google"); eexists; reflexivity. }
    destruct Hthrow as [e He]. rewrite He.
    specialize (Hwrap e w).
    destruct (_ w) as [[audio|error] w2] in Hwrap |- *; [contradiction | exact Hwrap].
Qed.

(** X14.  How [generateSpeech] reports what ElevenLabs answers, for a valid
    text: a 401 (invalid API key) and a 429 (rate limit) both become
    retryable [ExternalServiceError]s, a 422 becomes a [ValidationError],
    which is not retried, and a response whose status is not 200 becomes a
    retryable [ExternalServiceError] too; in each case nothing is saved. *)
Theorem generateSpeech_status_table (text : string) (voiceConfig : VoiceConfig) (w : W) :
  JsString.trim text <> EmptyString ->
  JsString.len text <= 50000 ->
  provider voiceConfig = "elevenlabs" ->
  match elevenlabs_post (baseUrl ++ "/text-to-speech/" ++ voiceId voiceConfig) text w with
  | (AxiosError (Some 401) _ _, w') =>
      speech text voiceConfig w
      = (Threw (ThrownApp (ExternalServiceError "elevenlabs"
                   "Speech generation failed: ElevenLabs error: Invalid API key" true)), w')
  | (AxiosError (Some 429) _ _, w') =>
      speech text voiceConfig w
      = (Threw (ThrownApp (ExternalServiceError "elevenlabs"
                   "Speech generation failed: ElevenLabs error: Rate limit exceeded" true)), w')
  | (AxiosError (Some 422) detail msg, w') =>
      speech text voiceConfig w
      = (Threw (ThrownApp (ValidationError
                   ("ElevenLabs validation error: " ++ or_else detail msg))), w')
  | (AxiosResponse status _, w') =>
      status = 200
      \/ speech text voiceConfig w
         = (Threw (ThrownApp (ExternalServiceError "elevenlabs"
                      ("Speech generation failed: ElevenLabs API returned status "
                         ++ pretty status) true)), w')
  | _ => True
  end.
Proof.
  intros Htext Hlen Hprov.
  unfold generateSpeech, try_catch, bind, throw, generateWithElevenLabs.
  rewrite (topic_check_passes text Htext).
  replace (JsString.len text >? 50000) with false by lia.
  rewrite Hprov, String.eqb_refl.
  destruct (elevenlabs_post _ text w) as [[status data|status detail msg|e] w'];
    [| |exact I].
  - destruct (status =? 200) eqn:Hs; [left; lia|]. right. reflexivity.
  - destruct status as [[|p|p]|]; try exact I.
    destruct (Pos.eq_dec p 401%positive) as [->|H1]; [reflexivity|].
    destruct (Pos.eq_dec p 429%positive) as [->|H2]; [reflexivity|].
    destruct (Pos.eq_dec p 422%positive) as [->|H3]; [reflexivity|].
    repeat (destruct p as [p|p|]; try exact I; try congruence).
Qed.

End SynthesisFacts.

(** X13 at an ElevenLabs that answers with five bytes: they are written
    to "storage/audio/audio_1.mp3", and the file returned has size 5. *)
Lemma generateSpeech_outcomes_witness :
  let post : string -> string -> nat -> SpeechSynthesis.axios_result * nat :=
    fun _ _ n => (SpeechSynthesis.AxiosResponse 200 "bytes", S n) in
  let join := fun a b : string => (a ++ "/" ++ b)%string in
  let uuidv4 := fun n : nat => (pretty n, S n) in
  let mkdir : string -> Effect.M nat unit := fun _ n => (Errors.Returned tt, S n) in
  let write : string -> SpeechSynthesis.Buffer -> Effect.M nat unit :=
    fun _ _ n => (Errors.Returned tt, S n) in
  let voice := SpeechSynthesis.mkVoice "elevenlabs" "v1" in
  SpeechSynthesis.generateSpeech post "storage" join uuidv4 mkdir write "Hello." voice 0%nat
  = (Errors.Returned
       (VideoProduction.mkAudioFile "1" "audio_1.mp3" "storage/audio/audio_1.mp3" 0 "mp3" 5),
     4%nat)
  /\ match SpeechSynthesis.generateSpeech post "storage" join uuidv4 mkdir write
             "Hello." voice 0%nat with
     | (Errors.Returned audio, w') =>
         SpeechSynthesis.provider voice = "elevenlabs"
         /\ exists (data : SpeechSynthesis.Buffer) (audioId : string) (w1 w2 w3 : nat),
              post (SpeechSynthesis.baseUrl ++ "/text-to-speech/"
                      ++ SpeechSynthesis.voiceId voice)%string "Hello." 0%nat
              = (SpeechSynthesis.AxiosResponse 200 data, w1)
              /\ uuidv4 w1 = (audioId, w2)
              /\ mkdir (join "storage" "audio") w2 = (Errors.Returned tt, w3)
              /\ write (join (join "storage" "audio") ("audio_" ++ audioId ++ ".mp3")%string)
                       data w3 = (Errors.Returned tt, w')
              /\ audio = VideoProduction.mkAudioFile audioId
                           ("audio_" ++ audioId ++ ".mp3")%string
                           (join (join "storage" "audio")
                                 ("audio_" ++ audioId ++ ".mp3")%string)
                           (SpeechSynthesis.estimateAudioDuration data) "mp3"
                           (JsString.len data)
     | (Errors.Threw error, _) =>
         Errors.instanceof_ValidationError error = true
         \/ exists msg,
              error = Errors.ThrownApp
                        (Errors.ExternalServiceError (SpeechSynthesis.reported_service voice)
                           ("Speech generation failed: " ++ msg) true)
     end.
Proof.
  intros post join uuidv4 mkdir write voice.
  split; [vm_compute; reflexivity|].
  apply (generateSpeech_outcomes post "storage" join uuidv4 mkdir write "Hello." voice 0%nat).
  - intros url body w0. cbv. discriminate.
  - intros dir w0. cbv. discriminate.
  - intros file bytes w0. cbv. discriminate.
Defined.

(** X12 at a request for an Azure voice. *)
Lemma generateSpeech_other_providers_witness :
  let post : string -> string -> nat -> SpeechSynthesis.axios_result * nat :=
    fun _ _ n => (SpeechSynthesis.AxiosResponse 200 "bytes", S n) in
  let voice := SpeechSynthesis.mkVoice "azure" "tr-TR-AhmetNeural" in
  exists e : Errors.AppError,
    SpeechSynthesis.generateSpeech post "storage" (fun a b => (a ++ "/" ++ b)%string)
      (fun n => (pretty n, S n)) (fun _ => Effect.ret tt) (fun _ _ => Effect.ret tt)
      "Merhaba." voice 0%nat
    = (Errors.Threw (Errors.ThrownApp e), 0%nat)
    /\ ((SpeechSynthesis.provider voice = "azure"
         /\ e = Errors.ExternalServiceError "azure"
                  "Speech generation failed: Azure error: Azure TTS not implemented yet" true)
        \/ (SpeechSynthesis.provider voice = "google"
            /\ e = Errors.ExternalServiceError "google"
                     "Speech generation failed: Google error: Google TTS not implemented yet"
                     true)
        \/ (SpeechSynthesis.provider voice <> "azure"
            /\ SpeechSynthesis.provider voice <> "google"
            /\ e = Errors.ValidationError
                     ("Unsupported TTS provider: " ++ SpeechSynthesis.provider voice))).
Proof.
  intros post voice.
  apply (generateSpeech_other_providers post "storage" (fun a b => (a ++ "/" ++ b)%string)
           (fun n => (pretty n, S n)) (fun _ => Effect.ret tt) (fun _ _ => Effect.ret tt)
           "Merhaba." voice 0%nat).
  - vm_compute. discriminate.
  - vm_compute. discriminate.
  - vm_compute. discriminate.
Defined.

(** X14 at an ElevenLabs that answers 401. *)
Lemma generateSpeech_status_table_witness :
  let post : string -> string -> nat -> SpeechSynthesis.axios_result * nat :=
    fun _ _ n => (SpeechSynthesis.AxiosError (Some 401) None "Request failed", S n) in
  let voice := SpeechSynthesis.mkVoice "elevenlabs" "voice-1" in
  SpeechSynthesis.generateSpeech post "storage" (fun a b => (a ++ "/" ++ b)%string)
    (fun n => (pretty n, S n)) (fun _ => Effect.ret tt) (fun _ _ => Effect.ret tt)
    "Merhaba." voice 0%nat
  = (Errors.Threw (Errors.ThrownApp (Errors.ExternalServiceError "elevenlabs"
        "Speech generation failed: ElevenLabs error: Invalid API key" true)), 1%nat).
Proof.
  intros post voice.
  apply (generateSpeech_status_table post "storage" (fun a b => (a ++ "/" ++ b)%string)
           (fun n => (pretty n, S n)) (fun _ => Effect.ret tt) (fun _ _ => Effect.ret tt)
           "Merhaba." voice 0%nat).
  - vm_compute. discriminate.
  - vm_compute. discriminate.
  - reflexivity.
Defined.

(** ** Long texts *)

Section LongTextFacts.

Import Errors ErrorCatalogue Effect TextToSpeechService VideoProduction SpeechSynthesis.
Import VisualVocabulary.

Context {W : Type}.
Variable elevenlabs_post : string -> string -> W -> axios_result * W.
Variable basePath : string.
Variable path_join : string -> string -> string.
Variable uuidv4 : W -> string * W.
Variable fs_mkdir : string -> M W unit.
Variable fs_writeFile : string -> Buffer -> M W unit.
Variable fs_unlink : string -> M W unit.

Local Abbreviation long_speech :=
  (generateSpeechForLongText elevenlabs_post basePath path_join uuidv4 fs_mkdir
     fs_writeFile fs_unlink).
Local Abbreviation synthesize :=
  (synthesize_each elevenlabs_post basePath path_join uuidv4 fs_mkdir fs_writeFile).







Lemma trimStart_white (s : string) :
  string_forall JsString.is_white_space s = true -> JsString.trimStart s = EmptyString.
Proof.
  induction s as [|c s IH]; simpl; [reflexivity|].
  intros H. apply andb_true_iff in H. destruct H as [Hc Hs].
  rewrite Hc. apply IH. exact Hs.
Qed.

Lemma trim_white (s : string) :
  string_forall JsString.is_white_space s = true -> JsString.trim s = EmptyString.
Proof.
  intros H. unfold JsString.trim. rewrite (trimStart_white s H). reflexivity.
Qed.

Lemma sentence_loop_skips (maxChunkSize : Z) (sentences : list string) :
  Forall (fun f => string_forall JsString.is_white_space f = true) sentences ->
  forall st : list string * string,
    fold_left (sentence_step maxChunkSize) sentences st = st.
Proof.
  induction 1 as [|sentence sentences Hs _ IH]; intros [chunks currentChunk];
    [reflexivity|].
  cbn [fold_left]. unfold sentence_step at 2. rewrite (trim_white sentence Hs).
  simpl. apply IH.
Qed.

(** A text longer than the limit that holds only sentence marks and white
    space gives no chunk at all. *)
Lemma splitTextIntoChunks_nothing_to_say (text : string) (maxChunkSize : Z) :
  maxChunkSize < JsString.len text ->
  string_forall (fun c => is_sentence_end c || JsString.is_white_space c) text = true ->
  splitTextIntoChunks text maxChunkSize = [].
Proof.
  intros Hlong Hchars. unfold splitTextIntoChunks.
  replace (JsString.len text <=? maxChunkSize) with false by lia.
  rewrite sentence_loop_skips; [reflexivity|].
  apply split_class_fields. exact Hchars.
Qed.

(** X17.  A text of more than 4000 characters that holds only full stops,
    exclamation marks, question marks and white space gives no chunk, and
    [generateSpeechForLongText] then fails with the [ValidationError] of
    [combineAudioFiles], 'No audio files to combine', without calling any
    collaborator. *)
Theorem generateSpeechForLongText_nothing_to_say
    (text : string) (voiceConfig : VoiceConfig) (w : W) :
  4000 < JsString.len text ->
  string_forall (fun c => is_sentence_end c || JsString.is_white_space c) text = true ->
  long_speech text voiceConfig w
  = (Threw (ThrownApp (ValidationError "No audio files to combine")), w).
Proof.
  intros Hlong Hchars.
  unfold generateSpeechForLongText. cbv zeta.
  rewrite (splitTextIntoChunks_nothing_to_say text 4000 Hlong Hchars).
  reflexivity.
Qed.

End LongTextFacts.

(** X17 at a text of 4001 full stops. *)
Lemma generateSpeechForLongText_nothing_to_say_witness :
  let post : string -> string -> nat -> SpeechSynthesis.axios_result * nat :=
    fun _ _ n => (SpeechSynthesis.AxiosResponse 200 "bytes", S n) in
  SpeechSynthesis.generateSpeechForLongText post "storage" (fun a b => (a ++ "/" ++ b)%string)
    (fun n => (pretty n, S n)) (fun _ => Effect.ret tt) (fun _ _ => Effect.ret tt)
    (fun _ => Effect.ret tt)
    (Samples.string_repeat 4001 ".") (SpeechSynthesis.mkVoice "elevenlabs" "voice-1") 0%nat
  = (Errors.Threw (Errors.ThrownApp (Errors.ValidationError "No audio files to combine")),
     0%nat).
Proof.
  intros post.
  apply (generateSpeechForLongText_nothing_to_say post "storage"
           (fun a b => (a ++ "/" ++ b)%string)
           (fun n => (pretty n, S n)) (fun _ => Effect.ret tt) (fun _ _ => Effect.ret tt)
           (fun _ => Effect.ret tt)
           (Samples.string_repeat 4001 ".") (SpeechSynthesis.mkVoice "elevenlabs" "voice-1")
           0%nat).
  - vm_compute. reflexivity.
  - vm_compute. reflexivity.
Defined.


Example long_text_example :
  let post : string -> string -> nat -> SpeechSynthesis.axios_result * nat :=
    fun _ _ n => (SpeechSynthesis.AxiosResponse 200 (Samples.string_repeat 1600 "0123456789"), S n) in
  match SpeechSynthesis.generateSpeechForLongText post "storage"
          (fun a b => (a ++ "/" ++ b)%string) (fun n => (pretty n, S n))
          (fun _ => Effect.ret tt) (fun _ _ => Effect.ret tt) (fun _ => Effect.ret tt)
          (Samples.string_repeat 400 "Hello world. ")
          (SpeechSynthesis.mkVoice "elevenlabs" "voice-1") 0%nat with
  | (Errors.Returned audio, _) =>
      VideoProduction.audio_duration audio = 2
      /\ VideoProduction.audio_size audio = 32000
      /\ VideoProduction.audio_path audio = "storage/audio/audio_1.mp3"
  | _ => False
  end.
Proof. vm_compute. repeat split. Qed.

(** ** Reading the queue *)

Section QueueApiFacts.

Import Errors TaskQueueService TaskQueueApi.

(** X18.  In every state the queue can reach, [getTaskStatus] returns one
    of the four statuses for an identifier that is stored, and throws a
    [QueueError] (retryable, as every [QueueError] built without a flag)
    for one that is not. *)
Theorem getTaskStatus_total (schedule : list action) (taskId : string) :
  match tasks (run schedule initial) !! taskId with
  | Some _ =>
      exists name, getTaskStatus taskId (run schedule initial) = Returned name
                   /\ valid_status name
  | None =>
      getTaskStatus taskId (run schedule initial)
      = Threw (ThrownApp
          (mkAppError ClsQueueError
             "Queue error: Failed to get task status: Queue error: Task not found"
             "QUEUE_ERROR" system true 500))
  end.
Proof.
  pose proof (run_consistent schedule initial consistent_initial) as Hs.
  unfold getTaskStatus, get.
  destruct (tasks (run schedule initial) !! taskId) as [ref|] eqn:Hlook; [|reflexivity].
  destruct (stored_refs _ Hs taskId ref Hlook) as [t Ht]. rewrite Ht.
  exists (status t). split; [reflexivity|]. eapply object_statuses; [exact Hs | exact Ht].
Qed.

Lemma remove_first_found {A : Type} (eqb : A -> A -> bool) (x : A) (xs : list A) :
  eqb x x = true -> In x xs -> exists xs', remove_first eqb x xs = Some xs'.
Proof.
  intros Hx. induction xs as [|y xs IH]; intros Hin; [destruct Hin|].
  simpl. destruct (eqb x y) eqn:Hy; [eauto|].
  destruct Hin as [Hin|Hin]; [subst; congruence|].
  destruct (IH Hin) as [xs' H]. rewrite H. eauto.
Qed.

Lemma same_run_refl (a : string * nat) : same_run a a = true.
Proof. unfold same_run. rewrite String.eqb_refl, Nat.eqb_refl. reflexivity. Qed.

Lemma getTaskStatus_read (taskId : string) (ref : nat) (t : VideoProductionTask) (s : service) :
  tasks s !! taskId = Some ref -> objects s !! ref = Some t ->
  getTaskStatus taskId s = Returned (status t).
Proof. intros H1 H2. unfold getTaskStatus, get. rewrite H1, H2. reflexivity. Qed.

(** X19.  The life of a task, as [getTaskStatus] shows it, from any state
    of the service: right after [addTask] it is pending, whatever status
    the caller gave it; once its timer has fired it is processing; and when
    its processing resumes it is completed, or failed if the processing
    threw. *)
Theorem task_lifecycle (task : VideoProductionTask) (uuid : string) (s : service) :
  let taskId := fst (addTask task uuid s) in
  let added := snd (addTask task uuid s) in
  let started := step (TimerFires taskId) added in
  getTaskStatus taskId added = Returned "pending"
  /\ getTaskStatus taskId started = Returned "processing"
  /\ getTaskStatus taskId (step (ProcessingDone taskId (next_ref s)) started)
     = Returned "completed"
  /\ forall msg,
       getTaskStatus taskId (step (ProcessingThrew taskId (next_ref s) msg) started)
       = Returned "failed".
Proof.
  unfold addTask. cbn [fst snd].
  set (taskId := if JsString.truthy (id task) then id task else uuid).
  set (object := mkTask taskId (userId task) (topic task) "pending" (progress task)
                        (error task)).
  split.
  { apply (getTaskStatus_read taskId (next_ref s) object); simpl; apply lookup_insert_eq. }
  destruct (remove_first_found String.eqb taskId (timers s ++ [taskId])
              (String.eqb_refl taskId)) as [timers' Htimers];
    [apply in_or_app; right; left; reflexivity|].
  assert (Hstart :
    step (TimerFires taskId)
      (mkService (<[next_ref s := object]> (objects s)) (S (next_ref s))
                 (<[taskId := next_ref s]> (tasks s)) (timers s ++ [taskId]) (running s))
    = mkService (alter (set_status "processing") (next_ref s)
                       (<[next_ref s := object]> (objects s)))
                (S (next_ref s))
                (<[taskId := next_ref s]> (<[taskId := next_ref s]> (tasks s)))
                timers' (running s ++ [(taskId, next_ref s)])).
  { cbn [step timers]. rewrite Htimers. unfold processTask_start. cbn [tasks objects].
    rewrite lookup_insert_eq. reflexivity. }
  rewrite Hstart. clear Hstart.
  split.
  { apply (getTaskStatus_read taskId (next_ref s) (set_status "processing" object)); simpl.
    - apply lookup_insert_eq.
    - rewrite lookup_alter_eq, lookup_insert_eq. reflexivity. }
  destruct (remove_first_found same_run (taskId, next_ref s)
              (running s ++ [(taskId, next_ref s)]) (same_run_refl _))
    as [running' Hrunning]; [apply in_or_app; right; left; reflexivity|].
  split.
  - cbn [step running]. rewrite Hrunning. unfold processTask_complete. cbn [tasks objects].
    apply (getTaskStatus_read taskId (next_ref s)
             (set_status "completed" (set_status "processing" object))); simpl.
    + apply lookup_insert_eq.
    + rewrite !lookup_alter_eq, lookup_insert_eq. reflexivity.
  - intros msg. cbn [step running]. rewrite Hrunning.
    unfold processTask_catch. cbn [tasks objects]. rewrite lookup_insert_eq.
    apply (getTaskStatus_read taskId (next_ref s)
             (set_error msg (set_status "failed" (set_status "processing" object)))); simpl.
    + apply lookup_insert_eq.
    + rewrite !lookup_alter_eq, lookup_insert_eq. reflexivity.
Qed.

(** X20.  Only [cleanup] takes tasks out of the queue: after any other
    step every identifier that was stored is still stored. *)
Theorem only_cleanup_removes (a : action) (s : service) (taskId : string) :
  a <> Cleanup ->
  is_Some (tasks s !! taskId) ->
  is_Some (tasks (step a s) !! taskId).
Proof.
  intros Ha Hstored.
  assert (Hins : forall k r, is_Some (<[k := r]> (tasks s) !! taskId)).
  { intros k r. destruct (decide (k = taskId)) as [->|Hne].
    - rewrite lookup_insert_eq. eauto.
    - rewrite lookup_insert_ne by exact Hne. exact Hstored. }
  destruct a as [task uuid|k|k ref|k ref msg|]; [| | | |congruence]; simpl.
  - apply Hins.
  - destruct (remove_first String.eqb k (timers s)); [|exact Hstored].
    unfold processTask_start. simpl.
    destruct (tasks s !! k); [apply Hins | exact Hstored].
  - destruct (remove_first same_run (k, ref) (running s)); [|exact Hstored].
    apply Hins.
  - destruct (remove_first same_run (k, ref) (running s)); [|exact Hstored].
    unfold processTask_catch. simpl.
    destruct (tasks s !! k); [apply Hins | exact Hstored].
Qed.

(** X21.  [cleanup] empties the map but does not cancel a processing that
    is suspended: when that processing resumes it stores its task again,
    and the queue then holds that one task, completed. *)
Theorem cleanup_does_not_cancel (schedule : list action) (taskId : string) (ref : nat) :
  In (taskId, ref) (running (run schedule initial)) ->
  tasks (step Cleanup (run schedule initial)) = ∅
  /\ tasks (step (ProcessingDone taskId ref) (step Cleanup (run schedule initial)))
     = {[taskId := ref]}
  /\ getTaskStatus taskId
       (step (ProcessingDone taskId ref) (step Cleanup (run schedule initial)))
     = Returned "completed"
  /\ getQueueStats (step (ProcessingDone taskId ref) (step Cleanup (run schedule initial)))
     = mkStats 0 0 1 0.
Proof.
  intros Hin.
  pose proof (run_consistent schedule initial consistent_initial) as Hs.
  set (s := run schedule initial) in *.
  destruct (running_refs s Hs taskId ref Hin) as [t Ht].
  destruct (remove_first_found same_run (taskId, ref) (running s) (same_run_refl _) Hin)
    as [running' Hrunning].
  split; [reflexivity|].
  cbn [step running]. rewrite Hrunning.
  unfold processTask_complete. cbn [tasks objects next_ref timers].
  assert (Hmap : <[taskId := ref]> (∅ : gmap string nat) = {[taskId := ref]})
    by apply insert_empty.
  rewrite Hmap.
  split; [reflexivity|].
  split.
  - apply (getTaskStatus_read taskId ref (set_status "completed" t)); simpl.
    + apply lookup_singleton_eq.
    + rewrite lookup_alter_eq, Ht. reflexivity.
  - unfold getQueueStats, values. cbn [tasks objects].
    rewrite map_to_list_singleton. simpl. rewrite lookup_alter_eq, Ht. reflexivity.
Qed.

End QueueApiFacts.

(** X20 at a timer that fires. *)
Lemma only_cleanup_removes_witness :
  let task := TaskQueueService.mkTask "a" "u1" "Daisy care" "pending" 0 None in
  let s := TaskQueueService.run [TaskQueueService.AddTask task "x1"] TaskQueueService.initial in
  is_Some (TaskQueueService.tasks
             (TaskQueueService.step (TaskQueueService.TimerFires "a") s) !! "a").
Proof.
  intros task s.
  apply (only_cleanup_removes (TaskQueueService.TimerFires "a") s "a").
  - discriminate.
  - vm_compute. eexists. reflexivity.
Defined.

(** X21 at a task whose processing is suspended when [cleanup] is called. *)
Lemma cleanup_does_not_cancel_witness :
  let task := TaskQueueService.mkTask "a" "u1" "Daisy care" "pending" 0 None in
  let schedule := [TaskQueueService.AddTask task "x1"; TaskQueueService.TimerFires "a"] in
  TaskQueueApi.getTaskStatus "a"
    (TaskQueueService.step (TaskQueueService.ProcessingDone "a" 0%nat)
       (TaskQueueService.step TaskQueueService.Cleanup
          (TaskQueueService.run schedule TaskQueueService.initial)))
  = Errors.Returned "completed".
Proof.
  intros task schedule.
  apply (cleanup_does_not_cancel schedule "a" 0%nat).
  vm_compute. left. reflexivity.
Defined.


(** ** A task added twice *)

Section QueueAliasFacts.

Import Errors TaskQueueService TaskQueueApi.

Lemma timer_after_addTask (task : VideoProductionTask) (uuid : string) (s : service) :
  let taskId := fst (addTask task uuid s) in
  let object := mkTask taskId (userId task) (topic task) "pending" (progress task)
                       (error task) in
  exists timers',
    step (TimerFires taskId) (snd (addTask task uuid s))
    = mkService (alter (set_status "processing") (next_ref s)
                       (<[next_ref s := object]> (objects s)))
                (S (next_ref s))
                (<[taskId := next_ref s]> (<[taskId := next_ref s]> (tasks s)))
                timers' (running s ++ [(taskId, next_ref s)]).
Proof.
  unfold addTask. cbn [fst snd].
  set (taskId := if JsString.truthy (id task) then id task else uuid).
  destruct (remove_first_found String.eqb taskId (timers s ++ [taskId])
              (String.eqb_refl taskId)) as [timers' Htimers];
    [apply in_or_app; right; left; reflexivity|].
  exists timers'.
  cbn [step timers]. rewrite Htimers. unfold processTask_start. cbn [tasks objects].
  rewrite lookup_insert_eq. reflexivity.
Qed.

(** X22.  A task added again under the identifier of a task that is being
    processed can be lost.  The second [addTask] stores the new object,
    pending; but when the processing of the first resumes before the timer
    of the second has fired, it stores its own object again: the identifier
    then names the first task, completed, and the timer set for the second
    task processes the first a second time. *)
Theorem readded_task_is_replaced
    (first second : VideoProductionTask) (uuid uuid' : string) (s : service) :
  let taskId := fst (addTask first uuid s) in
  let started := step (TimerFires taskId) (snd (addTask first uuid s)) in
  let readded := snd (addTask second uuid' started) in
  let resumed := step (ProcessingDone taskId (next_ref s)) readded in
  fst (addTask second uuid' started) = taskId ->
  get taskId readded
  = Some (mkTask taskId (userId second) (topic second) "pending" (progress second)
                 (error second))
  /\ get taskId resumed
     = Some (mkTask taskId (userId first) (topic first) "completed" (progress first)
                    (error first))
  /\ get taskId (step (TimerFires taskId) resumed)
     = Some (mkTask taskId (userId first) (topic first) "processing" (progress first)
                    (error first)).
Proof.
  cbv zeta.
  destruct (timer_after_addTask first uuid s) as [timers' Hstarted].
  cbv zeta in Hstarted. rewrite Hstarted. clear Hstarted.
  set (taskId := fst (addTask first uuid s)).
  set (object := mkTask taskId (userId first) (topic first) "pending" (progress first)
                        (error first)).
  intros Hsame.
  unfold addTask in Hsame |- * at 1 2 3. cbn [fst snd] in Hsame |- *.
  rewrite Hsame. cbn [objects next_ref tasks timers running].
  set (object' := mkTask taskId (userId second) (topic second) "pending" (progress second)
                         (error second)).
  assert (Hne : S (next_ref s) <> next_ref s) by lia.
  split.
  { unfold get. cbn [tasks objects]. rewrite !lookup_insert_eq. reflexivity. }
  destruct (remove_first_found same_run (taskId, next_ref s)
              (running s ++ [(taskId, next_ref s)]) (same_run_refl _))
    as [running' Hrunning]; [apply in_or_app; right; left; reflexivity|].
  cbn [step running]. rewrite Hrunning.
  unfold processTask_complete. cbn [objects next_ref tasks timers running].
  split.
  { unfold get. cbn [tasks objects].
    rewrite lookup_insert_eq, lookup_alter_eq, lookup_insert_ne by exact Hne.
    rewrite lookup_alter_eq, lookup_insert_eq. reflexivity. }
  destruct (remove_first_found String.eqb taskId (timers' ++ [taskId])
              (String.eqb_refl taskId)) as [timers'' Htimers];
    [apply in_or_app; right; left; reflexivity|].
  rewrite Htimers. unfold processTask_start. cbn [tasks objects].
  rewrite lookup_insert_eq.
  unfold get. cbn [tasks objects].
  rewrite lookup_insert_eq, !lookup_alter_eq, lookup_insert_ne by exact Hne.
  rewrite lookup_alter_eq, lookup_insert_eq. reflexivity.
Qed.

End QueueAliasFacts.

(** X22 for two tasks named "a" added to the empty queue. *)
Lemma readded_task_is_replaced_witness :
  let first := TaskQueueService.mkTask "a" "u1" "Daisy care" "pending" 0 None in
  let second := TaskQueueService.mkTask "a" "u2" "Rose care" "pending" 0 None in
  let started :=
    TaskQueueService.run [TaskQueueService.AddTask first "x1"; TaskQueueService.TimerFires "a"]
      TaskQueueService.initial in
  let readded := TaskQueueService.step (TaskQueueService.AddTask second "x2") started in
  let resumed := TaskQueueService.step (TaskQueueService.ProcessingDone "a" 0%nat) readded in
  option_map TaskQueueService.topic (TaskQueueApi.get "a" readded) = Some "Rose care"
  /\ option_map TaskQueueService.topic (TaskQueueApi.get "a" resumed) = Some "Daisy care".
Proof.
  intros first second started readded resumed.
  destruct (readded_task_is_replaced first second "x1" "x2" TaskQueueService.initial eq_refl)
    as (Hreadded & Hresumed & _).
  split.
  - exact (f_equal (option_map TaskQueueService.topic) Hreadded).
  - exact (f_equal (option_map TaskQueueService.topic) Hresumed).
Defined.


(** X23 at the text of three short sentences and a limit of 6. *)
Lemma splitTextIntoChunks_within_limit_plus_one_witness :
  Forall (fun c => JsString.len c <= 6 + 1)
         (TextToSpeechService.splitTextIntoChunks "ab. cd. e" 6).
Proof.
  apply (splitTextIntoChunks_within_limit_plus_one "ab. cd. e" 6).
  - lia.
  - vm_compute. reflexivity.
Defined.

(** ** What the script stage can return *)

Section ScriptOutcomeFacts.

Import Errors AIContentGenerationService.

Variable Script : Type.
Variable parseScriptContent : string -> string -> Z -> Script.
Variable create : string -> outcome (option string).


End ScriptOutcomeFacts.

(** A collaborator that fails for good, with an error that is not
    retryable: the script stage reports it as retryable. *)
Example generateScript_hides_fatal_error :
  let denied := Errors.ThrownApp (ErrorCatalogue.AuthenticationError "Invalid API key") in
  Errors.non_retryable denied = true
  /\ exists e,
       fst (AIContentGenerationService.generateScript unit (fun _ _ _ => tt)
              (fun _ => Errors.Threw denied) "Daisy care" 120)
       = Errors.Threw e
       /\ Errors.non_retryable e = false.
Proof. split; [reflexivity|]. eexists. split; reflexivity. Qed.

(** ** The requirements of a production *)

Section RequirementFacts.

Import Errors ErrorCatalogue VisualContentService Effect VideoProduction
       ProductionRequirements.

Lemma push_if_length (test : bool) (message : string) (errors : list string) :
  length (push_if test message errors)
  = (length errors + (if test then 1 else 0))%nat.
Proof.
  unfold push_if. destruct test; [rewrite length_app; reflexivity | lia].
Qed.

(** The requirements hold exactly when none of the five tests fires. *)
Lemma validateProductionRequirements_valid (audio : AudioFile) (topic : string) (seconds : Z) :
  isValid (validateProductionRequirements (Some audio) topic seconds) = true
  <-> (JsString.truthy (audio_path audio) = true
       /\ negb (JsString.truthy topic) || (JsString.len (JsString.trim topic) =? 0) = false
       /\ 30 <= seconds <= 1800
       /\ (audio_duration audio = 0 \/ Z.abs (audio_duration audio - seconds) <= 30)).
Proof.
  unfold validateProductionRequirements. cbn [isValid].
  rewrite Nat.eqb_eq, !push_if_length. cbn [length].
  destruct (JsString.truthy (audio_path audio));
    destruct (negb (JsString.truthy topic) || (JsString.len (JsString.trim topic) =? 0));
    destruct (Z.ltb_spec seconds 30);
    destruct (Z.gtb_spec seconds 1800);
    destruct (Z.eqb_spec (audio_duration audio) 0);
    destruct (Z.gtb_spec (Z.abs (audio_duration audio - seconds)) 30);
    cbn [negb andb]; split; intros Hyp; try discriminate; try lia;
    try (destruct Hyp as (Hpath & Htopic & Hrange & Hclose); try discriminate; lia);
    repeat split; try reflexivity; lia.
Qed.

Context {W VideoFile ImageFile : Type}.
Variable getVisualContentWithCache : string -> Z -> M W (list VisualContent).
Variable editing_createVideo : AudioFile -> list VisualContent -> M W VideoFile.
Variable editing_optimizeForYouTube : VideoFile -> M W VideoFile.
Variable thumbnails_generateThumbnail : string -> ThumbnailStyle -> M W ImageFile.

(** X25.  Requirements that [validateProductionRequirements] accepts are
    never refused by [createCompleteVideoPackage]: given a thumbnail style
    that names a template (or none, for the default), none of the
    validation errors of the package can be thrown.  The package asks for
    the visuals, fails with a [VideoProcessingError] when there are none,
    and otherwise hands the audio and the visuals to the editing service
    and the topic and the style to the thumbnail service. *)
Theorem accepted_requirements_reach_editing
    (audio : AudioFile) (topic : string) (seconds : Z)
    (thumbnailStyle : option ThumbnailStyle) (w : W) :
  isValid (validateProductionRequirements (Some audio) topic seconds) = true ->
  match thumbnailStyle with
  | Some style => template style <> EmptyString
  | None => True
  end ->
  createCompleteVideoPackage getVisualContentWithCache editing_createVideo
    editing_optimizeForYouTube thumbnails_generateThumbnail
    audio topic seconds thumbnailStyle w
  = (await visuals <- getVisualContentWithCache topic seconds ;;
     if (length visuals =? 0)%nat then
       throw (ThrownApp (VideoProcessingError "No visual content found for topic" true))
     else
       await created <- editing_createVideo audio visuals ;;
       await video <- editing_optimizeForYouTube created ;;
       await thumbnail <- thumbnails_generateThumbnail topic
                            (match thumbnailStyle with
                             | Some style => style
                             | None => defaultStyle
                             end) ;;
       ret (video, thumbnail, visuals)) w.
Proof.
  intros Hvalid Hstyle.
  apply validateProductionRequirements_valid in Hvalid.
  destruct Hvalid as (Hpath & Htopic & Hseconds & _).
  assert (Htemplate :
    JsString.truthy (template (match thumbnailStyle with
                               | Some style => style
                               | None => defaultStyle
                               end)) = true).
  { destruct thumbnailStyle as [style|]; [|reflexivity].
    destruct (template style); [congruence | reflexivity]. }
  unfold createCompleteVideoPackage, findVisualContent, createVideo, generateThumbnail,
    try_catch, bind, throw, ret.
  rewrite Htopic, Hpath, Htemplate.
  replace ((seconds <? 30) || (seconds >? 1800)) with false by lia.
  cbn [negb].
  destruct (getVisualContentWithCache topic seconds w) as [[visuals|e] w1]; [|reflexivity].
  destruct (length visuals =? 0)%nat eqn:Hlen; [reflexivity|].
  cbn beta iota. rewrite Hlen.
  destruct (editing_createVideo audio visuals w1) as [[created|e] w2]; [|reflexivity].
  destruct (editing_optimizeForYouTube created w2) as [[video|e] w3]; [|reflexivity].
  destruct (thumbnails_generateThumbnail topic _ w3) as [[thumbnail|e] w4]; reflexivity.
Qed.

(** X26.  A thumbnail style without a template is found out last: the
    package first fetches the visuals and has the video created and
    optimized, and only then throws the [ValidationError] for the style; the
    thumbnail service is not reached and the video is not returned. *)
Theorem package_checks_style_last
    (audio : AudioFile) (topic : string) (seconds : Z) (style : ThumbnailStyle) (w : W) :
  template style = EmptyString ->
  createCompleteVideoPackage getVisualContentWithCache editing_createVideo
    editing_optimizeForYouTube thumbnails_generateThumbnail
    audio topic seconds (Some style) w
  = match findVisualContent getVisualContentWithCache topic seconds w with
    | (Returned visuals, w1) =>
        match createVideo editing_createVideo editing_optimizeForYouTube
                (Some audio) (Some visuals) w1 with
        | (Returned _, w2) =>
            (Threw (ThrownApp (ValidationError "Thumbnail style is required")), w2)
        | (Threw e, w2) => (Threw e, w2)
        end
    | (Threw e, w1) => (Threw e, w1)
    end.
Proof.
  intros Hstyle.
  unfold createCompleteVideoPackage, findVisualContent, generateThumbnail.
  destruct (negb (JsString.truthy topic) || (JsString.len (JsString.trim topic) =? 0));
    [reflexivity|].
  destruct ((seconds <? 30) || (seconds >? 1800)); [reflexivity|].
  unfold try_catch, bind, throw, ret.
  destruct (getVisualContentWithCache topic seconds w) as [[visuals|e] w1]; [|reflexivity].
  destruct (length visuals =? 0)%nat; [reflexivity|].
  cbn beta iota.
  destruct (createVideo editing_createVideo editing_optimizeForYouTube
              (Some audio) (Some visuals) w1) as [[video|e] w2]; [|reflexivity].
  rewrite Hstyle. reflexivity.
Qed.

End RequirementFacts.

(** X25 for an audio file of 35 seconds, a production of 33 seconds and the
    default style. *)
Lemma accepted_requirements_reach_editing_witness :
  let photo := VisualContentService.mkVisual VisualContentService.image "a.jpg" 5 0 "a.jpg" in
  let visuals : string -> Z -> Effect.M nat (list VisualContentService.VisualContent) :=
    fun _ _ n => (Errors.Returned [photo], S n) in
  let audio := VideoProduction.mkAudioFile "id" "speech.mp3" "audio/speech.mp3" 35 "mp3" 1000 in
  VideoProduction.createCompleteVideoPackage visuals
    (fun _ vs => Effect.ret (length vs)) (fun v => Effect.ret v)
    (fun _ style => Effect.ret (VideoProduction.template style))
    audio "Daisy care" 33 None 0%nat
  = (Errors.Returned (1%nat, "professional", [photo]), 1%nat).
Proof.
  intros photo visuals audio.
  rewrite (accepted_requirements_reach_editing visuals
             (fun _ vs => Effect.ret (length vs)) (fun v => Effect.ret v)
             (fun _ style => Effect.ret (VideoProduction.template style))
             audio "Daisy care" 33 None 0%nat eq_refl I).
  reflexivity.
Defined.

(** X26 with a style that has an empty template: the video is made (the
    world counts the calls of the collaborators) and then dropped. *)
Lemma package_checks_style_last_witness :
  let photo := VisualContentService.mkVisual VisualContentService.image "a.jpg" 5 0 "a.jpg" in
  let visuals : string -> Z -> Effect.M nat (list VisualContentService.VisualContent) :=
    fun _ _ n => (Errors.Returned [photo], S n) in
  let edit : VideoProduction.AudioFile -> list VisualContentService.VisualContent
             -> Effect.M nat nat :=
    fun _ vs n => (Errors.Returned (length vs), S n) in
  let optimize : nat -> Effect.M nat nat := fun v n => (Errors.Returned v, S n) in
  let audio := VideoProduction.mkAudioFile "id" "speech.mp3" "audio/speech.mp3" 35 "mp3" 1000 in
  let style := VideoProduction.mkStyle "" 64 "#FFFFFF" "#2C3E50" JsNumber.lit_0_3 in
  VideoProduction.createCompleteVideoPackage visuals edit optimize
    (fun _ _ => Effect.ret tt) audio "Daisy care" 33 (Some style) 0%nat
  = (Errors.Threw (Errors.ThrownApp (Errors.ValidationError "Thumbnail style is required")),
     3%nat).
Proof.
  intros photo visuals edit optimize audio style.
  rewrite (package_checks_style_last visuals edit optimize (fun _ _ => Effect.ret tt)
             audio "Daisy care" 33 style 0%nat eq_refl).
  reflexivity.
Defined.


(** ** The parser of scripts *)

Section ParserFacts.

Import ScriptParser.

Context {W : Type}.
Variable uuidv4 : W -> string * W.

Lemma lazy_title_shorter (s : string) :
  forall title group1 after,
    lazy_title s title = Some (group1, after) ->
    (String.length after < String.length s)%nat.
Proof.
  induction s as [|c s IH]; intros title group1 after H; [discriminate|].
  simpl in H. destruct (Ascii.eqb c "]").
  - inversion H; subst. simpl. lia.
  - destruct (is_line_terminator c); [discriminate|].
    apply IH in H. simpl. lia.
Qed.

Lemma lazy_body_shorter (s : string) :
  forall body group2 rest,
    lazy_body s body = (group2, rest) ->
    (String.length rest <= String.length s)%nat.
Proof.
  induction s as [|c s IH]; intros body group2 rest H.
  - inversion H; subst. simpl. lia.
  - simpl in H. destruct (Ascii.eqb c "[").
    + inversion H; subst. lia.
    + apply IH in H. simpl. lia.
Qed.

Lemma match_here_shorter (s group1 group2 rest : string) :
  match_here s = Some (group1, group2, rest) ->
  (String.length rest < String.length s)%nat.
Proof.
  destruct s as [|c s]; [discriminate|].
  simpl. destruct (Ascii.eqb c "["); [|discriminate].
  destruct (lazy_title s EmptyString) as [[g1 after]|] eqn:Htitle; [|discriminate].
  destruct (lazy_body after EmptyString) as [g2 r] eqn:Hbody.
  intros H. inversion H; subst.
  apply lazy_title_shorter in Htitle. apply lazy_body_shorter in Hbody. lia.
Qed.

(** Every match consumes at least its two brackets. *)
Lemma exec_shorter (s : string) :
  forall group1 group2 rest,
    exec s = Some (group1, group2, rest) ->
    (String.length rest < String.length s)%nat.
Proof.
  induction s as [|c s IH]; intros group1 group2 rest H.
  - discriminate.
  - cbn [exec] in H.
    destruct (match_here (String c s)) as [[[g1 g2] r]|] eqn:Hhere.
    + inversion H; subst. apply match_here_shorter in Hhere. exact Hhere.
    + apply IH in H. simpl. lia.
Qed.

Lemma contiguous_from_app (l : list ScriptSection) (s : ScriptSection) :
  forall t,
    contiguous_from t l ->
    startTime s = t + total_duration l ->
    contiguous_from t (l ++ [s]).
Proof.
  induction l as [|x l IH]; intros t Hc Hs; simpl in *.
  - split; [lia | exact I].
  - destruct Hc as [Hx Hrest]. split; [exact Hx|].
    apply IH; [exact Hrest | lia].
Qed.

Lemma total_duration_snoc (l : list ScriptSection) (s : ScriptSection) :
  total_duration (l ++ [s]) = total_duration l + duration s.
Proof. induction l as [|x l IH]; simpl; [lia | rewrite IH; lia]. Qed.

(** The loop ends within its fuel, and keeps the sections one after the
    other, [currentTime] being the end of the last. *)
Lemma section_loop_spec (fuel : nat) :
  forall (rest : string) (sections : list ScriptSection) (currentTime : Z) (w : W),
    (String.length rest < fuel)%nat ->
    contiguous_from 0 sections ->
    currentTime = total_duration sections ->
    Forall (fun s => content s <> EmptyString) sections ->
    exists sections' currentTime' w',
      section_loop uuidv4 fuel rest sections currentTime w
      = Some (sections', currentTime', w')
      /\ contiguous_from 0 sections'
      /\ currentTime' = total_duration sections'
      /\ Forall (fun s => content s <> EmptyString) sections'.
Proof.
  induction fuel as [|fuel IH]; intros rest sections currentTime w Hfuel Hc Ht Hne; [lia|].
  cbn [section_loop].
  destruct (exec rest) as [[[group1 group2] rest']|] eqn:Hexec.
  2:{ exists sections, currentTime, w. repeat split; assumption. }
  apply exec_shorter in Hexec.
  destruct (JsString.truthy (JsString.trim group2)) eqn:Htruthy.
  - destruct (uuidv4 w) as [sectionId w1].
    apply IH.
    + lia.
    + apply contiguous_from_app; [exact Hc | simpl; lia].
    + rewrite total_duration_snoc. simpl. lia.
    + apply Forall_app. split; [exact Hne|].
      constructor; [|constructor]. simpl.
      destruct (JsString.trim group2); [discriminate | discriminate].
  - apply IH; [lia | exact Hc | exact Ht | exact Hne].
Qed.

(** X27.  [parseScriptContent] always returns a script, for every content:
    with the topic it was given and the trimmed content, with at least one
    section, the sections following one another from 0 (each starts where
    the one before ends), and an estimated duration that is the sum of the
    durations of the sections.  Either every section has a content that is
    not empty, or the script has the one section "Main Content" that holds
    the whole trimmed content. *)
Theorem parseScriptContent_sections (text topic : string) (targetDuration : Z) (w : W) :
  exists script w',
    parseScriptContent uuidv4 text topic targetDuration w = Some (script, w')
    /\ script_topic script = topic
    /\ script_content script = JsString.trim text
    /\ sections script <> []
    /\ contiguous_from 0 (sections script)
    /\ estimatedDuration script = total_duration (sections script)
    /\ (Forall (fun s => content s <> EmptyString) (sections script)
        \/ exists sectionId seconds,
             sections script
             = [mkSection sectionId "Main Content" (JsString.trim text) 0 seconds]).
Proof.
  unfold parseScriptContent, parseScriptContent_fuel.
  destruct (uuidv4 w) as [scriptId w0].
  destruct (section_loop_spec (S (String.length text)) text [] 0 w0)
    as (found & currentTime & w1 & Hloop & Hc & Ht & Hne);
    [lia | exact I | reflexivity | constructor |].
  rewrite Hloop.
  destruct found as [|s found].
  - cbn [length Nat.eqb]. destruct (uuidv4 w1) as [sectionId w2].
    eexists. eexists. split; [reflexivity|]. cbn.
    repeat split; try discriminate; try lia. right. eauto.
  - cbn [length Nat.eqb].
    eexists. eexists. split; [reflexivity|]. cbn [script_topic script_content sections
                                                   estimatedDuration].
    repeat split; try discriminate; try exact Ht.
    + destruct Hc as [Hs _]. exact Hs.
    + destruct Hc as [_ Hrest]. exact Hrest.
    + left. exact Hne.
Qed.

End ParserFacts.

(** An answer in the format the prompt asks for gives three sections, with
    the titles in the brackets; 7, 5 and 3 words are 2, 2 and 1 seconds. *)
Example parseScriptContent_prompt_format :
  let answer := "[INTRODUCTION]
Did you know daisies close at night?

[MAIN_CONTENT]
Water them once a week.

[CONCLUSION]
Like and subscribe!" in
  option_map (fun r => (map (fun s => (ScriptParser.title s, ScriptParser.startTime s,
                                       ScriptParser.duration s))
                            (ScriptParser.sections (fst r)),
                        ScriptParser.estimatedDuration (fst r)))
             (ScriptParser.parseScriptContent ScriptParser.counter answer "Daisy care" 120 0%nat)
  = Some ([("INTRODUCTION", 0, 2); ("MAIN_CONTENT", 2, 2); ("CONCLUSION", 4, 1)], 5).
Proof. vm_compute. reflexivity. Qed.

(** A bracket that is not closed on its line opens no section, and an
    answer without sections becomes the one section "Main Content". *)
Example parseScriptContent_no_sections :
  option_map (fun r => map (fun s => (ScriptParser.title s, ScriptParser.content s))
                           (ScriptParser.sections (fst r)))
             (ScriptParser.parseScriptContent ScriptParser.counter
                "Water [daisies
once] a week" "Daisy care" 120 0%nat)
  = Some [("Main Content", "Water [daisies
once] a week")].
Proof. vm_compute. reflexivity. Qed.


(** ** Variations of a script *)

Section VariationFacts.

Import Errors AIContentGenerationService ScriptVariations VisualVocabulary.

Lemma string_forall_rev_append (p : ascii -> bool) (s acc : string) :
  string_forall p (JsString.rev_append s acc) = string_forall p s && string_forall p acc.
Proof.
  revert acc. induction s as [|c s IH]; intros acc; simpl; [reflexivity|].
  rewrite IH. simpl. destruct (p c), (string_forall p s); reflexivity.
Qed.

Lemma trimStart_not_white (s : string) :
  string_forall JsString.is_white_space s = false ->
  string_forall JsString.is_white_space (JsString.trimStart s) = false.
Proof.
  induction s as [|c s IH]; simpl; [discriminate|].
  destruct (JsString.is_white_space c) eqn:Hc; [exact IH|].
  intros _. simpl. rewrite Hc. reflexivity.
Qed.

(** A string with a character that is not white space has a trimmed form
    that is not empty. *)
Lemma trim_not_white (s : string) :
  string_forall JsString.is_white_space s = false ->
  JsString.trim s <> EmptyString.
Proof.
  intros H. unfold JsString.trim, JsString.trimEnd, JsString.rev.
  apply trimStart_not_white in H.
  assert (Hrev : string_forall JsString.is_white_space
                   (JsString.trimStart
                      (JsString.rev_append (JsString.trimStart s) EmptyString)) = false).
  { apply trimStart_not_white. rewrite string_forall_rev_append, H. reflexivity. }
  intros Hempty.
  assert (Hall : string_forall JsString.is_white_space
                   (JsString.rev_append
                      (JsString.trimStart
                         (JsString.rev_append (JsString.trimStart s) EmptyString))
                      EmptyString) = true)
    by (rewrite Hempty; reflexivity).
  rewrite string_forall_rev_append, Hrev in Hall. discriminate.
Qed.

(** The topic of a variation always passes the topic check of
    [generateScript], whatever the topic it was made from. *)
Lemma variation_topic_passes (topic : string) (index : Z) :
  negb (JsString.truthy (variation_topic topic index))
  || (JsString.len (JsString.trim (variation_topic topic index)) =? 0) = false.
Proof.
  apply topic_check_passes. apply trim_not_white.
  unfold variation_topic.
  rewrite !string_forall_app. simpl.
  rewrite !andb_false_r. reflexivity.
Qed.

Variable Script : Type.
Variable parseScriptContent : string -> string -> Z -> Script.
Variable create : string -> outcome (option string).

Lemma generateScript_one_prompt (topic : string) (duration : Z) :
  negb (JsString.truthy topic) || (JsString.len (JsString.trim topic) =? 0) = false ->
  snd (generateScript Script parseScriptContent create topic duration)
  = if (duration <? 60) || (duration >? 1800) then []
    else [buildScriptPrompt topic duration (targetWords duration)].
Proof.
  intros Htopic. unfold generateScript, generateScript_body. rewrite Htopic.
  destruct ((duration <? 60) || (duration >? 1800)); [reflexivity|].
  destruct (create _) as [[content|]|e]; simpl.
  - destruct (JsString.truthy content); reflexivity.
  - reflexivity.
  - destruct (instanceof_ValidationError e); reflexivity.
Qed.

Lemma first_rejection_found {A : Type} (results : list (outcome A)) (settled : list nat)
    (e : thrown) :
  first_rejection results settled = Some e ->
  exists index, In index settled /\ results !! index = Some (Threw e).
Proof.
  induction settled as [|i settled IH]; [discriminate|].
  simpl. destruct (results !! i) as [[a|e']|] eqn:Hi.
  - intros H. destruct (IH H) as (index & Hin & Hl). eauto.
  - intros H. inversion H; subst. eauto.
  - intros H. destruct (IH H) as (index & Hin & Hl). eauto.
Qed.

Lemma first_rejection_none {A : Type} (results : list (outcome A)) (settled : list nat) :
  first_rejection results settled = None ->
  forall index e, In index settled -> results !! index <> Some (Threw e).
Proof.
  induction settled as [|i settled IH]; intros H index e Hin; [destruct Hin|].
  simpl in H. destruct Hin as [->|Hin].
  - destruct (results !! index) as [[a|e']|]; congruence.
  - destruct (results !! i) as [[a|e']|]; try discriminate; apply IH; assumption.
Qed.

Lemma fulfilled_all {A : Type} (results : list (outcome A)) :
  (forall index e, (index < length results)%nat -> results !! index <> Some (Threw e)) ->
  exists values, fulfilled results = Some values /\ length values = length results.
Proof.
  induction results as [|r results IH]; intros H; [exists []; split; reflexivity|].
  destruct r as [a|e].
  - destruct IH as (values & Hv & Hlen).
    { intros index e Hlt. apply (H (S index) e). simpl. lia. }
    exists (a :: values). simpl. rewrite Hv, Hlen. split; reflexivity.
  - exfalso. apply (H 0%nat e); [simpl; lia | reflexivity].
Qed.

(** X28.  [generateScriptVariations], the promises settling in any order.
    A count outside 1 to 5 is refused before any prompt is sent.
    Otherwise every call of [generateScript] is started, whatever the
    others do; the topic is never checked, since the topic of a variation
    is never empty, so that for a valid duration [count] prompts are sent
    even for an empty topic.  The result is then either [count] scripts, or
    the error of one of the calls. *)
Theorem generateScriptVariations_outcomes
    (topic : string) (duration count : Z) (settled : list nat) :
  Permutation settled (seq 0 (Z.to_nat count)) ->
  (count < 1 \/ 5 < count ->
   generateScriptVariations Script parseScriptContent create topic duration count settled
   = (Some (Threw (ThrownApp (ValidationError "Count must be between 1 and 5"))), []))
  /\ (1 <= count <= 5 ->
      (60 <= duration <= 1800 ->
       snd (generateScriptVariations Script parseScriptContent create topic duration
              count settled)
       = map (fun index =>
                buildScriptPrompt (variation_topic topic (Z.of_nat index)) duration
                  (targetWords duration))
             (seq 0 (Z.to_nat count)))
      /\ match fst (generateScriptVariations Script parseScriptContent create topic
                      duration count settled) with
         | Some (Returned scripts) => Z.of_nat (length scripts) = count
         | Some (Threw e) =>
             exists index,
               0 <= index < count
               /\ fst (generateScript Script parseScriptContent create
                         (variation_topic topic index) duration)
                  = Threw e
         | None => False
         end).
Proof.
  intros Hsettled. unfold generateScriptVariations. split.
  { intros Hcount. replace ((count <? 1) || (count >? 5)) with true by lia. reflexivity. }
  intros Hcount. replace ((count <? 1) || (count >? 5)) with false by lia.
  cbn [fst snd]. split.
  - intros Hduration. unfold started. rewrite map_map. clear Hsettled.
    induction (seq 0 (Z.to_nat count)) as [|index indices IH]; [reflexivity|].
    cbn [map concat]. rewrite IH.
    rewrite (generateScript_one_prompt _ _ (variation_topic_passes topic _)).
    replace ((duration <? 60) || (duration >? 1800)) with false by lia.
    reflexivity.
  - unfold promise_all.
    set (results := map fst (started Script parseScriptContent create topic duration count)).
    assert (Hlen : length results = Z.to_nat count).
    { unfold results, started. rewrite !length_map, length_seq. reflexivity. }
    assert (Hlookup : forall index r,
               results !! index = Some r ->
               (index < Z.to_nat count)%nat
               /\ r = fst (generateScript Script parseScriptContent create
                             (variation_topic topic (Z.of_nat index)) duration)).
    { intros index r Hr.
      assert (Hlt : (index < Z.to_nat count)%nat).
      { rewrite <- Hlen. apply lookup_lt_is_Some. eauto. }
      split; [exact Hlt|].
      unfold results, started in Hr. rewrite map_map in Hr.
      rewrite list_lookup_fmap in Hr.
      rewrite lookup_seq_lt in Hr by exact Hlt. simpl in Hr. congruence. }
    destruct (first_rejection results settled) as [e|] eqn:Hfirst.
    + destruct (first_rejection_found _ _ _ Hfirst) as (index & _ & Hr).
      destruct (Hlookup _ _ Hr) as [Hlt Heq].
      exists (Z.of_nat index). split; [lia | symmetry; exact Heq].
    + destruct (fulfilled_all results) as (values & Hv & Hvlen).
      { intros index e Hlt. apply (first_rejection_none _ _ Hfirst).
        apply (Permutation_in _ (Permutation_sym Hsettled)). apply in_seq. lia. }
      rewrite Hv. lia.
Qed.

End VariationFacts.

(** X28 for three variations of the empty topic, the last answer arriving
    first: three prompts are sent. *)
Lemma generateScriptVariations_outcomes_witness :
  let create := fun _ : string => Errors.Returned (Some "[INTRODUCTION] Hello") in
  let settled := [2%nat; 0%nat; 1%nat] in
  snd (ScriptVariations.generateScriptVariations string (fun content _ _ => content)
         create "" 120 3 settled)
  = map (fun index =>
           AIContentGenerationService.buildScriptPrompt
             (ScriptVariations.variation_topic "" (Z.of_nat index)) 120
             (AIContentGenerationService.targetWords 120))
        (seq 0 (Z.to_nat 3)).
Proof.
  intros create settled.
  assert (Hsettled : Permutation settled (seq 0 (Z.to_nat 3))).
  { change (Permutation [2%nat; 0%nat; 1%nat] [0%nat; 1%nat; 2%nat]).
    apply (perm_trans (l' := [0%nat; 2%nat; 1%nat])).
    - apply perm_swap.
    - apply perm_skip. apply perm_swap. }
  destruct (generateScriptVariations_outcomes string (fun content _ _ => content)
              create "" 120 3 settled Hsettled) as [_ Hvalid].
  destruct (Hvalid ltac:(lia)) as [Hprompts _].
  apply Hprompts. lia.
Defined.

(** The three scripts come back in the order of the calls. *)
Example generateScriptVariations_example :
  fst (ScriptVariations.generateScriptVariations string (fun _ topic _ => topic)
         (fun _ => Errors.Returned (Some "[INTRODUCTION] Hello")) "" 120 3
         [2%nat; 0%nat; 1%nat])
  = Some (Errors.Returned [" (variation 1)"; " (variation 2)"; " (variation 3)"]).
Proof. vm_compute. reflexivity. Qed.


(** ** The estimate of the production time *)

Section EstimateFacts.

Import ProductionEstimate.

(** X29.  For a production of up to 1800 whole seconds and no count of
    visuals (or a count of 0, which is taken as none),
    [estimateProductionTime] is exactly one minute, plus two and a half
    times the duration rounded up, plus ten seconds for each five seconds
    of video or part of them; so it is never less than a minute and never
    less than four and a half times the duration. *)
Theorem estimateProductionTime_exact (seconds : Z) (visualCount : option Z) :
  0 <= seconds <= 1800 ->
  visualCount = None \/ visualCount = Some 0 ->
  estimateProductionTime seconds visualCount
  = 60 + (5 * seconds + 1) / 2 + 10 * ((seconds + 4) / 5)
  /\ 60 <= estimateProductionTime seconds visualCount
  /\ 9 * seconds <= 2 * estimateProductionTime seconds visualCount.
Proof.
  intros Hrange Hcount.
  assert (Hdefault : estimateProductionTime seconds visualCount
                     = estimateProductionTime seconds None)
    by (destruct Hcount as [->| ->]; reflexivity).
  rewrite Hdefault.
  assert (Hexact : estimateProductionTime seconds None
                   = 60 + (5 * seconds + 1) / 2 + 10 * ((seconds + 4) / 5)).
  { apply Z.eqb_eq.
    apply (checked_on_range
             (fun d => estimateProductionTime d None
                       =? 60 + (5 * d + 1) / 2 + 10 * ((d + 4) / 5)) 0 1801);
      [vm_compute; reflexivity | lia]. }
  rewrite Hexact. split; [reflexivity|].
  pose proof (Z.div_mod (5 * seconds + 1) 2 ltac:(lia)) as Hhalf.
  pose proof (Z.mod_pos_bound (5 * seconds + 1) 2 ltac:(lia)) as Hhalf'.
  pose proof (Z.div_mod (seconds + 4) 5 ltac:(lia)) as Hfifth.
  pose proof (Z.mod_pos_bound (seconds + 4) 5 ltac:(lia)) as Hfifth'.
  lia.
Qed.

End EstimateFacts.

(** X29 at 33 seconds: 60 + 83 + 70. *)
Lemma estimateProductionTime_exact_witness :
  ProductionEstimate.estimateProductionTime 33 (Some 0) = 213.
Proof.
  destruct (estimateProductionTime_exact 33 (Some 0) ltac:(lia) (or_intror eq_refl))
    as [Hexact _].
  rewrite Hexact. reflexivity.
Defined.
